(** * Web Activities: the cross-context messaging protocol

    A shallow embedding of [messenger.js], [activity-types.js] and
    [activity-window-port.js]: the [Messenger] command channel, the
    [ActivityResult] value, the popup/redirect [ActivityWindowPort] and the
    redirect-result discovery.

    Conventions of the embedding.
    - JavaScript values that travel on the wire are [JsValue]s; truthiness,
      [String(v)], property reads and the loose comparison [==] against a
      string are written out below.
    - Objects with identity (windows, message ports, promises, timers) are
      natural-number references; the mutable browser around the code (clock,
      timers, promise cells, closed windows, and the log of every host call
      the code makes) is the record [Browser].
    - Methods are computations in the monad [M St]: they read and write the
      receiver [St], act on the [Browser], and either return or throw. *)

From Stdlib Require Import ZArith String Ascii DecimalString Bool Lia.
From stdpp Require Import gmap strings list.

Set Warnings "-register-all".
Local Open Scope string_scope.

(** ** JavaScript values *)

Inductive JsValue : Type :=
| JUndefined
| JNull
| JBool (b : bool)
| JNum (n : Z)
| JStr (s : string)
| JObj (fields : list (string * JsValue))
| JError (name message : string).

(** The double quote, and a name or string literal between double quotes. *)
Definition dq : string := String (Ascii.ascii_of_nat 34) EmptyString.
Definition quoted (s : string) : string := dq +:+ s +:+ dq.

(** [new Error(message)] *)
Definition new_Error (message : string) : JsValue := JError "Error" message.
Definition new_TypeError (message : string) : JsValue := JError "TypeError" message.

Definition Z_to_string (n : Z) : string := NilZero.string_of_int (Z.to_int n).

(** [Error.prototype.toString] *)
Definition Error_toString (name message : string) : string :=
  if String.eqb name "" then message
  else if String.eqb message "" then name
  else name +:+ ": " +:+ message.

(** [String(v)]. Numbers are integers written in plain decimal. *)
Definition ToString (v : JsValue) : string :=
  match v with
  | JUndefined => "undefined"
  | JNull => "null"
  | JBool true => "true"
  | JBool false => "false"
  | JNum n => Z_to_string n
  | JStr s => s
  | JObj _ => "[object Object]"
  | JError name message => Error_toString name message
  end.

(** The truthiness test of [if (v)], [!v], [v || w] and [v && w]. *)
Definition truthy (v : JsValue) : bool :=
  match v with
  | JUndefined | JNull => false
  | JBool b => b
  | JNum n => negb (Z.eqb n 0)
  | JStr s => negb (String.eqb s "")
  | JObj _ | JError _ _ => true
  end.

Definition js_or (v w : JsValue) : JsValue := if truthy v then v else w.
Definition js_and (v w : JsValue) : JsValue := if truthy v then w else v.

Fixpoint assoc (k : string) (fields : list (string * JsValue)) : option JsValue :=
  match fields with
  | [] => None
  | (k', v) :: rest => if String.eqb k k' then Some v else assoc k rest
  end.

(** [v[k]] for a [v] that is neither [null] nor [undefined]: own data
    properties only; a primitive has none of the keys the code reads. *)
Definition get_prop (v : JsValue) (k : string) : JsValue :=
  match v with
  | JObj fields => default JUndefined (assoc k fields)
  | JError name message =>
      if String.eqb k "message" then JStr message
      else if String.eqb k "name" then JStr name
      else JUndefined
  | _ => JUndefined
  end.

Definition is_nullish (v : JsValue) : bool :=
  match v with
  | JUndefined | JNull => true
  | _ => false
  end.

(** [n == s] for a number [n] and a string [s]: the string converts to a
    number when it is empty (to 0) or the plain decimal spelling of an
    integer; other spellings of numbers are not modelled. *)
Definition num_eq_str (n : Z) (s : string) : bool :=
  if String.eqb s "" then Z.eqb n 0 else String.eqb (Z_to_string n) s.

(** [v == s] for a string [s] (abstract equality): [null] and [undefined]
    equal no string, a string compares by content, a number or boolean
    as a number, an object through [String(v)]. *)
Definition loose_eq_str (v : JsValue) (s : string) : bool :=
  match v with
  | JUndefined | JNull => false
  | JBool b => num_eq_str (if b then 1 else 0) s
  | JNum n => num_eq_str n s
  | JStr t => String.eqb t s
  | JObj _ | JError _ _ => String.eqb (ToString v) s
  end.

(** ** References to objects with identity *)

Definition WindowRef := nat.
Definition PortId := nat.
Definition PromiseId := nat.
Definition TimerId := nat.

(** A callback registered by a client of the library, or the port's own
    bound [handleCommand_]. *)
Inductive Handler : Type :=
| PortHandleCommand
| ClientCallback (id : nat).

(** ** activity-types.js *)

Inductive ActivityMode : Type := IFRAME | POPUP | REDIRECT.

Module ActivityResultCode.
Definition OK : string := "ok".
Definition CANCELED : string := "canceled".
Definition FAILED : string := "failed".
End ActivityResultCode.

Module ActivityResult.
Record t : Type := mk {
  code : JsValue;
  data : JsValue;
  mode : ActivityMode;
  origin : JsValue;
  originVerified : bool;
  secureChannel : bool;
  ok : bool;
  error : option JsValue;
}.

(** [new ActivityResult(code, data, mode, origin, originVerified,
    secureChannel)] *)
Definition constructor (code data : JsValue) (mode : ActivityMode)
    (origin : JsValue) (originVerified secureChannel : bool) : t :=
  {| code := code;
     data := if loose_eq_str code ActivityResultCode.OK then data else JNull;
     mode := mode;
     origin := origin;
     originVerified := originVerified;
     secureChannel := secureChannel;
     ok := loose_eq_str code ActivityResultCode.OK;
     error :=
       if loose_eq_str code ActivityResultCode.FAILED
       then Some (new_Error (ToString (js_or (JStr (ToString data)) (JStr ""))))
       else None |}.
End ActivityResult.

(** ** The browser around the code *)

(** The closures the port hands to [setInterval] and [setTimeout]. *)
Inductive TimerCallback : Type :=
| HeartbeatCheck   (* () => this.check_(true), every 500 ms *)
| CancelResult     (* () => { try { this.result_(CANCELED, null) } catch ... } *)
| DelayedCheck.    (* () => this.check_(), 200 ms after a 'check' command *)

Record Timer : Type := mkTimer {
  timer_id : TimerId;
  timer_due : Z;
  timer_period : option Z;
  timer_callback : TimerCallback;
}.

Inductive PromiseState (A : Type) : Type :=
| Pending
| Fulfilled (v : A)
| Rejected (reason : JsValue).
Arguments Pending {A}.
Arguments Fulfilled {A} v.
Arguments Rejected {A} reason.

(** Every call the code makes into its host environment. *)
Inductive Effect : Type :=
| AddEventListener
| RemoveEventListener
| NewMessageChannel (port1 port2 : PortId)
| PortPostMessage (port : PortId) (data : JsValue) (transfer : option (list PortId))
| WindowPostMessage (target : WindowRef) (data : JsValue) (targetOrigin : string)
    (transfer : option (list PortId))
| PortClose (port : PortId)
| PortSetOnMessage (port : PortId)
| CallOnCommand (h : Handler) (cmd payload : JsValue)
| CallOnCustomMessage (h : Handler) (payload : JsValue)
| ResolveResult (p : PromiseId) (settle : PromiseState ActivityResult.t)
| ResolveChannel (p : PromiseId) (port : option PortId)
| ResolveConnected (p : PromiseId)
| SetInterval (id : TimerId) (cb : TimerCallback) (ms : Z)
| SetTimeout (id : TimerId) (cb : TimerCallback) (ms : Z)
| ClearInterval (id : TimerId)
| WindowOpen (url target : string) (features : option string)
| WindowClose (w : WindowRef)
| PromiseCatch (source derived : PromiseId)
| HistoryReplaceState (url : string).

(** The promises the code creates live in three stores, one per type of
    value: activity results, sub-channel ports, and the value-less
    "connected" signal. *)
Record Browser : Type := mkBrowser {
  clock : Z;
  timers : list Timer;
  closedWindows : list WindowRef;
  resultPromises : gmap PromiseId (PromiseState ActivityResult.t);
  channelPromises : gmap PromiseId (PromiseState (option PortId));
  connectedPromises : gmap PromiseId (PromiseState unit);
  nextId : nat;
  log : list Effect;
}.

Definition set_log (l : list Effect) (b : Browser) : Browser :=
  mkBrowser (clock b) (timers b) (closedWindows b) (resultPromises b)
    (channelPromises b) (connectedPromises b) (nextId b) l.
Definition set_timers (ts : list Timer) (b : Browser) : Browser :=
  mkBrowser (clock b) ts (closedWindows b) (resultPromises b)
    (channelPromises b) (connectedPromises b) (nextId b) (log b).
Definition set_resultPromises (ps : gmap PromiseId (PromiseState ActivityResult.t))
    (b : Browser) : Browser :=
  mkBrowser (clock b) (timers b) (closedWindows b) ps
    (channelPromises b) (connectedPromises b) (nextId b) (log b).
Definition set_channelPromises (ps : gmap PromiseId (PromiseState (option PortId)))
    (b : Browser) : Browser :=
  mkBrowser (clock b) (timers b) (closedWindows b) (resultPromises b)
    ps (connectedPromises b) (nextId b) (log b).
Definition set_connectedPromises (ps : gmap PromiseId (PromiseState unit))
    (b : Browser) : Browser :=
  mkBrowser (clock b) (timers b) (closedWindows b) (resultPromises b)
    (channelPromises b) ps (nextId b) (log b).
Definition set_nextId (n : nat) (b : Browser) : Browser :=
  mkBrowser (clock b) (timers b) (closedWindows b) (resultPromises b)
    (channelPromises b) (connectedPromises b) n (log b).
Definition set_clock (c : Z) (b : Browser) : Browser :=
  mkBrowser c (timers b) (closedWindows b) (resultPromises b)
    (channelPromises b) (connectedPromises b) (nextId b) (log b).
Definition set_closedWindows (ws : list WindowRef) (b : Browser) : Browser :=
  mkBrowser (clock b) (timers b) ws (resultPromises b)
    (channelPromises b) (connectedPromises b) (nextId b) (log b).

(** ** The monad of methods: receiver state, browser, exceptions *)

Inductive Outcome (A : Type) : Type :=
| Ret (a : A)
| Throw (e : JsValue).
Arguments Ret {A} a.
Arguments Throw {A} e.

Definition M (St A : Type) : Type := St -> Browser -> Outcome A * St * Browser.

Definition ret {St A} (a : A) : M St A := fun s b => (Ret a, s, b).
Definition throw {St A} (e : JsValue) : M St A := fun s b => (Throw e, s, b).
Definition bind {St A B} (c : M St A) (k : A -> M St B) : M St B :=
  fun s b =>
    match c s b with
    | (Ret a, s', b') => k a s' b'
    | (Throw e, s', b') => (Throw e, s', b')
    end.
(** [try { c } catch (e) { h e }] *)
Definition catch {St A} (c : M St A) (h : JsValue -> M St A) : M St A :=
  fun s b =>
    match c s b with
    | (Ret a, s', b') => (Ret a, s', b')
    | (Throw e, s', b') => h e s' b'
    end.
Definition this {St} : M St St := fun s b => (Ret s, s, b).
Definition update {St} (f : St -> St) : M St unit := fun s b => (Ret tt, f s, b).
Definition browser {St} : M St Browser := fun s b => (Ret b, s, b).
Definition update_browser {St} (f : Browser -> Browser) : M St unit :=
  fun s b => (Ret tt, s, f b).
Definition emit {St} (e : Effect) : M St unit :=
  fun s b => (Ret tt, s, set_log (log b ++ [e]) b).
(** A fresh object reference; references start at 1, so a timer handle is
    never the falsy 0. *)
Definition fresh {St} : M St nat :=
  fun s b => (Ret (S (nextId b)), s, set_nextId (S (nextId b)) b).

Declare Scope js_scope.
Delimit Scope js_scope with js.
Notation "'let*' x ':=' c 'in' k" := (bind c (fun x => k))
  (at level 10, x pattern, c at level 100, k at level 200) : js_scope.
Notation "c ';;' k" := (bind c (fun _ => k))
  (at level 100, k at level 200, right associativity) : js_scope.
Local Open Scope js_scope.

(** [new Promise(resolve => ...)]: a fresh pending cell, in the store of
    its type. *)
Definition new_resultPromise {St} : M St PromiseId :=
  let* p := fresh in
  update_browser (fun b => set_resultPromises (<[p := Pending]> (resultPromises b)) b);;
  ret p.
Definition new_channelPromise {St} : M St PromiseId :=
  let* p := fresh in
  update_browser (fun b => set_channelPromises (<[p := Pending]> (channelPromises b)) b);;
  ret p.
Definition new_connectedPromise {St} : M St PromiseId :=
  let* p := fresh in
  update_browser (fun b => set_connectedPromises (<[p := Pending]> (connectedPromises b)) b);;
  ret p.

(** A promise settles once: a cell that is no longer pending keeps its
    state. *)
Definition settle {A} (p : PromiseId) (st : PromiseState A)
    (ps : gmap PromiseId (PromiseState A)) : gmap PromiseId (PromiseState A) :=
  match ps !! p with
  | Some Pending => <[p := st]> ps
  | _ => ps
  end.

(** Calling the resolve function of the result promise [p], with a result
    or with [Promise.reject(reason)]. *)
Definition resolve_result {St} (p : PromiseId) (st : PromiseState ActivityResult.t)
    : M St unit :=
  emit (ResolveResult p st);;
  update_browser (fun b => set_resultPromises (settle p st (resultPromises b)) b).

(** [channelObj.resolver(port)] *)
Definition resolve_channel {St} (p : PromiseId) (port : option PortId) : M St unit :=
  emit (ResolveChannel p port);;
  update_browser (fun b => set_channelPromises (settle p (Fulfilled port) (channelPromises b)) b).

(** [this.connectedResolver_()] *)
Definition resolve_connected {St} (p : PromiseId) : M St unit :=
  emit (ResolveConnected p);;
  update_browser (fun b => set_connectedPromises (settle p (Fulfilled tt) (connectedPromises b)) b).

Definition setInterval {St} (cb : TimerCallback) (ms : Z) : M St TimerId :=
  let* id := fresh in
  emit (SetInterval id cb ms);;
  update_browser
    (fun b => set_timers (timers b ++ [mkTimer id (clock b + ms) (Some ms) cb]) b);;
  ret id.

Definition setTimeout {St} (cb : TimerCallback) (ms : Z) : M St TimerId :=
  let* id := fresh in
  emit (SetTimeout id cb ms);;
  update_browser
    (fun b => set_timers (timers b ++ [mkTimer id (clock b + ms) None cb]) b);;
  ret id.

Definition clearInterval {St} (id : TimerId) : M St unit :=
  emit (ClearInterval id);;
  update_browser
    (fun b => set_timers (filter (fun t => timer_id t ≠ id) (timers b)) b).

(** [new win.MessageChannel()] *)
Definition new_MessageChannel {St} : M St (PortId * PortId) :=
  let* p1 := fresh in
  let* p2 := fresh in
  emit (NewMessageChannel p1 p2);;
  ret (p1, p2).

(** [closePort(port)]: [port.close()] with its failure swallowed. *)
Definition closePort {St} (port : PortId) : M St unit := emit (PortClose port).

(** ** Windows, events and the helpers of utils.js *)

Inductive OpenOutcome : Type :=
| Opened (w : WindowRef)    (* win.open returned a window *)
| Blocked                   (* win.open returned null *)
| OpenThrew.                (* win.open threw *)

(** The properties of the code's own window [win] that it reads. *)
Record Window : Type := mkWindow {
  hasMessageChannel : bool;        (* typeof win.MessageChannel == 'function' *)
  location_href : string;
  location_hash : string;
  document_referrer : string;
  history_replaceState : bool;     (* win.history && win.history.replaceState *)
  navigator_userAgent : string;
  window_open : string -> string -> option string -> OpenOutcome;
}.

Module MessageEvent.
Record t : Type := mk {
  data : JsValue;
  origin : string;
  source : option WindowRef;
  ports : option (list PortId);
}.
End MessageEvent.

(** The activity request handed to [serializeRequest]. *)
Record ActivityRequest : Type := mkRequest {
  req_requestId : string;
  req_returnUrl : string;
  req_args : JsValue;
}.

(** The functions imported from utils.js, which is not part of the sources
    at hand, and [JSON.parse]; they are parameters of the development.
    [JSON_parse] answers [None] where [JSON.parse] throws. *)
Record Utils : Type := mkUtils {
  isIeBrowser : Window -> bool;
  isEdgeBrowser : Window -> bool;
  getOriginFromUrl : string -> string;
  getQueryParam : string -> string -> option string;
  removeQueryParam : string -> string -> option string;
  addFragmentParam : string -> string -> string -> string;
  removeFragment : string -> string;
  serializeRequest : ActivityRequest -> string;
  JSON_parse : string -> option JsValue;
}.

(** Modelled from the spec: [resolveResult(win, result, resolver)] of
    utils.js, which is not part of the sources at hand. The spec has the
    result promise resolve with the [ActivityResult] for every code
    ("resolves with code = FAILED", "resolves acceptResult() with
    code = CANCELED", "always resolves immediately (fulfilled)"): the result
    is handed to the resolver. *)
Definition resolveResult {St} (win : Window) (result : ActivityResult.t)
    (resolver : PromiseId) : M St unit :=
  resolve_result resolver (Fulfilled result).

(** ** messenger.js *)

Definition SENTINEL : string := "__ACTIVITIES__".

(** [targetOrCallback]: a window (or [null] at run time), or a function
    answering the window; the function is read as a pure accessor. *)
Inductive TargetOrCallback : Type :=
| TargetWindow (w : option WindowRef)
| TargetCallback (f : unit -> option WindowRef).

Record ChannelHolderDef : Type := mkChannelHolder {
  promise : PromiseId;
  resolver : PromiseId;     (* the resolve function of [promise] *)
  port1 : option PortId;
  port2 : option PortId;
}.

(** What a method hands to a registered callback as its last action; the
    owner of the callback runs it on the state the method leaves. *)
Inductive Dispatch : Type :=
| NoCall
| ToOnCommand (h : Handler) (cmd payload : JsValue)
| ToOnCustomMessage (h : Handler) (payload : JsValue).

Module Messenger.
Record t : Type := mk {
  win_ : Window;
  targetOrCallback_ : TargetOrCallback;
  targetOrigin_ : option string;
  requireTarget_ : bool;
  target_ : option WindowRef;
  acceptsChannel_ : JsValue;
  port_ : option PortId;
  onCommand_ : option Handler;
  onCustomMessage_ : option Handler;
  channels_ : option (gmap string ChannelHolderDef);
}.

Definition set_targetOrigin_ (o : option string) (m : t) : t :=
  mk (win_ m) (targetOrCallback_ m) o (requireTarget_ m) (target_ m)
     (acceptsChannel_ m) (port_ m) (onCommand_ m) (onCustomMessage_ m) (channels_ m).
Definition set_target_ (w : option WindowRef) (m : t) : t :=
  mk (win_ m) (targetOrCallback_ m) (targetOrigin_ m) (requireTarget_ m) w
     (acceptsChannel_ m) (port_ m) (onCommand_ m) (onCustomMessage_ m) (channels_ m).
Definition set_acceptsChannel_ (v : JsValue) (m : t) : t :=
  mk (win_ m) (targetOrCallback_ m) (targetOrigin_ m) (requireTarget_ m) (target_ m)
     v (port_ m) (onCommand_ m) (onCustomMessage_ m) (channels_ m).
Definition set_port_ (p : option PortId) (m : t) : t :=
  mk (win_ m) (targetOrCallback_ m) (targetOrigin_ m) (requireTarget_ m) (target_ m)
     (acceptsChannel_ m) p (onCommand_ m) (onCustomMessage_ m) (channels_ m).
Definition set_onCommand_ (h : option Handler) (m : t) : t :=
  mk (win_ m) (targetOrCallback_ m) (targetOrigin_ m) (requireTarget_ m) (target_ m)
     (acceptsChannel_ m) (port_ m) h (onCustomMessage_ m) (channels_ m).
Definition set_onCustomMessage_ (h : option Handler) (m : t) : t :=
  mk (win_ m) (targetOrCallback_ m) (targetOrigin_ m) (requireTarget_ m) (target_ m)
     (acceptsChannel_ m) (port_ m) (onCommand_ m) h (channels_ m).
Definition set_channels_ (c : option (gmap string ChannelHolderDef)) (m : t) : t :=
  mk (win_ m) (targetOrCallback_ m) (targetOrigin_ m) (requireTarget_ m) (target_ m)
     (acceptsChannel_ m) (port_ m) (onCommand_ m) (onCustomMessage_ m) c.

(** [new Messenger(win, targetOrCallback, targetOrigin, requireTarget)] *)
Definition constructor (win : Window) (targetOrCallback : TargetOrCallback)
    (targetOrigin : option string) (requireTarget : bool) : t :=
  {| win_ := win;
     targetOrCallback_ := targetOrCallback;
     targetOrigin_ := targetOrigin;
     requireTarget_ := requireTarget;
     target_ := None;
     acceptsChannel_ := JBool false;
     port_ := None;
     onCommand_ := None;
     onCustomMessage_ := None;
     channels_ := None |}.

Definition connect (onCommand : Handler) : M t unit :=
  let* m := this in
  match onCommand_ m with
  | Some _ => throw (new_Error "already connected")
  | None =>
      update (set_onCommand_ (Some onCommand));;
      emit AddEventListener
  end.

(** The body of [for (const k in this.channels_)] for one holder. *)
Definition closeChannel (channelObj : ChannelHolderDef) : M t unit :=
  match port1 channelObj with Some p => closePort p | None => ret tt end;;
  match port2 channelObj with Some p => closePort p | None => ret tt end.

Fixpoint closeChannels (holders : list (string * ChannelHolderDef)) : M t unit :=
  match holders with
  | [] => ret tt
  | (_, channelObj) :: rest => closeChannel channelObj;; closeChannels rest
  end.

(** The holders are visited in the order of [map_to_list]; the order in
    which JavaScript enumerates the keys is not modelled. *)
Definition disconnect : M t unit :=
  let* m := this in
  match onCommand_ m with
  | None => ret tt
  | Some _ =>
      update (set_onCommand_ None);;
      match port_ m with
      | Some p => closePort p;; update (set_port_ None)
      | None => ret tt
      end;;
      emit RemoveEventListener;;
      match channels_ m with
      | Some chans =>
          closeChannels (map_to_list chans);;
          update (set_channels_ None)
      | None => ret tt
      end
  end.

Definition isConnected : M t bool :=
  let* m := this in
  ret (match targetOrigin_ m with Some _ => true | None => false end).

Definition getOptionalTarget_ : M t (option WindowRef) :=
  let* m := this in
  match onCommand_ m, target_ m with
  | Some _, None =>
      match targetOrCallback_ m with
      | TargetCallback f => update (set_target_ (f tt))
      | TargetWindow w => update (set_target_ w)
      end
  | _, _ => ret tt
  end;;
  let* m := this in
  ret (target_ m).

Definition getTarget : M t WindowRef :=
  let* target := getOptionalTarget_ in
  match target with
  | None => throw (new_Error "not connected")
  | Some w => ret w
  end.

Definition getTargetOrigin : M t string :=
  let* m := this in
  match targetOrigin_ m with
  | None => throw (new_Error "not connected")
  | Some o => ret o
  end.

(** The envelope [{sentinel, cmd, payload}] built by [sendCommand]. *)
Definition envelope (cmd : string) (opt_payload : JsValue) : JsValue :=
  JObj [("sentinel", JStr SENTINEL);
        ("cmd", JStr cmd);
        ("payload", js_or opt_payload JNull)].

Definition sendCommand (cmd : string) (opt_payload : JsValue)
    (opt_transfer : option (list PortId)) : M t unit :=
  let data := envelope cmd opt_payload in
  let* m := this in
  match port_ m with
  | Some p => emit (PortPostMessage p data opt_transfer)
  | None =>
      let* target := getTarget in
      let* targetOrigin :=
        if String.eqb cmd "connect"
        then (let* m := this in
              ret (match targetOrigin_ m with Some o => o | None => "*" end))
        else getTargetOrigin in
      emit (WindowPostMessage target data targetOrigin opt_transfer)
  end.

Definition sendConnectCommand (U : Utils) : M t unit :=
  let* m := this in
  let acceptsChannel := isIeBrowser U (win_ m) || isEdgeBrowser U (win_ m) in
  sendCommand "connect" (JObj [("acceptsChannel", JBool acceptsChannel)]) None.

(** [this.port_.onmessage = event => ...] is recorded; the closure itself
    is [portOnMessage] below. *)
Definition switchToChannel_ (port : PortId) : M t unit :=
  let* m := this in
  match port_ m with Some p => closePort p | None => ret tt end;;
  update (set_port_ (Some port));;
  emit (PortSetOnMessage port).

Definition sendStartCommand (args : JsValue) : M t unit :=
  let* m := this in
  if truthy (acceptsChannel_ m) && hasMessageChannel (win_ m)
  then
    let* channel := new_MessageChannel in
    sendCommand "start" args (Some [snd channel]);;
    switchToChannel_ (fst channel)
  else sendCommand "start" args None.

Definition customMessage (payload : JsValue) : M t unit :=
  sendCommand "msg" payload None.

Definition onCustomMessage (callback : Handler) : M t unit :=
  update (set_onCustomMessage_ (Some callback)).

(** [getChannelObj_(name)]: the holder lives in [channels_] under the
    property key [String(name)]; the key is returned with it, and writes
    to the holder go through [setChannelObj]. The properties a plain
    object inherits from [Object.prototype] are not modelled. *)
Definition getChannelObj_ (name : JsValue) : M t (string * ChannelHolderDef) :=
  let key := ToString name in
  let* m := this in
  match channels_ m with
  | None => update (set_channels_ (Some ∅))
  | Some _ => ret tt
  end;;
  let* m := this in
  let chans := default ∅ (channels_ m) in
  match chans !! key with
  | Some channelObj => ret (key, channelObj)
  | None =>
      let* p := new_channelPromise in
      let channelObj := mkChannelHolder p p None None in
      update (set_channels_ (Some (<[key := channelObj]> chans)));;
      ret (key, channelObj)
  end.

Definition setChannelObj (key : string) (channelObj : ChannelHolderDef) : M t unit :=
  update (fun m => set_channels_ (Some (<[key := channelObj]> (default ∅ (channels_ m)))) m).

Definition startChannel (opt_name : JsValue) : M t PromiseId :=
  let name := js_or opt_name (JStr "") in
  let* (key, channelObj) := getChannelObj_ name in
  let* channelObj :=
    match port1 channelObj with
    | Some _ => ret channelObj
    | None =>
        let* m := this in
        if hasMessageChannel (win_ m)
        then
          let* channel := new_MessageChannel in
          let channelObj' :=
            mkChannelHolder (promise channelObj) (resolver channelObj)
              (Some (fst channel)) (Some (snd channel)) in
          setChannelObj key channelObj';;
          resolve_channel (resolver channelObj') (Some (fst channel));;
          ret channelObj'
        else throw (new_TypeError "this.win_.MessageChannel is not a constructor")
    end in
  match port2 channelObj with
  | Some p2 =>
      sendCommand "cnset" (JObj [("name", name)]) (Some [p2]);;
      setChannelObj key
        (mkChannelHolder (promise channelObj) (resolver channelObj) (port1 channelObj) None)
  | None => ret tt
  end;;
  ret (promise channelObj).

Definition askChannel (opt_name : JsValue) : M t PromiseId :=
  let name := js_or opt_name (JStr "") in
  let* (key, channelObj) := getChannelObj_ name in
  match port1 channelObj with
  | None => sendCommand "cnget" (JObj [("name", name)]) None
  | Some _ => ret tt
  end;;
  ret (promise channelObj).

Definition receiveChannel_ (name : JsValue) (port : option PortId) : M t unit :=
  let* (key, channelObj) := getChannelObj_ name in
  setChannelObj key
    (mkChannelHolder (promise channelObj) (resolver channelObj) port (port2 channelObj));;
  resolve_channel (resolver channelObj) port.

(** [this.onCommand_(cmd, payload)] *)
Definition callOnCommand (cmd payload : JsValue) : M t Dispatch :=
  let* m := this in
  match onCommand_ m with
  | None => throw (new_TypeError "this.onCommand_ is not a function")
  | Some h => emit (CallOnCommand h cmd payload);; ret (ToOnCommand h cmd payload)
  end.

(** [payload['name']], which throws on a [null] payload. *)
Definition payload_name (payload : JsValue) : M t JsValue :=
  if is_nullish payload
  then throw (new_TypeError "Cannot read properties of null")
  else ret (get_prop payload "name").

Definition handleCommand_ (cmd payload : JsValue) (event : MessageEvent.t) : M t Dispatch :=
  if loose_eq_str cmd "connect" then
    let* m := this in
    match port_ m with
    | Some p => closePort p;; update (set_port_ None)
    | None => ret tt
    end;;
    update (set_acceptsChannel_
              (js_or (js_and payload (get_prop payload "acceptsChannel")) (JBool false)));;
    callOnCommand cmd payload
  else if loose_eq_str cmd "start" then
    match MessageEvent.ports event with
    | Some (port :: _) => switchToChannel_ port
    | _ => ret tt
    end;;
    callOnCommand cmd payload
  else if loose_eq_str cmd "msg" then
    let* m := this in
    match onCustomMessage_ m with
    | Some h =>
        if is_nullish payload then ret NoCall
        else emit (CallOnCustomMessage h payload);; ret (ToOnCustomMessage h payload)
    | None => ret NoCall
    end
  else if loose_eq_str cmd "cnget" then
    let* name := payload_name payload in
    startChannel name;;
    ret NoCall
  else if loose_eq_str cmd "cnset" then
    let* name := payload_name payload in
    match MessageEvent.ports event with
    | None => throw (new_TypeError "Cannot read properties of undefined")
    | Some ports => receiveChannel_ name (head ports);; ret NoCall
    end
  else callOnCommand cmd payload.

(** The [onmessage] closure that [switchToChannel_] installs on the
    dedicated port. *)
Definition portOnMessage (event : MessageEvent.t) : M t Dispatch :=
  let data := MessageEvent.data event in
  let cmd := js_and data (get_prop data "cmd") in
  let payload := js_or (js_and data (get_prop data "payload")) JNull in
  if truthy cmd then handleCommand_ cmd payload event else ret NoCall.

Definition option_eqb (a b : option WindowRef) : bool :=
  match a, b with
  | None, None => true
  | Some x, Some y => Nat.eqb x y
  | _, _ => false
  end.

(** The listener of the window's 'message' events. *)
Definition handleEvent_ (event : MessageEvent.t) : M t Dispatch :=
  let* m := this in
  let* mismatch :=
    if requireTarget_ m
    then (let* target := getOptionalTarget_ in
          ret (negb (option_eqb target (MessageEvent.source event))))
    else ret false in
  if mismatch then ret NoCall else
  let data := MessageEvent.data event in
  if negb (truthy data) || negb (loose_eq_str (get_prop data "sentinel") SENTINEL)
  then ret NoCall else
  let cmd := get_prop data "cmd" in
  let* m := this in
  if match port_ m with Some _ => true | None => false end
     && negb (loose_eq_str cmd "connect") && negb (loose_eq_str cmd "start")
  then ret NoCall else
  let origin := MessageEvent.origin event in
  let payload := js_or (get_prop data "payload") JNull in
  (if match targetOrigin_ m with None => true | Some _ => false end
      && loose_eq_str cmd "start"
   then update (set_targetOrigin_ (Some origin)) else ret tt);;
  let* m := this in
  match targetOrigin_ m, MessageEvent.source event with
  | None, Some src =>
      let* target := getOptionalTarget_ in
      if option_eqb target (Some src)
      then update (set_targetOrigin_ (Some origin)) else ret tt
  | _, _ => ret tt
  end;;
  let* m := this in
  if match targetOrigin_ m with
     | Some o => negb (String.eqb origin o)
     | None => true
     end
  then ret NoCall
  else handleCommand_ cmd payload event.
End Messenger.

(** ** activity-window-port.js *)

Record ActivityOpenOptionsDef : Type := mkOptions {
  returnUrl : option string;
  skipRequestInUrl : bool;
  disableRedirectFallback : bool;
  width : option Z;
  height : option Z;
}.

Definition no_options : ActivityOpenOptionsDef := mkOptions None false false None None.

Module ActivityWindowPort.
Record t : Type := mk {
  win_ : Window;
  requestId_ : string;
  url_ : string;
  openTarget_ : string;
  args_ : JsValue;
  options_ : ActivityOpenOptionsDef;
  connectedResolver_ : option PromiseId;
  connectedPromise_ : PromiseId;
  resultResolver_ : option PromiseId;
  resultPromise_ : PromiseId;
  targetWin_ : option WindowRef;
  heartbeatInterval_ : option TimerId;
  messenger_ : option Messenger.t;
}.

Definition set_resultResolver_ (r : option PromiseId) (p : t) : t :=
  mk (win_ p) (requestId_ p) (url_ p) (openTarget_ p) (args_ p) (options_ p)
     (connectedResolver_ p) (connectedPromise_ p) r (resultPromise_ p)
     (targetWin_ p) (heartbeatInterval_ p) (messenger_ p).
Definition set_targetWin_ (w : option WindowRef) (p : t) : t :=
  mk (win_ p) (requestId_ p) (url_ p) (openTarget_ p) (args_ p) (options_ p)
     (connectedResolver_ p) (connectedPromise_ p) (resultResolver_ p) (resultPromise_ p)
     w (heartbeatInterval_ p) (messenger_ p).
Definition set_heartbeatInterval_ (h : option TimerId) (p : t) : t :=
  mk (win_ p) (requestId_ p) (url_ p) (openTarget_ p) (args_ p) (options_ p)
     (connectedResolver_ p) (connectedPromise_ p) (resultResolver_ p) (resultPromise_ p)
     (targetWin_ p) h (messenger_ p).
Definition set_messenger_ (m : option Messenger.t) (p : t) : t :=
  mk (win_ p) (requestId_ p) (url_ p) (openTarget_ p) (args_ p) (options_ p)
     (connectedResolver_ p) (connectedPromise_ p) (resultResolver_ p) (resultPromise_ p)
     (targetWin_ p) (heartbeatInterval_ p) m.

(** [target && (target == '_blank' || target == '_top' || target[0] != '_')] *)
Definition isValidTarget (target : string) : bool :=
  match target with
  | EmptyString => false
  | String c _ =>
      String.eqb target "_blank" || String.eqb target "_top"
      || negb (Ascii.eqb c "_"%char)
  end.

(** The message of the constructor's error. *)
Definition invalidTargetMessage : string :=
  "The only allowed targets are " +:+ dq +:+ "_blank" +:+ dq +:+ ", "
    +:+ dq +:+ "_top" +:+ dq +:+ " and name targets".

(** [new ActivityWindowPort(win, requestId, url, target, opt_args,
    opt_options)] *)
Definition constructor (win : Window) (requestId url target : string)
    (opt_args : JsValue) (opt_options : option ActivityOpenOptionsDef) : M unit t :=
  if negb (isValidTarget target)
  then throw (new_Error invalidTargetMessage)
  else
    let* connected := new_connectedPromise in
    let* result := new_resultPromise in
    ret {| win_ := win;
           requestId_ := requestId;
           url_ := url;
           openTarget_ := target;
           args_ := js_or opt_args JNull;
           options_ := default no_options opt_options;
           connectedResolver_ := Some connected;
           connectedPromise_ := connected;
           resultResolver_ := Some result;
           resultPromise_ := result;
           targetWin_ := None;
           heartbeatInterval_ := None;
           messenger_ := None |}.

Definition getMode (p : t) : ActivityMode :=
  if String.eqb (openTarget_ p) "_top" then REDIRECT else POPUP.

Definition whenConnected (p : t) : PromiseId := connectedPromise_ p.
Definition getTargetWin (p : t) : option WindowRef := targetWin_ p.
Definition acceptResult (p : t) : PromiseId := resultPromise_ p.

(** [this.messenger_.method(...)]: the call runs on the owned messenger
    and throws when [messenger_] is [null]. *)
Definition onMessenger {A} (c : M Messenger.t A) : M t A :=
  fun p b =>
    match messenger_ p with
    | None => (Throw (new_TypeError "Cannot read properties of null"), p, b)
    | Some m =>
        match c m b with
        | (r, m', b') => (r, set_messenger_ (Some m') p, b')
        end
    end.

(** A timer handle is a number: [if (this.heartbeatInterval_)]. *)
Definition truthy_handle (h : option TimerId) : option TimerId :=
  match h with
  | Some 0 => None
  | _ => h
  end.

Definition disconnect : M t unit :=
  let* p := this in
  match truthy_handle (heartbeatInterval_ p) with
  | Some h => clearInterval h;; update (set_heartbeatInterval_ None)
  | None => ret tt
  end;;
  match messenger_ p with
  | Some _ => onMessenger Messenger.disconnect;; update (set_messenger_ None)
  | None => ret tt
  end;;
  match targetWin_ p with
  | Some w => emit (WindowClose w);; update (set_targetWin_ None)
  | None => ret tt
  end;;
  update (set_resultResolver_ None).

Definition message (payload : JsValue) : M t unit :=
  onMessenger (Messenger.customMessage payload).

Definition onMessage (callback : Handler) : M t unit :=
  onMessenger (Messenger.onCustomMessage callback).

Definition messageChannel (opt_name : JsValue) : M t PromiseId :=
  onMessenger (Messenger.askChannel opt_name).

Definition disconnectWithError_ (reason : JsValue) : M t unit :=
  let* p := this in
  match resultResolver_ p with
  | Some r => resolve_result r (Rejected reason)
  | None => ret tt
  end;;
  disconnect.

Definition check_ (opt_delayCancel : bool) : M t unit :=
  let* p := this in
  let* b := browser in
  let closed :=
    match targetWin_ p with
    | None => true
    | Some w => bool_decide (w ∈ closedWindows b)
    end in
  if closed then
    match truthy_handle (heartbeatInterval_ p) with
    | Some h => clearInterval h;; update (set_heartbeatInterval_ None)
    | None => ret tt
    end;;
    setTimeout CancelResult (if opt_delayCancel then 3000 else 0);;
    ret tt
  else ret tt.

Definition setupPopup_ : M t unit :=
  let* h := setInterval HeartbeatCheck 500 in
  update (set_heartbeatInterval_ (Some h));;
  let* p := this in
  update (set_messenger_
            (Some (Messenger.constructor (win_ p) (TargetWindow (targetWin_ p)) None true)));;
  onMessenger (Messenger.connect PortHandleCommand).

Section WithUtils.
Context (U : Utils).

(** [buildFeatures_()] computes the popup's feature string from screen
    and viewport metrics in floating point; the string is only handed to
    [win.open], and it is a parameter here. *)
Context (buildFeatures_ : t -> string).

Definition result_ (code data : JsValue) : M t unit :=
  let* p := this in
  match resultResolver_ p with
  | Some r =>
      let* isConnected := onMessenger Messenger.isConnected in
      let* origin :=
        if isConnected : bool
        then onMessenger Messenger.getTargetOrigin
        else ret (getOriginFromUrl U (url_ p)) in
      let result :=
        ActivityResult.constructor code data POPUP (JStr origin)
          isConnected isConnected in
      resolveResult (win_ p) result r;;
      update (set_resultResolver_ None)
  | None => ret tt
  end;;
  let* p := this in
  match messenger_ p with
  | Some _ => onMessenger (Messenger.sendCommand "close" JUndefined None)
  | None => ret tt
  end;;
  disconnect.

Definition handleCommand_ (cmd payload : JsValue) : M t unit :=
  if loose_eq_str cmd "connect" then
    let* p := this in
    onMessenger (Messenger.sendStartCommand (args_ p));;
    match connectedResolver_ p with
    | Some r => resolve_connected r
    | None => throw (new_TypeError "this.connectedResolver_ is not a function")
    end
  else if loose_eq_str cmd "result" then
    if is_nullish payload
    then throw (new_TypeError "Cannot read properties of null")
    else
      let code := get_prop payload "code" in
      let data :=
        if loose_eq_str code ActivityResultCode.FAILED
        then new_Error (ToString (js_or (get_prop payload "data") (JStr "")))
        else get_prop payload "data" in
      result_ code data
  else if loose_eq_str cmd "check" then
    setTimeout DelayedCheck 200;; ret tt
  else ret tt.

(** The closures behind the port's timers. *)
Definition runTimerCallback (cb : TimerCallback) : M t unit :=
  match cb with
  | HeartbeatCheck => check_ true
  | CancelResult =>
      catch (result_ (JStr ActivityResultCode.CANCELED) JNull) disconnectWithError_
  | DelayedCheck => check_ false
  end.

(** [try { targetWin = this.win_.open(url, target, features) } catch] *)
Definition tryOpen (url target : string) (features : option string)
    : M t (option WindowRef) :=
  let* p := this in
  emit (WindowOpen url target features);;
  match window_open (win_ p) url target features with
  | Opened w => ret (Some w)
  | Blocked | OpenThrew => ret None
  end.

Definition openInternal_ : M t PromiseId :=
  let* p := this in
  let featuresStr := buildFeatures_ p in
  let url :=
    if skipRequestInUrl (options_ p) then url_ p
    else
      let returnUrl :=
        match returnUrl (options_ p) with
        | Some r => if String.eqb r "" then removeFragment U (location_href (win_ p)) else r
        | None => removeFragment U (location_href (win_ p))
        end in
      let requestString :=
        serializeRequest U (mkRequest (requestId_ p) returnUrl (args_ p)) in
      addFragmentParam U (url_ p) "__WA__" requestString in
  let openTarget :=
    if negb (String.eqb (openTarget_ p) "_top") && isIeBrowser U (win_ p)
    then "_top" else openTarget_ p in
  let* targetWin := tryOpen url openTarget (Some featuresStr) in
  let* (targetWin, openTarget) :=
    match targetWin with
    | None =>
        if negb (String.eqb openTarget "_top")
           && negb (disableRedirectFallback (options_ p))
        then (let* w := tryOpen url "_top" None in ret (w, "_top"))
        else ret (None, openTarget)
    | Some w => ret (Some w, openTarget)
    end in
  match targetWin with
  | Some w =>
      update (set_targetWin_ (Some w));;
      if negb (String.eqb openTarget "_top") then setupPopup_ else ret tt
  | None => disconnectWithError_ (new_Error "failed to open window")
  end;;
  let* derived := new_resultPromise in
  emit (PromiseCatch (resultPromise_ p) derived);;
  ret derived.

Definition open : M t PromiseId := openInternal_.
End WithUtils.
End ActivityWindowPort.

Module ActivityWindowRedirectPort.
Record t : Type := mk {
  win_ : Window;
  code_ : JsValue;
  data_ : JsValue;
  targetOrigin_ : JsValue;
  targetOriginVerified_ : bool;
}.

Definition getMode (p : t) : ActivityMode := REDIRECT.

Definition acceptResult (p : t) : M unit PromiseId :=
  let result :=
    ActivityResult.constructor (code_ p) (data_ p) REDIRECT (targetOrigin_ p)
      (targetOriginVerified_ p) false in
  let* promise := new_resultPromise in
  resolveResult (win_ p) result promise;;
  ret promise.
End ActivityWindowRedirectPort.

(** [response['requestId'] != requestId], [origin == referrerOrigin] *)
Definition discoverRedirectPort (U : Utils) (win : Window) (fragment requestId : string)
    : M unit (option ActivityWindowRedirectPort.t) :=
  let paramName := "__WA_RES__" in
  match getQueryParam U fragment paramName with
  | None | Some EmptyString => ret None
  | Some fragmentParam =>
      match JSON_parse U fragmentParam with
      | None => throw (JError "SyntaxError" "Unexpected token in JSON")
      | Some response =>
          if negb (truthy response)
             || negb (loose_eq_str (get_prop response "requestId") requestId)
          then ret None
          else
            let cleanFragment :=
              match removeQueryParam U (location_hash win) paramName with
              | Some c => c
              | None => ""
              end in
            (if negb (String.eqb cleanFragment (location_hash win))
                && history_replaceState win
             then emit (HistoryReplaceState cleanFragment)
             else ret tt);;
            let code := get_prop response "code" in
            let data := get_prop response "data" in
            let origin := get_prop response "origin" in
            let referrerOrigin :=
              if String.eqb (document_referrer win) "" then ""
              else getOriginFromUrl U (document_referrer win) in
            let originVerified := loose_eq_str origin referrerOrigin in
            ret (Some (ActivityWindowRedirectPort.mk win code data origin originVerified))
      end
  end.

(** ** The event loop around one port

    What the browser does to a port between two of its callbacks: time
    passes, a due timer runs its closure, a 'message' event reaches the
    listener the port's messenger registered, a message arrives on the
    messenger's dedicated port, the opened context closes, the client calls
    [disconnect]. An exception that escapes a callback is dropped by the
    browser; what the callback did before it stays. *)

Inductive Input : Type :=
| Elapse (ms : Z)
| TimerFires (id : TimerId)
| WindowMessage (event : MessageEvent.t)
| ChannelMessage (event : MessageEvent.t)
| WindowCloses (w : WindowRef)
| ClientDisconnect.

Definition World : Type := ActivityWindowPort.t * Browser.

Section EventLoop.
Context (U : Utils).

(** The messenger's last action, when it is a call of the port's bound
    [handleCommand_], runs here. *)
Definition deliver (d : Dispatch) : M ActivityWindowPort.t unit :=
  match d with
  | ToOnCommand PortHandleCommand cmd payload =>
      ActivityWindowPort.handleCommand_ U cmd payload
  | _ => ret tt
  end.

(** A 'message' event on the window reaches [handleEvent_] while the
    messenger's listener is registered, that is between its [connect] and
    its [disconnect]. *)
Definition onWindowMessage (event : MessageEvent.t) : M ActivityWindowPort.t unit :=
  let* p := this in
  match ActivityWindowPort.messenger_ p with
  | Some m =>
      match Messenger.onCommand_ m with
      | Some _ =>
          let* d := ActivityWindowPort.onMessenger (Messenger.handleEvent_ event) in
          deliver d
      | None => ret tt
      end
  | None => ret tt
  end.

(** A message on the dedicated port reaches the closure installed by
    [switchToChannel_] while that port is the messenger's open port. *)
Definition onChannelMessage (event : MessageEvent.t) : M ActivityWindowPort.t unit :=
  let* p := this in
  match ActivityWindowPort.messenger_ p with
  | Some m =>
      match Messenger.port_ m with
      | Some _ =>
          let* d := ActivityWindowPort.onMessenger (Messenger.portOnMessage event) in
          deliver d
      | None => ret tt
      end
  | None => ret tt
  end.

Definition reschedule (t : Timer) (now : Z) (ts : list Timer) : list Timer :=
  match timer_period t with
  | Some ms =>
      map (fun t' => if Nat.eqb (timer_id t') (timer_id t)
                     then mkTimer (timer_id t) (now + ms) (Some ms) (timer_callback t)
                     else t') ts
  | None => filter (fun t' => timer_id t' ≠ timer_id t) ts
  end.

(** A timer runs no earlier than it is due; a timeout is then dropped, an
    interval is due again one period later. *)
Definition fireTimer (id : TimerId) : M ActivityWindowPort.t unit :=
  let* b := browser in
  match find (fun t => Nat.eqb (timer_id t) id) (timers b) with
  | Some t =>
      if Z.leb (timer_due t) (clock b)
      then
        update_browser (fun b => set_timers (reschedule t (clock b) (timers b)) b);;
        ActivityWindowPort.runTimerCallback U (timer_callback t)
      else ret tt
  | None => ret tt
  end.

Definition react (i : Input) : M ActivityWindowPort.t unit :=
  match i with
  | Elapse ms => update_browser (fun b => set_clock (clock b + Z.max 0 ms) b)
  | TimerFires id => fireTimer id
  | WindowMessage event => onWindowMessage event
  | ChannelMessage event => onChannelMessage event
  | WindowCloses w => update_browser (fun b => set_closedWindows (w :: closedWindows b) b)
  | ClientDisconnect => ActivityWindowPort.disconnect
  end.

Definition step (i : Input) (w : World) : World :=
  match react i (fst w) (snd w) with
  | (_, p, b) => (p, b)
  end.

Definition run (inputs : list Input) (w : World) : World :=
  fold_left (fun w i => step i w) inputs w.
End EventLoop.

(** * Specification vocabulary *)

(** The window [getOptionalTarget_] answers: the cached one, or, once a
    command handler is registered, the one [targetOrCallback_] stands for. *)
Definition resolvedTarget (m : Messenger.t) : option WindowRef :=
  match Messenger.onCommand_ m, Messenger.target_ m with
  | Some _, None =>
      match Messenger.targetOrCallback_ m with
      | TargetCallback f => f tt
      | TargetWindow w => w
      end
  | _, _ => Messenger.target_ m
  end.

(** The messenger after [getOptionalTarget_] has cached its answer. *)
Definition withTarget (m : Messenger.t) : Messenger.t :=
  Messenger.set_target_ (resolvedTarget m) m.

Definition is_some {A} (o : option A) : bool :=
  match o with Some _ => true | None => false end.

(** A triple for methods: from a receiver and browser satisfying [P], a
    run of [c] that returns [a] ends in [Q a], and a run that throws ends
    in [E]. *)
Definition hoare {St A} (P : St -> Browser -> Prop) (c : M St A)
    (Q : A -> St -> Browser -> Prop) (E : St -> Browser -> Prop) : Prop :=
  forall s b, P s b ->
    match c s b with
    | (Ret a, s', b') => Q a s' b'
    | (Throw _, s', b') => E s' b'
    end.

(** [c] keeps the invariant [I], whether it returns or throws, and a value
    it returns satisfies [V]. *)
Definition spec {St A} (I : St -> Browser -> Prop) (c : M St A) (V : A -> Prop) : Prop :=
  hoare I c (fun a s b => I s b /\ V a) I.

(** [c] keeps the invariant [I] of receiver and browser, whether it returns
    or throws. *)
Definition keeps {St A} (I : St -> Browser -> Prop) (c : M St A) : Prop :=
  forall s b, I s b -> I (c s b).1.2 (c s b).2.

(** Every value [c] returns satisfies [V]. *)
Definition returns {St A} (V : A -> Prop) (c : M St A) : Prop :=
  forall s b, match (c s b).1.1 with Ret a => V a | Throw _ => True end.

(** The browser state a messenger never touches: clock, timers, closed
    windows, the result and connected promises. *)
Definition same_outside_messenger (b b' : Browser) : Prop :=
  clock b' = clock b /\ timers b' = timers b /\ closedWindows b' = closedWindows b
  /\ resultPromises b' = resultPromises b /\ connectedPromises b' = connectedPromises b.

(** Invariants of a messenger that survive whatever its methods do to the
    fields other than the pinned origin: caching the peer, switching ports,
    registering callbacks, negotiating channels, and logging. *)
Record MessengerFrame (I : Messenger.t -> Browser -> Prop) : Prop := {
  mf_browser : forall m b b', I m b -> same_outside_messenger b b' -> I m b';
  mf_target : forall m b, I m b -> I (withTarget m) b;
  mf_port : forall m b x, I m b -> I (Messenger.set_port_ x m) b;
  mf_acceptsChannel : forall m b x, I m b -> I (Messenger.set_acceptsChannel_ x m) b;
  mf_onCommand : forall m b x, I m b -> I (Messenger.set_onCommand_ x m) b;
  mf_onCustomMessage : forall m b x, I m b -> I (Messenger.set_onCustomMessage_ x m) b;
  mf_channels : forall m b x, I m b -> I (Messenger.set_channels_ x m) b;
}.

(** Invariants that also survive the pinning of a still unknown origin. *)
Definition PinFrame (I : Messenger.t -> Browser -> Prop) : Prop :=
  forall m b o, I m b -> Messenger.targetOrigin_ m = None ->
    I (Messenger.set_targetOrigin_ (Some o) m) b.

(** Invariants of a port that survive what its messenger does: they do
    not read the messenger, nor the browser state a messenger touches. *)
Record PortFrame (I : ActivityWindowPort.t -> Browser -> Prop) : Prop := {
  pf_browser : forall p b b', I p b -> same_outside_messenger b b' -> I p b';
  pf_messenger : forall p b m, I p b -> I (ActivityWindowPort.set_messenger_ (Some m) p) b;
}.

(** Invariants of a port that also survive its teardown: each resource
    field may be cleared and a timer may be removed. *)
Record TeardownFrame (I : ActivityWindowPort.t -> Browser -> Prop) : Prop := {
  tf_frame : PortFrame I;
  tf_messenger : forall p b, I p b -> I (ActivityWindowPort.set_messenger_ None p) b;
  tf_resultResolver : forall p b, I p b -> I (ActivityWindowPort.set_resultResolver_ None p) b;
  tf_targetWin : forall p b, I p b -> I (ActivityWindowPort.set_targetWin_ None p) b;
  tf_heartbeatInterval :
    forall p b, I p b -> I (ActivityWindowPort.set_heartbeatInterval_ None p) b;
  tf_clearInterval :
    forall p b id, I p b -> I p (set_timers (filter (fun t => timer_id t ≠ id) (timers b)) b);
}.

(** What a messenger leaves of the browser, seen from [b0]. *)
Definition outside_messenger (b0 : Browser) (m : Messenger.t) (b : Browser) : Prop :=
  same_outside_messenger b0 b.

(** ** A messenger session

    The calls a client of a messenger makes and the events the browser
    delivers to it, in any order. A 'message' event reaches [handleEvent_]
    while the listener is registered (a command handler is set); a message
    on the dedicated port reaches its closure while a port is installed. *)

Inductive MessengerCall : Type :=
| DoConnect (onCommand : Handler)
| DoDisconnect
| DoIsConnected
| DoGetTarget
| DoGetTargetOrigin
| DoSendConnectCommand
| DoSendStartCommand (args : JsValue)
| DoSendCommand (cmd : string) (payload : JsValue) (transfer : option (list PortId))
| DoCustomMessage (payload : JsValue)
| DoOnCustomMessage (callback : Handler)
| DoStartChannel (name : JsValue)
| DoAskChannel (name : JsValue)
| OnWindowEvent (event : MessageEvent.t)
| OnPortEvent (event : MessageEvent.t).

Definition perform (U : Utils) (c : MessengerCall) : M Messenger.t unit :=
  match c with
  | DoConnect h => Messenger.connect h
  | DoDisconnect => Messenger.disconnect
  | DoIsConnected => Messenger.isConnected;; ret tt
  | DoGetTarget => Messenger.getTarget;; ret tt
  | DoGetTargetOrigin => Messenger.getTargetOrigin;; ret tt
  | DoSendConnectCommand => Messenger.sendConnectCommand U
  | DoSendStartCommand args => Messenger.sendStartCommand args
  | DoSendCommand cmd payload transfer => Messenger.sendCommand cmd payload transfer
  | DoCustomMessage payload => Messenger.customMessage payload
  | DoOnCustomMessage h => Messenger.onCustomMessage h
  | DoStartChannel name => Messenger.startChannel name;; ret tt
  | DoAskChannel name => Messenger.askChannel name;; ret tt
  | OnWindowEvent event =>
      let* m := this in
      match Messenger.onCommand_ m with
      | Some _ => Messenger.handleEvent_ event;; ret tt
      | None => ret tt
      end
  | OnPortEvent event =>
      let* m := this in
      match Messenger.port_ m with
      | Some _ => Messenger.portOnMessage event;; ret tt
      | None => ret tt
      end
  end.

Definition session_step (U : Utils) (mb : Messenger.t * Browser) (c : MessengerCall)
    : Messenger.t * Browser :=
  ((perform U c mb.1 mb.2).1.2, (perform U c mb.1 mb.2).2).

Definition session (U : Utils) (calls : list MessengerCall) (mb : Messenger.t * Browser)
    : Messenger.t * Browser :=
  fold_left (session_step U) calls mb.

(** The window [targetOrCallback_] stands for. *)
Definition peer_of (toc : TargetOrCallback) : option WindowRef :=
  match toc with
  | TargetCallback f => f tt
  | TargetWindow w => w
  end.

(** Once the origin is pinned on a messenger that checks the source, the
    peer reference is settled: caching it again changes nothing. *)
Definition peer_settled (m : Messenger.t) : Prop :=
  Messenger.requireTarget_ m = true ->
  Messenger.target_ m = None -> peer_of (Messenger.targetOrCallback_ m) = None.

Definition session_inv (m : Messenger.t) (b : Browser) : Prop :=
  Messenger.targetOrigin_ m <> None -> peer_settled m.

Definition peer_settled_inv (m : Messenger.t) (b : Browser) : Prop := peer_settled m.

Definition pinned_at (o : string) (m : Messenger.t) (b : Browser) : Prop :=
  Messenger.targetOrigin_ m = Some o.

(** ** What [disconnect] leaves *)

(** The host calls [closeChannels] makes. *)
Fixpoint channel_closes (holders : list (string * ChannelHolderDef)) : list Effect :=
  match holders with
  | [] => []
  | (_, channelObj) :: rest =>
      match port1 channelObj with Some p => [PortClose p] | None => [] end
      ++ match port2 channelObj with Some p => [PortClose p] | None => [] end
      ++ channel_closes rest
  end.

(** The releases of one [Messenger.disconnect] on a connected messenger. *)
Definition disconnect_effects (m : Messenger.t) : list Effect :=
  match Messenger.port_ m with Some p => [PortClose p] | None => [] end
  ++ [RemoveEventListener]
  ++ match Messenger.channels_ m with
     | Some chans => channel_closes (map_to_list chans)
     | None => []
     end.

Definition disconnected (m : Messenger.t) : Messenger.t :=
  Messenger.mk (Messenger.win_ m) (Messenger.targetOrCallback_ m)
    (Messenger.targetOrigin_ m) (Messenger.requireTarget_ m) (Messenger.target_ m)
    (Messenger.acceptsChannel_ m) None None (Messenger.onCustomMessage_ m) None.

Definition add_log (es : list Effect) (b : Browser) : Browser :=
  set_log (log b ++ es) b.

(** The port after [disconnect]: a falsy timer handle is left in place. *)
Definition disconnected_port (p : ActivityWindowPort.t) : ActivityWindowPort.t :=
  ActivityWindowPort.mk (ActivityWindowPort.win_ p) (ActivityWindowPort.requestId_ p)
    (ActivityWindowPort.url_ p) (ActivityWindowPort.openTarget_ p)
    (ActivityWindowPort.args_ p) (ActivityWindowPort.options_ p)
    (ActivityWindowPort.connectedResolver_ p) (ActivityWindowPort.connectedPromise_ p)
    None (ActivityWindowPort.resultPromise_ p) None
    (match ActivityWindowPort.truthy_handle (ActivityWindowPort.heartbeatInterval_ p) with
     | Some _ => None
     | None => ActivityWindowPort.heartbeatInterval_ p
     end)
    None.

(** The open-target a port was constructed with. *)
Definition has_openTarget (t : string) (p : ActivityWindowPort.t) (b : Browser) : Prop :=
  ActivityWindowPort.openTarget_ p = t.

(** The result promises are [ps]. *)
Definition results_are (ps : gmap PromiseId (PromiseState ActivityResult.t))
    (p : ActivityWindowPort.t) (b : Browser) : Prop :=
  resultPromises b = ps.

(** ** Sample environments *)

Definition emptyBrowser : Browser := mkBrowser 0 [] [] ∅ ∅ ∅ 0 [].

(** A window whose [open] answers window 7 for a popup and window 1 for
    [_top]. *)
Definition sampleWindow : Window :=
  mkWindow true "https://client.example/page" "" "" true "sample"
    (fun url target features => if String.eqb target "_top" then Opened 1 else Opened 7).

(** A window that blocks popups: [open] answers [null] for every target but
    [_top]. *)
Definition popupBlockingWindow : Window :=
  mkWindow true "https://client.example/page" "" "" true "sample"
    (fun url target features => if String.eqb target "_top" then Opened 1 else Blocked).

Definition sampleUtils : Utils :=
  mkUtils (fun _ => false) (fun _ => false) (fun url => url)
    (fun fragment name => None) (fun fragment name => Some fragment)
    (fun url name value => url +:+ "#" +:+ name +:+ "=" +:+ value)
    (fun url => url) (fun request => req_requestId request) (fun text => None).

Definition sampleFeatures (p : ActivityWindowPort.t) : string := "width=600,height=600".

(** A messenger of the host role: connected, origin unknown, peer window 5. *)
Definition hostMessenger : Messenger.t :=
  Messenger.mk sampleWindow (TargetWindow (Some 5)) None false None (JBool false)
    None (Some (ClientCallback 0)) None None.

(** A port in popup mode, opened on [sampleWindow]: polling, with its
    messenger listening. *)
Definition openedPort : World :=
  match ActivityWindowPort.constructor sampleWindow "r1" "https://host.example/activity"
          "_blank" JNull None tt emptyBrowser with
  | (Ret p, _, b) =>
      ((ActivityWindowPort.open sampleUtils sampleFeatures p b).1.2,
       (ActivityWindowPort.open sampleUtils sampleFeatures p b).2)
  | (Throw _, _, b) =>
      (ActivityWindowPort.mk sampleWindow "" "" "" JNull no_options None 0 None 0
         None None None, b)
  end.

(** A protocol message from the host in window 7. *)
Definition hostMessage (cmd : string) (payload : JsValue) : MessageEvent.t :=
  MessageEvent.mk (Messenger.envelope cmd payload) "https://host.example" (Some 7) (Some []).

(** The one-shot result resolver has been released. *)
Definition resolver_cleared (p : ActivityWindowPort.t) (b : Browser) : Prop :=
  ActivityWindowPort.resultResolver_ p = None.

(** The origin [result_] stamps on a result: the pinned one once the
    messenger is connected, else the origin of the destination URL. *)
Definition result_origin (U : Utils) (p : ActivityWindowPort.t) (m : Messenger.t) : string :=
  match Messenger.targetOrigin_ m with
  | Some o => o
  | None => getOriginFromUrl U (ActivityWindowPort.url_ p)
  end.

(** ** The redirect result of the spec's example *)

(** The text [{"requestId":"r1","code":"ok","data":{"a":1},"origin":"https://x"}]. *)
Definition example_response_text : string :=
  "{" +:+ quoted "requestId" +:+ ":" +:+ quoted "r1" +:+ ","
      +:+ quoted "code" +:+ ":" +:+ quoted "ok" +:+ ","
      +:+ quoted "data" +:+ ":{" +:+ quoted "a" +:+ ":1},"
      +:+ quoted "origin" +:+ ":" +:+ quoted "https://x" +:+ "}".

(** The object [JSON.parse] makes of it. *)
Definition example_response : JsValue :=
  JObj [("requestId", JStr "r1"); ("code", JStr "ok");
        ("data", JObj [("a", JNum 1)]); ("origin", JStr "https://x")].

(** Helpers that find the example in the fragment [#__WA_RES__=...], and a
    page that was reached from [https://x/done]. *)
Definition redirectUtils : Utils :=
  mkUtils (fun _ => false) (fun _ => false)
    (fun url => if String.eqb url "https://x/done" then "https://x" else url)
    (fun fragment name =>
       if String.eqb fragment ("#__WA_RES__=" +:+ example_response_text)
          && String.eqb name "__WA_RES__"
       then Some example_response_text else None)
    (fun fragment name => Some "")
    (fun url name value => url +:+ "#" +:+ name +:+ "=" +:+ value)
    (fun url => url) (fun request => req_requestId request)
    (fun text => if String.eqb text example_response_text
                 then Some example_response else None).

Definition returnedWindow : Window :=
  mkWindow true "https://client.example/page"
    ("#__WA_RES__=" +:+ example_response_text) "https://x/done" true "sample"
    (fun url target features => Blocked).

(** The messages of the examples: a 'result' that reports a failure, with
    and without a reason, and a message without the sentinel. *)
Definition failedPayload : JsValue :=
  JObj [("code", JStr "failed"); ("data", JStr "boom")].
Definition failedPayloadNoReason : JsValue := JObj [("code", JStr "failed")].

Definition unmarkedConnect : MessageEvent.t :=
  MessageEvent.mk (JObj [("cmd", JStr "connect")]) "https://elsewhere.example" None (Some []).

(** A connected messenger with the dedicated port 9 installed. *)
Definition channelMessenger : Messenger.t :=
  Messenger.mk sampleWindow (TargetWindow (Some 5)) (Some "https://client.example") false
    (Some 5) (JBool true) (Some 9) (Some (ClientCallback 0)) None None.

(** ** Sub-channel holders *)

(** The holder registered under a key, if any. *)
Definition holder_of (key : string) (m : Messenger.t) : option ChannelHolderDef :=
  match Messenger.channels_ m with
  | Some chans => chans !! key
  | None => None
  end.

(** The keys that have a holder. *)
Definition holder_keys (m : Messenger.t) : gset string :=
  match Messenger.channels_ m with
  | Some chans => dom chans
  | None => ∅
  end.

(** The property key of the channel that [startChannel(opt_name)] and
    [askChannel(opt_name)] work on. *)
Definition channel_key (opt_name : JsValue) : string :=
  ToString (js_or opt_name (JStr "")).

(** A post, on either transport, of an envelope with command [cmd]. *)
Definition posts (cmd : string) (e : Effect) : bool :=
  match e with
  | PortPostMessage _ data _ | WindowPostMessage _ data _ _ =>
      loose_eq_str (get_prop data "cmd") cmd
  | _ => false
  end.

(** How many envelopes with command [cmd] a log holds. *)
Definition count_posts (cmd : string) (es : list Effect) : nat :=
  length (List.filter (posts cmd) es).

(** The two ways to obtain the promise of a named channel. *)
Inductive ChannelCall : Type := ViaStartChannel | ViaAskChannel.

Definition channelCall (via : ChannelCall) (opt_name : JsValue) : M Messenger.t PromiseId :=
  match via with
  | ViaStartChannel => Messenger.startChannel opt_name
  | ViaAskChannel => Messenger.askChannel opt_name
  end.

(** ** The grace window after the popup is seen closed *)

(** A pending cancellation whose grace window started at [t0]. *)
Definition cancel_timer (t0 : Z) (t : Timer) : Prop :=
  timer_callback t = CancelResult /\ timer_period t = None
  /\ timer_due t = (t0 + 3000)%Z.

(** The outcome of an abandoned activity. *)
Definition canceled (result : ActivityResult.t) : Prop :=
  ActivityResult.code result = JStr ActivityResultCode.CANCELED
  /\ ActivityResult.data result = JNull.

(** The result promise [r] is still pending, or it was fulfilled with
    CANCELED no earlier than 3000 ms after [t0]. *)
Definition pending_or_canceled_late (t0 : Z) (r : PromiseId) (b : Browser) : Prop :=
  resultPromises b !! r = Some Pending
  \/ exists result,
       resultPromises b !! r = Some (Fulfilled result)
       /\ (t0 + 3000 <= clock b)%Z /\ canceled result.

(** What holds of the browser from the first closed observation at [t0]
    on, while the host sends neither 'check' nor 'result': only
    cancellations due at [t0 + 3000] are pending; [late] adds that this
    time has come. *)
Definition grace_browser (late : bool) (t0 : Z) (r : PromiseId)
    (p : ActivityWindowPort.t) (b : Browser) : Prop :=
  Forall (cancel_timer t0) (timers b)
  /\ pending_or_canceled_late t0 r b
  /\ (late = true -> (t0 + 3000 <= clock b)%Z).

(** The resolver of the port is the one of [r], or released already. *)
Definition resolver_is (r : PromiseId) (p : ActivityWindowPort.t) (b : Browser) : Prop :=
  ActivityWindowPort.resultResolver_ p = None
  \/ ActivityWindowPort.resultResolver_ p = Some r.

(** A port that can still deliver has its messenger. *)
Definition resolver_has_messenger (p : ActivityWindowPort.t) (b : Browser) : Prop :=
  ActivityWindowPort.resultResolver_ p <> None ->
  ActivityWindowPort.messenger_ p <> None.

Definition grace_inv (late : bool) (t0 : Z) (r : PromiseId)
    (p : ActivityWindowPort.t) (b : Browser) : Prop :=
  grace_browser late t0 r p b /\ resolver_is r p b /\ resolver_has_messenger p b.

(** The command an inbound message carries, on the window and on the
    dedicated port. *)
Definition command_of (i : Input) : JsValue :=
  match i with
  | WindowMessage event => get_prop (MessageEvent.data event) "cmd"
  | ChannelMessage event =>
      js_and (MessageEvent.data event) (get_prop (MessageEvent.data event) "cmd")
  | _ => JUndefined
  end.

(** An input that is neither a 'check' nor a 'result' command of the host. *)
Definition quiet (i : Input) : Prop :=
  loose_eq_str (command_of i) "check" = false
  /\ loose_eq_str (command_of i) "result" = false.

(** The command a dispatch carries is [cmd]. *)
Definition dispatches (cmd : JsValue) (d : Dispatch) : Prop :=
  match d with
  | ToOnCommand _ c _ => c = cmd
  | _ => True
  end.

(** Only cancellations of the window that started at [t0] are pending,
    and their time has come. *)
Definition cancel_due (t0 : Z) (p : ActivityWindowPort.t) (b : Browser) : Prop :=
  Forall (cancel_timer t0) (timers b) /\ (t0 + 3000 <= clock b)%Z.

(** The port polls its popup [w] with the interval [h]: that interval is
    the only timer and it is due, the result is still awaited on [r], and
    the messenger is in place. *)
Definition polling (h : TimerId) (due : Z) (w : WindowRef) (r : PromiseId)
    (p : ActivityWindowPort.t) (b : Browser) : Prop :=
  ActivityWindowPort.heartbeatInterval_ p = Some h /\ h <> 0
  /\ timers b = [mkTimer h due (Some 500%Z) HeartbeatCheck] /\ (due <= clock b)%Z
  /\ ActivityWindowPort.targetWin_ p = Some w
  /\ ActivityWindowPort.resultResolver_ p = Some r
  /\ resultPromises b !! r = Some Pending
  /\ ActivityWindowPort.messenger_ p <> None.

(** Invariants of a port that read nothing of the browser but the result
    promises, and survive every settlement attempt. *)
Record ResultFrame (I : ActivityWindowPort.t -> Browser -> Prop) : Prop := {
  rf_teardown : TeardownFrame I;
  rf_resolve : forall r st, keeps I (resolve_result r st);
  rf_browser :
    forall p b b', I p b -> resultPromises b' = resultPromises b -> I p b';
}.

(** The result promise [r] is fulfilled with [result]. *)
Definition settled_as (r : PromiseId) (result : ActivityResult.t)
    (p : ActivityWindowPort.t) (b : Browser) : Prop :=
  resultPromises b !! r = Some (Fulfilled result).

(** A session in which the host asks for a 'check' shortly before the
    popup closes: the poll observes the closed popup at 500 ms. *)
Definition checkedSessionUntilObserved : list Input :=
  [WindowMessage (hostMessage "connect" JNull); Elapse 400;
   WindowMessage (hostMessage "check" JNull); WindowCloses 7; Elapse 100;
   TimerFires 3].

(** What follows: at 600 ms the delayed check of the 'check' command runs,
    and the timeout of 0 ms it sets. *)
Definition checkedSessionAfterObserved : list Input :=
  [Elapse 100; TimerFires 5; TimerFires 7].

(** The popup of [openedPort] closes unobserved and the poll is due. *)
Definition closedPopupSession : list Input := [WindowCloses 7; Elapse 500].

(** ** A host-role session that pins its client *)

(** The 'start' of the client in window 5, and a marked message of the same
    command from another origin. *)
Definition clientStart : MessageEvent.t :=
  MessageEvent.mk (Messenger.envelope "start" JNull) "https://client.example" (Some 5)
    (Some []).

Definition strangerStart : MessageEvent.t :=
  MessageEvent.mk (Messenger.envelope "start" JNull) "https://elsewhere.example" (Some 5)
    (Some []).

Definition pinningSession : list MessengerCall :=
  [DoConnect (ClientCallback 0); OnWindowEvent clientStart].

(** ** Vocabulary of the further properties *)

(** The commands [Messenger.handleCommand_] treats itself; every other
    command is the application's. *)
Definition is_protocol_command (cmd : JsValue) : bool :=
  loose_eq_str cmd "connect" || loose_eq_str cmd "start" || loose_eq_str cmd "msg"
  || loose_eq_str cmd "cnget" || loose_eq_str cmd "cnset".

(** The data of a message carries the sentinel. *)
Definition marked (data : JsValue) : bool :=
  truthy data && loose_eq_str (get_prop data "sentinel") SENTINEL.

(** The messenger after the source check of [handleEvent_], which caches
    the peer window when [requireTarget_] is set. *)
Definition after_source_check (m : Messenger.t) : Messenger.t :=
  if Messenger.requireTarget_ m then withTarget m else m.

(** The event passes the source check. *)
Definition source_accepted (event : MessageEvent.t) (m : Messenger.t) : bool :=
  negb (Messenger.requireTarget_ m)
  || Messenger.option_eqb (resolvedTarget m) (MessageEvent.source event).

(** The messenger after the two pinning steps of [handleEvent_]: an
    unknown origin is pinned by a 'start', and else by a message whose
    source is the peer window; the second step caches the peer window. *)
Definition after_pinning (event : MessageEvent.t) (m : Messenger.t) : Messenger.t :=
  let origin := MessageEvent.origin event in
  let cmd := get_prop (MessageEvent.data event) "cmd" in
  let m1 :=
    if negb (is_some (Messenger.targetOrigin_ m)) && loose_eq_str cmd "start"
    then Messenger.set_targetOrigin_ (Some origin) m else m in
  match Messenger.targetOrigin_ m1, MessageEvent.source event with
  | None, Some src =>
      if Messenger.option_eqb (resolvedTarget m1) (Some src)
      then Messenger.set_targetOrigin_ (Some origin) (withTarget m1)
      else withTarget m1
  | _, _ => m1
  end.

(** A window message that the channel take-over lets through. *)
Definition passes_channel_check (cmd : JsValue) (m : Messenger.t) : bool :=
  negb (is_some (Messenger.port_ m))
  || loose_eq_str cmd "connect" || loose_eq_str cmd "start".

(** The message is a 'start', or comes from the window the messenger
    expects its peer in. *)
Definition trusted_first (event : MessageEvent.t) (m : Messenger.t) : bool :=
  loose_eq_str (get_prop (MessageEvent.data event) "cmd") "start"
  || match MessageEvent.source event with
     | Some src => Messenger.option_eqb (resolvedTarget m) (Some src)
     | None => false
     end.

(** Two messengers that differ at most in the cached peer window and in
    the pinned origin. *)
Definition same_but_peer (m m' : Messenger.t) : Prop :=
  Messenger.win_ m' = Messenger.win_ m
  /\ Messenger.targetOrCallback_ m' = Messenger.targetOrCallback_ m
  /\ Messenger.requireTarget_ m' = Messenger.requireTarget_ m
  /\ Messenger.acceptsChannel_ m' = Messenger.acceptsChannel_ m
  /\ Messenger.port_ m' = Messenger.port_ m
  /\ Messenger.onCommand_ m' = Messenger.onCommand_ m
  /\ Messenger.onCustomMessage_ m' = Messenger.onCustomMessage_ m
  /\ Messenger.channels_ m' = Messenger.channels_ m.

(** The messenger [setupPopup_] makes for the popup window 7 of
    [sampleWindow], connected to the port's own handler. *)
Definition popupMessenger : Messenger.t :=
  Messenger.set_onCommand_ (Some PortHandleCommand)
    (Messenger.constructor sampleWindow (TargetWindow (Some 7)) None true).

(** The messenger with the holder of [key] replaced. *)
Definition with_holder (key : string) (h : ChannelHolderDef) (m : Messenger.t) : Messenger.t :=
  Messenger.set_channels_ (Some (<[key := h]> (default ∅ (Messenger.channels_ m)))) m.

(** The browser after [new Promise] made the channel promise [p]. *)
Definition with_channelPromise (p : PromiseId) (b : Browser) : Browser :=
  set_channelPromises (<[p := Pending]> (channelPromises b)) (set_nextId p b).

(** A messenger that can send: it has a dedicated port, or a peer window
    and a pinned origin. *)
Definition can_send (m : Messenger.t) : bool :=
  is_some (Messenger.port_ m)
  || (is_some (resolvedTarget m) && is_some (Messenger.targetOrigin_ m)).

(** A message that carries the ports [ports]. *)
Definition with_ports (ports : list PortId) (event : MessageEvent.t) : MessageEvent.t :=
  MessageEvent.mk (MessageEvent.data event) (MessageEvent.origin event)
    (MessageEvent.source event) (Some ports).

(** The effect posts [data] with the transferables [transfer], on either
    transport. *)
Definition post_of (data : JsValue) (transfer : option (list PortId)) (e : Effect) : Prop :=
  match e with
  | PortPostMessage _ d t | WindowPostMessage _ d _ t => d = data /\ t = transfer
  | _ => False
  end.

(** A 'cnset' for the name "x" that carries port 11, on the dedicated port. *)
Definition channelAnswer : MessageEvent.t :=
  MessageEvent.mk (Messenger.envelope "cnset" (JObj [("name", JStr "x")]))
    "https://client.example" (Some 5) (Some [11]).

(** ** Invariants that read the log of host calls *)

(** The host calls of the messenger's housekeeping: making, closing and
    installing ports, and resolving channel promises. *)
Definition internal_effect (e : Effect) : bool :=
  match e with
  | NewMessageChannel _ _ | PortClose _ | PortSetOnMessage _ | ResolveChannel _ _ => true
  | _ => false
  end.

(** Invariants of messenger and log that the housekeeping keeps; the
    methods that post, call back and register are obligations of their
    own. *)
Record LogFrame (I : Messenger.t -> Browser -> Prop) : Prop := {
  lf_browser : forall m b b', I m b -> log b' = log b -> I m b';
  lf_internal : forall m b e, internal_effect e = true -> I m b -> I m (add_log [e] b);
  lf_target : forall m b, I m b -> I (withTarget m) b;
  lf_port : forall m b x, I m b -> I (Messenger.set_port_ x m) b;
  lf_acceptsChannel : forall m b x, I m b -> I (Messenger.set_acceptsChannel_ x m) b;
  lf_onCustomMessage : forall m b x, I m b -> I (Messenger.set_onCustomMessage_ x m) b;
  lf_channels : forall m b x, I m b -> I (Messenger.set_channels_ x m) b;
  lf_pin : forall m b o, I m b -> Messenger.targetOrigin_ m = None ->
           I (Messenger.set_targetOrigin_ (Some o) m) b;
  lf_connect : forall h, keeps I (Messenger.connect h);
  lf_disconnect : keeps I Messenger.disconnect;
  lf_sendCommand : forall cmd payload transfer,
      keeps I (Messenger.sendCommand cmd payload transfer);
  lf_callOnCommand : forall cmd payload, keeps I (Messenger.callOnCommand cmd payload);
  lf_callOnCustomMessage : forall h payload, keeps I (emit (CallOnCustomMessage h payload));
}.

(** A window post is addressed to the pinned origin, or it is a 'connect'
    addressed to '*'. *)
Definition addressed_ok (pinned : option string) (e : Effect) : Prop :=
  match e with
  | WindowPostMessage _ data targetOrigin _ =>
      (get_prop data "cmd" = JStr "connect" /\ targetOrigin = "*")
      \/ pinned = Some targetOrigin
  | _ => True
  end.

(** Every window post made since the log was [l0] is well addressed. *)
Definition posts_addressed (l0 : list Effect) (m : Messenger.t) (b : Browser) : Prop :=
  exists es, log b = (l0 ++ es)%list /\ Forall (addressed_ok (Messenger.targetOrigin_ m)) es.

(** Registrations of the 'message' listener minus its removals. *)
Fixpoint registrations (es : list Effect) : Z :=
  match es with
  | [] => 0
  | AddEventListener :: rest => 1 + registrations rest
  | RemoveEventListener :: rest => registrations rest - 1
  | _ :: rest => registrations rest
  end.

Definition handler_count (m : Messenger.t) : Z :=
  if is_some (Messenger.onCommand_ m) then 1 else 0.

(** The listener is registered exactly while a command handler is set,
    counted from a state with [n0] more registrations than handlers. *)
Definition listener_balanced (n0 : Z) (m : Messenger.t) (b : Browser) : Prop :=
  registrations (log b) = (n0 + handler_count m)%Z.

(** ** Vocabulary of the port's further properties *)

(** The URL [openInternal_] opens: the activity URL, with the request in
    the fragment unless [skipRequestInUrl] is set. *)
Definition opened_url (U : Utils) (p : ActivityWindowPort.t) : string :=
  if skipRequestInUrl (ActivityWindowPort.options_ p) then ActivityWindowPort.url_ p
  else
    let returnUrl :=
      match returnUrl (ActivityWindowPort.options_ p) with
      | Some r =>
          if String.eqb r ""
          then removeFragment U (location_href (ActivityWindowPort.win_ p)) else r
      | None => removeFragment U (location_href (ActivityWindowPort.win_ p))
      end in
    addFragmentParam U (ActivityWindowPort.url_ p) "__WA__"
      (serializeRequest U
         (mkRequest (ActivityWindowPort.requestId_ p) returnUrl (ActivityWindowPort.args_ p))).

(** The target of the first [win.open]: IE gets [_top] at once. *)
Definition first_target (U : Utils) (p : ActivityWindowPort.t) : string :=
  if negb (String.eqb (ActivityWindowPort.openTarget_ p) "_top")
     && isIeBrowser U (ActivityWindowPort.win_ p)
  then "_top" else ActivityWindowPort.openTarget_ p.

(** The window a call of [win.open] yields, if any. *)
Definition opened (o : OpenOutcome) : option WindowRef :=
  match o with Opened w => Some w | _ => None end.

(** The calls of [win.open] in a list of host calls. *)
Definition window_opens (es : list Effect) : list Effect :=
  List.filter (fun e => match e with WindowOpen _ _ _ => true | _ => false end) es.

(** The messenger [setupPopup_] connects for the opened window [w]. *)
Definition popup_messenger (win : Window) (w : WindowRef) : Messenger.t :=
  Messenger.set_onCommand_ (Some PortHandleCommand)
    (Messenger.constructor win (TargetWindow (Some w)) None true).

(** The host calls of [ActivityWindowPort.disconnect], in their order. *)
Definition port_release_effects (p : ActivityWindowPort.t) : list Effect :=
  match ActivityWindowPort.truthy_handle (ActivityWindowPort.heartbeatInterval_ p) with
  | Some h => [ClearInterval h]
  | None => []
  end
  ++ match ActivityWindowPort.messenger_ p with
     | Some m => if is_some (Messenger.onCommand_ m) then disconnect_effects m else []
     | None => []
     end
  ++ match ActivityWindowPort.targetWin_ p with
     | Some w => [WindowClose w]
     | None => []
     end.

(** The timers [ActivityWindowPort.disconnect] leaves: all but the poll. *)
Definition timers_after_release (p : ActivityWindowPort.t) (ts : list Timer) : list Timer :=
  match ActivityWindowPort.truthy_handle (ActivityWindowPort.heartbeatInterval_ p) with
  | Some h => filter (fun t => timer_id t ≠ h) ts
  | None => ts
  end.

(** Two browsers that differ at most in the log and in the timers. *)
Definition same_but_log_and_timers (b b' : Browser) : Prop :=
  clock b' = clock b /\ closedWindows b' = closedWindows b
  /\ resultPromises b' = resultPromises b /\ channelPromises b' = channelPromises b
  /\ connectedPromises b' = connectedPromises b /\ nextId b' = nextId b.

(** A window in which every [open] is blocked. *)
Definition blockingWindow : Window :=
  mkWindow true "https://client.example/page" "" "" true "sample"
    (fun url target features => Blocked).

(** A port as its constructor leaves it, for the target [_blank] in the
    window [win]. *)
Definition newPort (win : Window) : ActivityWindowPort.t :=
  ActivityWindowPort.mk win "r1" "https://host.example/activity" "_blank" JNull no_options
    (Some 1) 1 (Some 2) 2 None None None.

(** The browser after that constructor ran in an empty one. *)
Definition newPortBrowser : Browser :=
  mkBrowser 0 [] [] (<[2 := Pending]> ∅) ∅ (<[1 := Pending]> ∅) 2 [].

(** The popup messenger once a 'connect' of the popup [w] from the origin
    [o] was handled: peer cached, origin pinned, the peer's
    [acceptsChannel] stored. *)
Definition connected_messenger (win : Window) (w : WindowRef) (o : string)
    (accepts : JsValue) (port : option PortId) : Messenger.t :=
  Messenger.mk win (TargetWindow (Some w)) (Some o) true (Some w) accepts port
    (Some PortHandleCommand) None None.

(** [payload && payload['acceptsChannel'] || false] *)
Definition accepts_of (payload : JsValue) : JsValue :=
  js_or (js_and payload (get_prop payload "acceptsChannel")) (JBool false).

(** A port that holds nothing any more: no resolver, no messenger, no
    popup, no poll. *)
Definition released (p : ActivityWindowPort.t) : Prop :=
  ActivityWindowPort.resultResolver_ p = None
  /\ ActivityWindowPort.messenger_ p = None
  /\ ActivityWindowPort.targetWin_ p = None
  /\ ActivityWindowPort.truthy_handle (ActivityWindowPort.heartbeatInterval_ p) = None.

(** The host call schedules the cancel closure. *)
Definition cancel_timeout (e : Effect) : Prop :=
  match e with
  | SetTimeout _ CancelResult _ => True
  | _ => False
  end.

(** Between [b] and [b'] no promise settled, and the host calls made are
    all schedulings of the cancel closure. *)
Definition only_cancel_timeouts (b b' : Browser) : Prop :=
  resultPromises b' = resultPromises b
  /\ channelPromises b' = channelPromises b
  /\ connectedPromises b' = connectedPromises b
  /\ exists es, log b' = (log b ++ es)%list /\ Forall cancel_timeout es.

(** The fragment of the page without the response parameter:
    [removeQueryParam(win.location.hash, '__WA_RES__') || ''] *)
Definition clean_fragment (U : Utils) (win : Window) : string :=
  match removeQueryParam U (location_hash win) "__WA_RES__" with
  | Some c => c
  | None => ""
  end.

(** The redirect port made of a parsed response. *)
Definition port_of_response (U : Utils) (win : Window) (response : JsValue)
    : ActivityWindowRedirectPort.t :=
  ActivityWindowRedirectPort.mk win (get_prop response "code") (get_prop response "data")
    (get_prop response "origin")
    (loose_eq_str (get_prop response "origin")
       (if String.eqb (document_referrer win) "" then ""
        else getOriginFromUrl U (document_referrer win))).

(** A 'connect' of the client in window 5 that declines channels. *)
Definition clientReconnect : MessageEvent.t :=
  MessageEvent.mk (Messenger.envelope "connect" (JObj [("acceptsChannel", JBool false)]))
    "https://client.example" (Some 5) None.

(** * Properties *)

(** ** The laws of the method monad *)

Section MonadLaws.
Context {St : Type}.

Lemma bind_this {B} (k : St -> M St B) s b : bind this k s b = k s s b.
Proof. reflexivity. Qed.

Lemma bind_ret {A B} (a : A) (k : A -> M St B) s b : bind (ret a) k s b = k a s b.
Proof. reflexivity. Qed.

Lemma bind_throw {A B} e (k : A -> M St B) s b : bind (throw e) k s b = (Throw e, s, b).
Proof. reflexivity. Qed.

Lemma bind_update {B} f (k : unit -> M St B) s b : bind (update f) k s b = k tt (f s) b.
Proof. reflexivity. Qed.

Lemma bind_update_browser {B} f (k : unit -> M St B) s b :
  bind (update_browser f) k s b = k tt s (f b).
Proof. reflexivity. Qed.

Lemma bind_browser {B} (k : Browser -> M St B) s b : bind browser k s b = k b s b.
Proof. reflexivity. Qed.

Lemma bind_emit {B} e (k : unit -> M St B) s b :
  bind (emit e) k s b = k tt s (add_log [e] b).
Proof. reflexivity. Qed.

Lemma emit_eq e (s : St) b : emit e s b = (Ret tt, s, add_log [e] b).
Proof. reflexivity. Qed.

Lemma bind_bind {A B C} (c : M St A) (k1 : A -> M St B) (k2 : B -> M St C) s b :
  bind (bind c k1) k2 s b = bind c (fun a => bind (k1 a) k2) s b.
Proof. unfold bind. destruct (c s b) as [[[a|e] s'] b']; reflexivity. Qed.

Lemma bind_if {A B} (c : bool) (x y : M St A) (k : A -> M St B) s b :
  bind (if c then x else y) k s b = if c then bind x k s b else bind y k s b.
Proof. destruct c; reflexivity. Qed.
End MonadLaws.

Ltac msimp :=
  repeat first
    [ rewrite bind_bind | rewrite bind_this | rewrite bind_ret | rewrite bind_throw
    | rewrite bind_update | rewrite bind_update_browser | rewrite bind_browser
    | rewrite bind_emit ];
  cbv beta.

Lemma add_log_nil b : add_log [] b = b.
Proof. destruct b. unfold add_log, set_log. simpl. by rewrite app_nil_r. Qed.

Lemma add_log_app es es' b : add_log es' (add_log es b) = add_log (es ++ es') b.
Proof. destruct b. unfold add_log, set_log. simpl. by rewrite app_assoc. Qed.

(** ** Rules for invariants, returned values and triples *)

Section Rules.
Context {St : Type}.
Implicit Types I P : St -> Browser -> Prop.

Lemma keeps_ret I {A} (a : A) : keeps I (ret a).
Proof. intros s b H. exact H. Qed.

Lemma keeps_throw I {A} e : keeps I (throw (A := A) e).
Proof. intros s b H. exact H. Qed.

Lemma keeps_this I : keeps I this.
Proof. intros s b H. exact H. Qed.

Lemma keeps_browser I : keeps I browser.
Proof. intros s b H. exact H. Qed.

Lemma keeps_bind I {A B} (c : M St A) (k : A -> M St B) :
  keeps I c -> (forall a, keeps I (k a)) -> keeps I (bind c k).
Proof.
  intros Hc Hk s b H. specialize (Hc s b H). unfold bind.
  destruct (c s b) as [[[a|e] s'] b']; simpl in *; [|exact Hc].
  exact (Hk a s' b' Hc).
Qed.

Lemma keeps_catch I {A} (c : M St A) h :
  keeps I c -> (forall e, keeps I (h e)) -> keeps I (catch c h).
Proof.
  intros Hc Hh s b H. specialize (Hc s b H). unfold catch.
  destruct (c s b) as [[[a|e] s'] b']; simpl in *; [exact Hc|].
  exact (Hh e s' b' Hc).
Qed.

Lemma keeps_update I f : (forall s b, I s b -> I (f s) b) -> keeps I (update f).
Proof. intros Hf s b H. exact (Hf s b H). Qed.

Lemma keeps_update_browser I f :
  (forall s b, I s b -> I s (f b)) -> keeps I (update_browser f).
Proof. intros Hf s b H. exact (Hf s b H). Qed.

Lemma returns_ret {A} (V : A -> Prop) a : V a -> returns (St := St) V (ret a).
Proof. intros H s b. exact H. Qed.

Lemma returns_throw {A} (V : A -> Prop) e : returns (St := St) V (throw e).
Proof. intros s b. exact I. Qed.

Lemma returns_bind {A B} (V : B -> Prop) (c : M St A) (k : A -> M St B) :
  (forall a, returns V (k a)) -> returns V (bind c k).
Proof.
  intros Hk s b. unfold bind.
  destruct (c s b) as [[[a|e] s'] b']; simpl; [apply Hk|exact I].
Qed.

Lemma returns_weaken {A} (V W : A -> Prop) (c : M St A) :
  returns V c -> (forall a, V a -> W a) -> returns W c.
Proof.
  intros Hc HVW s b. specialize (Hc s b).
  destruct ((c s b).1.1); auto.
Qed.

Lemma hoare_bind P {A B} (c : M St A) (k : A -> M St B) Q R E :
  hoare P c Q E -> (forall a, hoare (Q a) (k a) R E) -> hoare P (bind c k) R E.
Proof.
  intros Hc Hk s b H. specialize (Hc s b H). unfold bind.
  destruct (c s b) as [[[a|e] s'] b']; [|exact Hc].
  exact (Hk a s' b' Hc).
Qed.

Lemma hoare_conseq P P' {A} (c : M St A) Q Q' E E' :
  hoare P' c Q' E' ->
  (forall s b, P s b -> P' s b) ->
  (forall a s b, Q' a s b -> Q a s b) ->
  (forall s b, E' s b -> E s b) ->
  hoare P c Q E.
Proof.
  intros Hc HP HQ HE s b H. specialize (Hc s b (HP s b H)).
  destruct (c s b) as [[[a|e] s'] b']; auto.
Qed.

Lemma keeps_hoare I {A} (c : M St A) :
  keeps I c -> hoare I c (fun _ => I) I.
Proof.
  intros Hc s b H. specialize (Hc s b H).
  destruct (c s b) as [[[a|e] s'] b']; exact Hc.
Qed.
End Rules.

(** One step of an invariant proof: split a sequence, or case on the
    scrutinee the method branches on. *)
Ltac keeps_step :=
  lazymatch goal with
  | |- keeps _ (bind _ _) => apply keeps_bind; [|intros ?]
  | |- keeps _ (ret _) => apply keeps_ret
  | |- keeps _ (throw _) => apply keeps_throw
  | |- keeps _ this => apply keeps_this
  | |- keeps _ browser => apply keeps_browser
  | |- keeps _ (catch _ _) => apply keeps_catch; [|intros ?]
  | |- keeps _ (match ?x with _ => _ end) => destruct x
  | |- keeps _ (let 'pair _ _ := ?x in _) => destruct x
  end.

Create HintDb keeps discriminated.

Ltac keeps_auto := repeat (first [ keeps_step | solve [eauto with keeps] ]).

(** ** The messenger: closed forms of the small methods *)

Lemma set_target__same m : Messenger.set_target_ (Messenger.target_ m) m = m.
Proof. by destruct m. Qed.

Lemma getOptionalTarget__eq m b :
  Messenger.getOptionalTarget_ m b = (Ret (resolvedTarget m), withTarget m, b).
Proof.
  unfold Messenger.getOptionalTarget_, withTarget, resolvedTarget, bind, this, update, ret.
  destruct m as [w toc o rt tg ac p oc ocm ch]; simpl.
  destruct oc, tg; simpl; try reflexivity.
  destruct toc; reflexivity.
Qed.

Lemma bind_getOptionalTarget_ {B} (k : option WindowRef -> M Messenger.t B) m b :
  bind Messenger.getOptionalTarget_ k m b = k (resolvedTarget m) (withTarget m) b.
Proof. unfold bind at 1. rewrite getOptionalTarget__eq. reflexivity. Qed.

Lemma withTarget_fields m :
  Messenger.target_ (withTarget m) = resolvedTarget m
  /\ Messenger.port_ (withTarget m) = Messenger.port_ m
  /\ Messenger.targetOrigin_ (withTarget m) = Messenger.targetOrigin_ m
  /\ Messenger.onCommand_ (withTarget m) = Messenger.onCommand_ m
  /\ Messenger.requireTarget_ (withTarget m) = Messenger.requireTarget_ m
  /\ Messenger.targetOrCallback_ (withTarget m) = Messenger.targetOrCallback_ m
  /\ Messenger.channels_ (withTarget m) = Messenger.channels_ m
  /\ Messenger.onCustomMessage_ (withTarget m) = Messenger.onCustomMessage_ m
  /\ Messenger.acceptsChannel_ (withTarget m) = Messenger.acceptsChannel_ m
  /\ Messenger.win_ (withTarget m) = Messenger.win_ m.
Proof. by destruct m. Qed.

Lemma resolvedTarget_withTarget m : resolvedTarget (withTarget m) = resolvedTarget m.
Proof.
  destruct m as [w toc o rt tg ac p oc ocm ch].
  unfold withTarget, resolvedTarget; simpl.
  destruct oc, tg; simpl; try reflexivity.
  destruct toc; simpl; [destruct w0|destruct (f tt)]; reflexivity.
Qed.

Lemma withTarget_idem m : withTarget (withTarget m) = withTarget m.
Proof.
  unfold withTarget at 1. rewrite resolvedTarget_withTarget.
  destruct m; reflexivity.
Qed.

(** The source check that opens [handleEvent_]. *)
Lemma bind_source_check {B} (src : option WindowRef) (k : bool -> M Messenger.t B) m b :
  bind (if Messenger.requireTarget_ m
        then (let* target := Messenger.getOptionalTarget_ in
              ret (negb (Messenger.option_eqb target src)))
        else ret false) k m b =
  k (Messenger.requireTarget_ m && negb (Messenger.option_eqb (resolvedTarget m) src))
    (if Messenger.requireTarget_ m then withTarget m else m) b.
Proof.
  destruct (Messenger.requireTarget_ m); [|reflexivity].
  unfold bind. rewrite getOptionalTarget__eq. reflexivity.
Qed.

(** ** The messenger keeps every framed invariant *)

Lemma same_outside_messenger_refl b : same_outside_messenger b b.
Proof. by repeat split. Qed.

Section MessengerKeeps.
Context (I : Messenger.t -> Browser -> Prop) (F : MessengerFrame I).

Lemma keeps_emit e : keeps I (emit e).
Proof. intros m b H. simpl. eapply mf_browser; eauto. by repeat split. Qed.

Lemma keeps_fresh : keeps I fresh.
Proof. intros m b H. simpl. eapply mf_browser; eauto. by repeat split. Qed.

Lemma keeps_browser_channel f :
  keeps I (update_browser (fun b => set_channelPromises (f b) b)).
Proof. intros m b H. simpl. eapply mf_browser; eauto. by repeat split. Qed.

Hint Resolve keeps_emit keeps_fresh keeps_browser_channel : keeps.

Lemma keeps_new_channelPromise : keeps I new_channelPromise.
Proof. unfold new_channelPromise. keeps_auto. Qed.

Lemma keeps_resolve_channel p port : keeps I (resolve_channel p port).
Proof. unfold resolve_channel. keeps_auto. Qed.

Lemma keeps_new_MessageChannel : keeps I new_MessageChannel.
Proof. unfold new_MessageChannel. keeps_auto. Qed.

Lemma keeps_closePort p : keeps I (closePort p).
Proof. unfold closePort. keeps_auto. Qed.

Lemma keeps_set_port_ x : keeps I (update (Messenger.set_port_ x)).
Proof. apply keeps_update. intros. by apply mf_port. Qed.

Lemma keeps_set_acceptsChannel_ x : keeps I (update (Messenger.set_acceptsChannel_ x)).
Proof. apply keeps_update. intros. by apply mf_acceptsChannel. Qed.

Lemma keeps_set_onCommand_ x : keeps I (update (Messenger.set_onCommand_ x)).
Proof. apply keeps_update. intros. by apply mf_onCommand. Qed.

Lemma keeps_set_onCustomMessage_ x : keeps I (update (Messenger.set_onCustomMessage_ x)).
Proof. apply keeps_update. intros. by apply mf_onCustomMessage. Qed.

Lemma keeps_set_channels_ x : keeps I (update (Messenger.set_channels_ x)).
Proof. apply keeps_update. intros. by apply mf_channels. Qed.

Lemma keeps_getOptionalTarget_ : keeps I Messenger.getOptionalTarget_.
Proof. intros m b H. rewrite getOptionalTarget__eq. simpl. by apply mf_target. Qed.

Hint Resolve keeps_new_channelPromise keeps_resolve_channel keeps_new_MessageChannel
  keeps_closePort keeps_set_port_ keeps_set_acceptsChannel_ keeps_set_onCommand_
  keeps_set_onCustomMessage_ keeps_set_channels_ keeps_getOptionalTarget_ : keeps.

Lemma keeps_connect h : keeps I (Messenger.connect h).
Proof. unfold Messenger.connect. keeps_auto. Qed.

Lemma keeps_closeChannel h : keeps I (Messenger.closeChannel h).
Proof. unfold Messenger.closeChannel. keeps_auto. Qed.

Lemma keeps_closeChannels l : keeps I (Messenger.closeChannels l).
Proof.
  induction l as [|[k h] l IH]; simpl; [apply keeps_ret|].
  apply keeps_bind; [apply keeps_closeChannel|intros _; exact IH].
Qed.

Hint Resolve keeps_closeChannels : keeps.

Lemma keeps_disconnect : keeps I Messenger.disconnect.
Proof. unfold Messenger.disconnect. keeps_auto. Qed.

Lemma keeps_isConnected : keeps I Messenger.isConnected.
Proof. unfold Messenger.isConnected. keeps_auto. Qed.

Lemma keeps_getTarget : keeps I Messenger.getTarget.
Proof. unfold Messenger.getTarget. keeps_auto. Qed.

Lemma keeps_getTargetOrigin : keeps I Messenger.getTargetOrigin.
Proof. unfold Messenger.getTargetOrigin. keeps_auto. Qed.

Hint Resolve keeps_getTarget keeps_getTargetOrigin : keeps.

Lemma keeps_sendCommand cmd payload transfer :
  keeps I (Messenger.sendCommand cmd payload transfer).
Proof. unfold Messenger.sendCommand. keeps_auto. Qed.

Hint Resolve keeps_sendCommand : keeps.

Lemma keeps_sendConnectCommand U : keeps I (Messenger.sendConnectCommand U).
Proof. unfold Messenger.sendConnectCommand. keeps_auto. Qed.

Lemma keeps_switchToChannel_ p : keeps I (Messenger.switchToChannel_ p).
Proof. unfold Messenger.switchToChannel_. keeps_auto. Qed.

Hint Resolve keeps_switchToChannel_ : keeps.

Lemma keeps_sendStartCommand args : keeps I (Messenger.sendStartCommand args).
Proof. unfold Messenger.sendStartCommand. keeps_auto. Qed.

Lemma keeps_customMessage payload : keeps I (Messenger.customMessage payload).
Proof. unfold Messenger.customMessage. keeps_auto. Qed.

Lemma keeps_onCustomMessage h : keeps I (Messenger.onCustomMessage h).
Proof. unfold Messenger.onCustomMessage. keeps_auto. Qed.

Lemma keeps_getChannelObj_ name : keeps I (Messenger.getChannelObj_ name).
Proof. unfold Messenger.getChannelObj_. keeps_auto. Qed.

Lemma keeps_setChannelObj key h : keeps I (Messenger.setChannelObj key h).
Proof. unfold Messenger.setChannelObj. apply keeps_update. intros. by apply mf_channels. Qed.

Hint Resolve keeps_getChannelObj_ keeps_setChannelObj : keeps.

Lemma keeps_startChannel name : keeps I (Messenger.startChannel name).
Proof. unfold Messenger.startChannel. keeps_auto. Qed.

Lemma keeps_askChannel name : keeps I (Messenger.askChannel name).
Proof. unfold Messenger.askChannel. keeps_auto. Qed.

Lemma keeps_receiveChannel_ name port : keeps I (Messenger.receiveChannel_ name port).
Proof. unfold Messenger.receiveChannel_. keeps_auto. Qed.

Lemma keeps_callOnCommand cmd payload : keeps I (Messenger.callOnCommand cmd payload).
Proof. unfold Messenger.callOnCommand. keeps_auto. Qed.

Lemma keeps_payload_name payload : keeps I (Messenger.payload_name payload).
Proof. unfold Messenger.payload_name. keeps_auto. Qed.

Hint Resolve keeps_startChannel keeps_receiveChannel_ keeps_callOnCommand
  keeps_payload_name : keeps.

Lemma keeps_handleCommand_ cmd payload event :
  keeps I (Messenger.handleCommand_ cmd payload event).
Proof. unfold Messenger.handleCommand_. keeps_auto. Qed.

Hint Resolve keeps_handleCommand_ : keeps.

Lemma keeps_portOnMessage event : keeps I (Messenger.portOnMessage event).
Proof. unfold Messenger.portOnMessage. cbv zeta. keeps_auto. Qed.

Lemma keeps_apply {St A} (J : St -> Browser -> Prop) (c : M St A) s b :
  keeps J c -> J s b -> J (c s b).1.2 (c s b).2.
Proof. intros Hc H. exact (Hc s b H). Qed.

(** The second pinning step of [handleEvent_], where the event's source
    is the expected peer, and what follows it. *)
Lemma keeps_pin_by_source {A} event (rest : M Messenger.t A) :
  PinFrame I ->
  keeps I rest ->
  keeps I
    (let* m := this in
     match Messenger.targetOrigin_ m, MessageEvent.source event with
     | None, Some src =>
         let* target := Messenger.getOptionalTarget_ in
         if Messenger.option_eqb target (Some src)
         then update (Messenger.set_targetOrigin_ (Some (MessageEvent.origin event)))
         else ret tt
     | _, _ => ret tt
     end;;
     rest).
Proof.
  intros HP Hrest m b H. rewrite bind_this.
  destruct (Messenger.targetOrigin_ m) eqn:E; [exact (Hrest m b H)|].
  destruct (MessageEvent.source event); [|exact (Hrest m b H)].
  rewrite bind_bind, bind_getOptionalTarget_.
  destruct (Messenger.option_eqb _ _).
  - rewrite bind_update. apply Hrest. apply HP; [by apply mf_target|].
    destruct (withTarget_fields m) as (_ & _ & -> & _). exact E.
  - rewrite bind_ret. apply Hrest. by apply mf_target.
Qed.

Lemma keeps_handleEvent_ event : PinFrame I -> keeps I (Messenger.handleEvent_ event).
Proof.
  intros HP. unfold Messenger.handleEvent_.
  apply keeps_bind; [apply keeps_this|intros m0].
  apply keeps_bind; [keeps_auto|intros mismatch].
  destruct mismatch; [apply keeps_ret|].
  destruct (_ || _); [apply keeps_ret|].
  intros m b H. rewrite bind_this.
  destruct (_ && _); [exact H|].
  match goal with
  | |- context [bind _ (fun _ => ?k)] =>
      assert (Htail : keeps I k)
        by (apply keeps_pin_by_source; [exact HP|keeps_auto])
  end.
  destruct (Messenger.targetOrigin_ m) eqn:E; simpl andb; cbv iota.
  - rewrite bind_ret. exact (Htail m b H).
  - destruct (loose_eq_str _ "start").
    + rewrite bind_update. apply Htail. by apply HP.
    + rewrite bind_ret. exact (Htail m b H).
Qed.
End MessengerKeeps.

(** ** The port keeps every framed invariant through its messenger and its
    teardown *)

Lemma same_outside_messenger_trans b1 b2 b3 :
  same_outside_messenger b1 b2 -> same_outside_messenger b2 b3 ->
  same_outside_messenger b1 b3.
Proof. unfold same_outside_messenger. intuition congruence. Qed.

Lemma outside_messenger_frame b0 : MessengerFrame (outside_messenger b0).
Proof.
  split; unfold outside_messenger; try (intros; assumption).
  intros m b b' H H'. by apply (same_outside_messenger_trans _ b).
Qed.

Lemma outside_messenger_pin b0 : PinFrame (outside_messenger b0).
Proof. intros m b o H _. exact H. Qed.

Lemma port_eta p : ActivityWindowPort.set_messenger_ (ActivityWindowPort.messenger_ p) p = p.
Proof. by destruct p. Qed.

Lemma bind_onMessenger {A B} (c : M Messenger.t A) (k : A -> M ActivityWindowPort.t B) p b m :
  ActivityWindowPort.messenger_ p = Some m ->
  bind (ActivityWindowPort.onMessenger c) k p b =
  match c m b with
  | (Ret a, m', b') => k a (ActivityWindowPort.set_messenger_ (Some m') p) b'
  | (Throw e, m', b') => (Throw e, ActivityWindowPort.set_messenger_ (Some m') p, b')
  end.
Proof.
  intros H. unfold bind, ActivityWindowPort.onMessenger. rewrite H.
  destruct (c m b) as [[[a|e] m'] b']; reflexivity.
Qed.

Section PortKeeps.
Context (I : ActivityWindowPort.t -> Browser -> Prop).

Lemma keeps_onMessenger {A} (c : M Messenger.t A) :
  PortFrame I ->
  (forall b0, keeps (outside_messenger b0) c) ->
  keeps I (ActivityWindowPort.onMessenger c).
Proof.
  intros F Hc p b H. unfold ActivityWindowPort.onMessenger.
  destruct (ActivityWindowPort.messenger_ p) as [m|] eqn:E; [|exact H].
  specialize (Hc b m b (same_outside_messenger_refl b)).
  destruct (c m b) as [[r m'] b']; simpl in *.
  apply (pf_browser I F _ b); [|exact Hc]. by apply pf_messenger.
Qed.

Lemma keeps_port_emit e : PortFrame I -> keeps I (emit e).
Proof. intros F p b H. simpl. eapply pf_browser; eauto. by repeat split. Qed.

Lemma keeps_port_clearInterval id : TeardownFrame I -> keeps I (clearInterval id).
Proof.
  intros F. unfold clearInterval.
  apply keeps_bind; [apply keeps_port_emit, F|intros _].
  apply keeps_update_browser. intros. by apply tf_clearInterval.
Qed.

Lemma keeps_port_disconnect : TeardownFrame I -> keeps I ActivityWindowPort.disconnect.
Proof.
  intros F. unfold ActivityWindowPort.disconnect.
  apply keeps_bind; [apply keeps_this|intros p].
  apply keeps_bind.
  { destruct (ActivityWindowPort.truthy_handle _); [|apply keeps_ret].
    apply keeps_bind; [by apply keeps_port_clearInterval|intros _].
    apply keeps_update. intros. by apply tf_heartbeatInterval. }
  intros _. apply keeps_bind.
  { destruct (ActivityWindowPort.messenger_ p); [|apply keeps_ret].
    apply keeps_bind.
    - apply keeps_onMessenger; [apply F|]. intros b0.
      apply keeps_disconnect, outside_messenger_frame.
    - intros _. apply keeps_update. intros. by apply tf_messenger. }
  intros _. apply keeps_bind.
  { destruct (ActivityWindowPort.targetWin_ p); [|apply keeps_ret].
    apply keeps_bind; [apply keeps_port_emit, F|intros _].
    apply keeps_update. intros. by apply tf_targetWin. }
  intros _. apply keeps_update. intros. by apply tf_resultResolver.
Qed.
End PortKeeps.

Ltac port_frame :=
  repeat split; intros;
  repeat match goal with p : ActivityWindowPort.t |- _ => destruct p end;
  repeat match goal with b : Browser |- _ => destruct b end;
  unfold same_outside_messenger in *; simpl in *; intuition (subst; auto).

(** ** Disconnecting (C9) *)

Lemma closeChannel_eq h m b :
  Messenger.closeChannel h m b =
  (Ret tt, m,
   add_log (match port1 h with Some p => [PortClose p] | None => [] end
            ++ match port2 h with Some p => [PortClose p] | None => [] end) b).
Proof.
  unfold Messenger.closeChannel, closePort.
  destruct (port1 h), (port2 h); simpl;
    rewrite ?bind_emit, ?bind_ret, ?emit_eq, ?add_log_app, ?add_log_nil; reflexivity.
Qed.

Lemma closeChannels_eq l m b :
  Messenger.closeChannels l m b = (Ret tt, m, add_log (channel_closes l) b).
Proof.
  revert b. induction l as [|[k h] l IH]; intros b; simpl.
  - by rewrite add_log_nil.
  - unfold bind. rewrite closeChannel_eq, IH, add_log_app, <- app_assoc. reflexivity.
Qed.

Lemma disconnect_eq m b :
  Messenger.disconnect m b =
  match Messenger.onCommand_ m with
  | None => (Ret tt, m, b)
  | Some _ => (Ret tt, disconnected m, add_log (disconnect_effects m) b)
  end.
Proof.
  unfold Messenger.disconnect, disconnect_effects, disconnected, closePort.
  rewrite bind_this. destruct m as [w toc o rt tg ac p oc ocm ch]; simpl.
  destruct oc; [|reflexivity].
  destruct p, ch; msimp; simpl;
    try (unfold bind; rewrite closeChannels_eq);
    simpl; rewrite ?add_log_app; reflexivity.
Qed.

Lemma port_disconnect_eq p b :
  exists b', ActivityWindowPort.disconnect p b = (Ret tt, disconnected_port p, b').
Proof.
  unfold ActivityWindowPort.disconnect, disconnected_port, clearInterval.
  rewrite bind_this.
  destruct p as [w rid url ot args opts cr cp rr rp tw hb ms]; simpl.
  destruct (ActivityWindowPort.truthy_handle hb) as [h|] eqn:Eh.
  all: destruct ms as [m|].
  all: destruct tw.
  all: msimp.
  all: try (erewrite bind_onMessenger by reflexivity; rewrite disconnect_eq;
            destruct (Messenger.onCommand_ m); msimp).
  all: simpl; eexists; reflexivity.
Qed.

Lemma port_disconnect_again p b :
  ActivityWindowPort.disconnect (disconnected_port p) b = (Ret tt, disconnected_port p, b).
Proof.
  unfold ActivityWindowPort.disconnect, disconnected_port.
  rewrite bind_this.
  destruct p as [w rid url ot args opts cr cp rr rp tw hb ms]; simpl.
  destruct hb as [[|h]|]; reflexivity.
Qed.

(** C9. [disconnect] is idempotent, on a messenger and on a port: the
    first call returns without an error, and a second call (or a call on a
    state that is already disconnected) returns without an error, leaves the
    receiver as it is and makes no call into the browser at all, so that
    nothing is released a second time: the browser, with its log of
    releases, its timers and its promises, is unchanged. *)
Theorem disconnect_idempotent :
  (forall (m : Messenger.t) (b : Browser),
     let first := Messenger.disconnect m b in
     first.1.1 = Ret tt
     /\ Messenger.disconnect first.1.2 first.2 = (Ret tt, first.1.2, first.2))
  /\ (forall (m : Messenger.t) (b : Browser),
        Messenger.onCommand_ m = None -> Messenger.disconnect m b = (Ret tt, m, b))
  /\ (forall (p : ActivityWindowPort.t) (b : Browser),
        let first := ActivityWindowPort.disconnect p b in
        first.1.1 = Ret tt
        /\ ActivityWindowPort.disconnect first.1.2 first.2 = (Ret tt, first.1.2, first.2))
  /\ (forall (p : ActivityWindowPort.t) (b : Browser),
        ActivityWindowPort.truthy_handle (ActivityWindowPort.heartbeatInterval_ p) = None ->
        ActivityWindowPort.messenger_ p = None ->
        ActivityWindowPort.targetWin_ p = None ->
        ActivityWindowPort.resultResolver_ p = None ->
        ActivityWindowPort.disconnect p b = (Ret tt, p, b)).
Proof.
  split; [|split; [|split]].
  - intros m b. cbv zeta. rewrite disconnect_eq.
    destruct (Messenger.onCommand_ m) eqn:E; simpl.
    + split; [reflexivity|]. rewrite disconnect_eq. reflexivity.
    + split; [reflexivity|]. rewrite disconnect_eq, E. reflexivity.
  - intros m b H. by rewrite disconnect_eq, H.
  - intros p b. cbv zeta. destruct (port_disconnect_eq p b) as [b' ->]. simpl.
    split; [reflexivity|]. apply port_disconnect_again.
  - intros p b Hh Hm Hw Hr.
    destruct p as [w rid url ot args opts cr cp rr rp tw hb ms]; simpl in *. subst.
    unfold ActivityWindowPort.disconnect. rewrite bind_this. simpl. rewrite Hh.
    reflexivity.
Qed.

(** ** Origin pinning (C4) *)

Lemma peer_settled_frame : MessengerFrame peer_settled_inv.
Proof.
  split; unfold peer_settled_inv, peer_settled;
    [intros m b b' H _; exact H| |intros [] ? ? H; exact H..].
  - intros m b H Hrt Htg.
    destruct (withTarget_fields m) as (Ht & _ & _ & _ & Hr & Hc & _).
    rewrite Hc. rewrite Hr in Hrt. rewrite Ht in Htg.
    unfold resolvedTarget, peer_of in *.
    destruct (Messenger.onCommand_ m), (Messenger.target_ m) eqn:E; try discriminate; auto.
Qed.

Lemma peer_settled_pin : PinFrame peer_settled_inv.
Proof. intros [] b o; unfold peer_settled_inv, peer_settled; simpl; tauto. Qed.

Lemma session_inv_frame : MessengerFrame session_inv.
Proof.
  split; unfold session_inv, peer_settled;
    [intros m b b' H _; exact H| |intros [] ? ? H; exact H..].
  - intros m b H Ho Hrt Htg.
    destruct (withTarget_fields m) as (Ht & _ & Hor & _ & Hr & Hc & _).
    rewrite Hc. rewrite Hr in Hrt. rewrite Ht in Htg. rewrite Hor in Ho.
    specialize (H Ho Hrt).
    unfold resolvedTarget, peer_of in *.
    destruct (Messenger.onCommand_ m), (Messenger.target_ m) eqn:E; try discriminate; auto.
Qed.

Lemma pinned_at_frame o : MessengerFrame (pinned_at o).
Proof.
  split; unfold pinned_at;
    [intros m b b' H _; exact H|intros [] ? H; exact H|intros [] ? ? H; exact H..].
Qed.

Lemma pinned_at_pin o : PinFrame (pinned_at o).
Proof. intros m b o' H H'. unfold pinned_at in *. congruence. Qed.

(** With the source check on, [handleEvent_] starts by caching the peer;
    starting from the cached state is the same. *)
Lemma handleEvent__withTarget event m b :
  Messenger.requireTarget_ m = true ->
  Messenger.handleEvent_ event m b = Messenger.handleEvent_ event (withTarget m) b.
Proof.
  intros Hrt. unfold Messenger.handleEvent_. rewrite !bind_this, !bind_source_check.
  destruct (withTarget_fields m) as (_ & _ & _ & _ & Hr & _).
  rewrite Hr, Hrt.
  rewrite resolvedTarget_withTarget, withTarget_idem. reflexivity.
Qed.

Lemma withTarget_settled m :
  Messenger.onCommand_ m <> None -> peer_settled (withTarget m).
Proof.
  intros Hoc Hrt Htg.
  destruct (withTarget_fields m) as (Ht & _ & _ & _ & _ & Hc & _).
  rewrite Hc. rewrite Ht in Htg. unfold resolvedTarget, peer_of in *.
  destruct (Messenger.onCommand_ m); [|congruence].
  destruct (Messenger.target_ m); [discriminate|exact Htg].
Qed.

Lemma session_inv_handleEvent_ event m b :
  Messenger.onCommand_ m <> None ->
  session_inv m b ->
  session_inv (Messenger.handleEvent_ event m b).1.2 (Messenger.handleEvent_ event m b).2.
Proof.
  intros Hoc H.
  assert (Hweak : forall m' b', peer_settled_inv m' b' -> session_inv m' b')
    by (unfold session_inv, peer_settled_inv; auto).
  destruct (Messenger.requireTarget_ m) eqn:Hrt.
  - rewrite handleEvent__withTarget by exact Hrt.
    apply Hweak, (keeps_handleEvent_ _ peer_settled_frame event peer_settled_pin).
    by apply withTarget_settled.
  - apply Hweak, (keeps_handleEvent_ _ peer_settled_frame event peer_settled_pin).
    intros Hrt'. congruence.
Qed.

Lemma keeps_seq_ret {St A} (I : St -> Browser -> Prop) (c : M St A) :
  keeps I c -> keeps I (c;; ret tt).
Proof. intros H. apply keeps_bind; [exact H|intros _; apply keeps_ret]. Qed.

(** Every call of a session keeps a framed invariant that survives
    pinning. *)
Lemma keeps_perform I U c :
  MessengerFrame I -> PinFrame I -> keeps I (perform U c).
Proof.
  intros F HP. destruct c; simpl;
    try apply keeps_seq_ret;
    eauto using keeps_connect, keeps_disconnect, keeps_isConnected, keeps_getTarget,
      keeps_getTargetOrigin, keeps_sendConnectCommand, keeps_sendStartCommand,
      keeps_sendCommand, keeps_customMessage, keeps_onCustomMessage,
      keeps_startChannel, keeps_askChannel.
  - apply keeps_bind; [apply keeps_this|intros m].
    destruct (Messenger.onCommand_ m); [|apply keeps_ret].
    apply keeps_seq_ret. by apply keeps_handleEvent_.
  - apply keeps_bind; [apply keeps_this|intros m].
    destruct (Messenger.port_ m); [|apply keeps_ret].
    apply keeps_seq_ret. by apply keeps_portOnMessage.
Qed.

Lemma session_inv_perform U c : keeps session_inv (perform U c).
Proof.
  pose proof session_inv_frame as F.
  destruct c; simpl;
    try apply keeps_seq_ret;
    eauto using keeps_connect, keeps_disconnect, keeps_isConnected, keeps_getTarget,
      keeps_getTargetOrigin, keeps_sendConnectCommand, keeps_sendStartCommand,
      keeps_sendCommand, keeps_customMessage, keeps_onCustomMessage,
      keeps_startChannel, keeps_askChannel.
  - intros m b H. rewrite bind_this.
    destruct (Messenger.onCommand_ m) eqn:Hoc; [|exact H].
    pose proof (session_inv_handleEvent_ event m b) as Hev.
    rewrite Hoc in Hev. specialize (Hev ltac:(discriminate) H).
    unfold bind. destruct (Messenger.handleEvent_ event m b) as [[[d|e] m'] b']; exact Hev.
  - apply keeps_bind; [apply keeps_this|intros m].
    destruct (Messenger.port_ m); [|apply keeps_ret].
    apply keeps_seq_ret. by apply keeps_portOnMessage.
Qed.

Lemma session_keeps I U calls mb :
  (forall c, keeps I (perform U c)) ->
  I mb.1 mb.2 -> I (session U calls mb).1 (session U calls mb).2.
Proof.
  intros Hk. revert mb. induction calls as [|c calls IH]; intros mb H; [exact H|].
  simpl. apply IH. unfold session_step; simpl. by apply Hk.
Qed.

(** An inbound message from another origin than the pinned one is dropped
    before [handleCommand_]: nothing is logged, and at most the peer
    reference is cached. *)
Lemma handleEvent__other_origin event m b o :
  Messenger.targetOrigin_ m = Some o ->
  MessageEvent.origin event <> o ->
  Messenger.handleEvent_ event m b =
  (Ret NoCall, if Messenger.requireTarget_ m then withTarget m else m, b).
Proof.
  intros Ho Hne. unfold Messenger.handleEvent_. rewrite bind_this.
  assert (Hstep : forall m1, Messenger.targetOrigin_ m1 = Some o ->
    forall mismatch : bool,
    (if mismatch then ret NoCall
     else if negb (truthy (MessageEvent.data event))
             || negb (loose_eq_str (get_prop (MessageEvent.data event) "sentinel") SENTINEL)
     then ret NoCall
     else
       let* m := this in
       if match Messenger.port_ m with Some _ => true | None => false end
          && negb (loose_eq_str (get_prop (MessageEvent.data event) "cmd") "connect")
          && negb (loose_eq_str (get_prop (MessageEvent.data event) "cmd") "start")
       then ret NoCall
       else
         (if match Messenger.targetOrigin_ m with None => true | Some _ => false end
             && loose_eq_str (get_prop (MessageEvent.data event) "cmd") "start"
          then update (Messenger.set_targetOrigin_ (Some (MessageEvent.origin event)))
          else ret tt);;
         let* m := this in
         match Messenger.targetOrigin_ m, MessageEvent.source event with
         | None, Some src =>
             let* target := Messenger.getOptionalTarget_ in
             if Messenger.option_eqb target (Some src)
             then update (Messenger.set_targetOrigin_ (Some (MessageEvent.origin event)))
             else ret tt
         | _, _ => ret tt
         end;;
         let* m := this in
         if match Messenger.targetOrigin_ m with
            | Some o => negb (String.eqb (MessageEvent.origin event) o)
            | None => true
            end
         then ret NoCall
         else Messenger.handleCommand_ (get_prop (MessageEvent.data event) "cmd")
                (js_or (get_prop (MessageEvent.data event) "payload") JNull) event)
      m1 b = (Ret NoCall, m1, b)).
  { intros m1 Ho1 mismatch. destruct mismatch; [reflexivity|].
    destruct (_ || _); [reflexivity|].
    rewrite bind_this. destruct (_ && _); [reflexivity|].
    rewrite Ho1. simpl andb. cbv iota. rewrite bind_ret, bind_this, Ho1.
    rewrite bind_ret, bind_this, Ho1.
    apply String.eqb_neq in Hne. rewrite Hne. reflexivity. }
  rewrite bind_source_check. apply Hstep.
  destruct (Messenger.requireTarget_ m); [|exact Ho].
  destruct (withTarget_fields m) as (_ & _ & -> & _). exact Ho.
Qed.

Lemma withTarget_id m b :
  Messenger.targetOrigin_ m <> None -> session_inv m b ->
  Messenger.requireTarget_ m = true -> withTarget m = m.
Proof.
  intros Ho H Hrt. specialize (H Ho Hrt).
  unfold withTarget. replace (resolvedTarget m) with (Messenger.target_ m);
    [apply set_target__same|].
  unfold resolvedTarget, peer_of in *.
  destruct (Messenger.onCommand_ m); [|reflexivity].
  destruct (Messenger.target_ m) eqn:E; [reflexivity|].
  symmetry. by apply H.
Qed.

(** C4. In a session that starts with the peer origin unknown, once the
    origin is pinned at [o] it stays [o] through every later call and
    event, and every later inbound broadcast message from another origin
    is discarded by [handleEvent_]: the command handler is not reached
    ([NoCall]), nothing is logged, and the messenger and the browser are
    exactly as before, the pinned origin included. *)
Theorem pinned_origin_discards_other_origins
    (U : Utils) (win : Window) (toc : TargetOrCallback) (requireTarget : bool)
    (b0 : Browser) (before after : list MessengerCall) (o : string) :
  let start := (Messenger.constructor win toc None requireTarget, b0) in
  let pinned := session U before start in
  let later := session U after pinned in
  Messenger.targetOrigin_ pinned.1 = Some o ->
  Messenger.targetOrigin_ later.1 = Some o
  /\ forall event, MessageEvent.origin event <> o ->
       Messenger.handleEvent_ event later.1 later.2 = (Ret NoCall, later.1, later.2)
       /\ Messenger.targetOrigin_ (Messenger.handleEvent_ event later.1 later.2).1.2 = Some o.
Proof.
  intros start pinned later Hpin.
  assert (Hinv : session_inv later.1 later.2).
  { apply session_keeps; [apply session_inv_perform|].
    apply session_keeps; [apply session_inv_perform|].
    intros Ho. simpl in Ho. congruence. }
  assert (Ho : Messenger.targetOrigin_ later.1 = Some o).
  { apply (session_keeps (pinned_at o) U after pinned); [|exact Hpin].
    intros c. apply keeps_perform; [apply pinned_at_frame|apply pinned_at_pin]. }
  split; [exact Ho|]. intros event Hne.
  rewrite (handleEvent__other_origin event _ _ o Ho Hne).
  destruct (Messenger.requireTarget_ later.1) eqn:Hrt; simpl; [|auto].
  rewrite (withTarget_id _ later.2); auto. congruence.
Qed.

Lemma pinned_origin_witness :
  let start :=
    (Messenger.constructor sampleWindow (TargetWindow (Some 5)) None false, emptyBrowser) in
  let pinned := session sampleUtils pinningSession start in
  Messenger.targetOrigin_ pinned.1 = Some "https://client.example"
  /\ Messenger.handleEvent_ strangerStart pinned.1 pinned.2
     = (Ret NoCall, pinned.1, pinned.2).
Proof.
  cbv zeta. split; [reflexivity|].
  apply (pinned_origin_discards_other_origins sampleUtils sampleWindow
           (TargetWindow (Some 5)) false emptyBrowser pinningSession []
           "https://client.example" eq_refl).
  discriminate.
Defined.

(** ** The result value (C8) *)

(** C8. An [ActivityResult] built from any arguments has [ok] exactly when
    the code is OK, has non-null [data] only when the code is OK (the
    stored data is [null] otherwise, in particular for CANCELED and
    FAILED), and has an [error], a constructed [Error], exactly when the
    code is FAILED and [null] otherwise. *)
Theorem ActivityResult_invariant
    (code data : JsValue) (mode : ActivityMode) (origin : JsValue)
    (originVerified secureChannel : bool) :
  let r := ActivityResult.constructor code data mode origin originVerified secureChannel in
  ActivityResult.ok r = loose_eq_str code ActivityResultCode.OK
  /\ (ActivityResult.data r <> JNull -> loose_eq_str code ActivityResultCode.OK = true)
  /\ (loose_eq_str code ActivityResultCode.OK = false -> ActivityResult.data r = JNull)
  /\ (loose_eq_str code ActivityResultCode.FAILED = true <->
      exists message, ActivityResult.error r = Some (new_Error message))
  /\ (loose_eq_str code ActivityResultCode.FAILED = false <-> ActivityResult.error r = None)
  /\ (code = JStr ActivityResultCode.OK ->
      ActivityResult.ok r = true /\ ActivityResult.data r = data
      /\ ActivityResult.error r = None)
  /\ (code = JStr ActivityResultCode.CANCELED ->
      ActivityResult.ok r = false /\ ActivityResult.data r = JNull
      /\ ActivityResult.error r = None)
  /\ (code = JStr ActivityResultCode.FAILED ->
      ActivityResult.ok r = false /\ ActivityResult.data r = JNull
      /\ exists message, ActivityResult.error r = Some (new_Error message)).
Proof.
  cbv zeta. unfold ActivityResult.constructor.
  cbn [ActivityResult.ok ActivityResult.data ActivityResult.error].
  repeat apply conj; try (intros ->; cbn; eauto; fail).
  - reflexivity.
  - intros H. destruct (loose_eq_str code ActivityResultCode.OK); congruence.
  - intros [msg H]. destruct (loose_eq_str code ActivityResultCode.FAILED); congruence.
  - intros H. destruct (loose_eq_str code ActivityResultCode.FAILED); congruence.
Qed.

(** ** Routing of sent commands (C7) *)

Lemma sendCommand_port cmd payload transfer m b p :
  Messenger.port_ m = Some p ->
  Messenger.sendCommand cmd payload transfer m b =
  (Ret tt, m, add_log [PortPostMessage p (Messenger.envelope cmd payload) transfer] b).
Proof.
  intros H. unfold Messenger.sendCommand. cbv zeta. rewrite bind_this, H. reflexivity.
Qed.

Lemma sendCommand_window cmd payload transfer m b :
  Messenger.port_ m = None ->
  Messenger.sendCommand cmd payload transfer m b =
  match resolvedTarget m with
  | None => (Throw (new_Error "not connected"), withTarget m, b)
  | Some w =>
      match Messenger.targetOrigin_ m with
      | Some o =>
          (Ret tt, withTarget m,
           add_log [WindowPostMessage w (Messenger.envelope cmd payload) o transfer] b)
      | None =>
          if String.eqb cmd "connect"
          then (Ret tt, withTarget m,
                add_log [WindowPostMessage w (Messenger.envelope cmd payload) "*" transfer] b)
          else (Throw (new_Error "not connected"), withTarget m, b)
      end
  end.
Proof.
  intros H. unfold Messenger.sendCommand, Messenger.getTarget, Messenger.getTargetOrigin.
  cbv zeta. rewrite bind_this, H. rewrite bind_bind, bind_getOptionalTarget_.
  destruct (withTarget_fields m) as (_ & _ & Ho & _).
  destruct (resolvedTarget m) as [w|]; [|reflexivity].
  rewrite bind_ret. destruct (String.eqb cmd "connect").
  - rewrite bind_bind, bind_this, bind_ret, Ho.
    destruct (Messenger.targetOrigin_ m); reflexivity.
  - rewrite bind_bind, bind_this, Ho.
    destruct (Messenger.targetOrigin_ m); reflexivity.
Qed.

(** C7. [sendCommand] posts the envelope on the dedicated port when one is
    installed. Otherwise it posts it to the peer window at the pinned
    origin; with the origin still unknown, 'connect' is posted with the
    wildcard origin, and every other command throws 'not connected' and
    posts nothing. (Without a port and without a peer window it throws 'not
    connected' as well.) *)
Theorem sendCommand_routing
    (cmd : string) (payload : JsValue) (transfer : option (list PortId))
    (m : Messenger.t) (b : Browser) :
  let data := Messenger.envelope cmd payload in
  let out := Messenger.sendCommand cmd payload transfer m b in
  (forall p, Messenger.port_ m = Some p ->
     out = (Ret tt, m, add_log [PortPostMessage p data transfer] b))
  /\ (forall w o, Messenger.port_ m = None -> resolvedTarget m = Some w ->
        Messenger.targetOrigin_ m = Some o ->
        out = (Ret tt, withTarget m, add_log [WindowPostMessage w data o transfer] b))
  /\ (forall w, Messenger.port_ m = None -> resolvedTarget m = Some w ->
        Messenger.targetOrigin_ m = None -> cmd = "connect" ->
        out = (Ret tt, withTarget m, add_log [WindowPostMessage w data "*" transfer] b))
  /\ (Messenger.port_ m = None -> Messenger.targetOrigin_ m = None -> cmd <> "connect" ->
        out = (Throw (new_Error "not connected"), withTarget m, b))
  /\ (Messenger.port_ m = None -> resolvedTarget m = None ->
        out = (Throw (new_Error "not connected"), withTarget m, b))
  /\ get_prop data "sentinel" = JStr SENTINEL /\ get_prop data "cmd" = JStr cmd.
Proof.
  cbv zeta. repeat split.
  - intros p H. by apply sendCommand_port.
  - intros w o H Hw Ho. by rewrite sendCommand_window, Hw, Ho.
  - intros w H Hw Ho ->. by rewrite sendCommand_window, Hw, Ho.
  - intros H Ho Hc. rewrite sendCommand_window, Ho by exact H.
    apply String.eqb_neq in Hc. rewrite Hc. by destruct (resolvedTarget m).
  - intros H Hw. by rewrite sendCommand_window, Hw.
Qed.

(** ** The mode a port reports (C10) *)

Lemma tryOpen_eq url target features p b :
  ActivityWindowPort.tryOpen url target features p b =
  (Ret (match window_open (ActivityWindowPort.win_ p) url target features with
        | Opened w => Some w
        | _ => None
        end), p, add_log [WindowOpen url target features] b).
Proof.
  unfold ActivityWindowPort.tryOpen. rewrite bind_this, bind_emit.
  destruct (window_open _ _ _ _); reflexivity.
Qed.

Lemma has_openTarget_frame t : TeardownFrame (has_openTarget t).
Proof. unfold has_openTarget. port_frame. Qed.

Lemma keeps_has_openTarget {A} t (c : M ActivityWindowPort.t A) :
  (forall p b, ActivityWindowPort.openTarget_ (c p b).1.2 = ActivityWindowPort.openTarget_ p) ->
  keeps (has_openTarget t) c.
Proof. intros Hc p b H. unfold has_openTarget in *. by rewrite Hc. Qed.

Lemma keeps_openTarget_disconnectWithError_ t reason :
  keeps (has_openTarget t) (ActivityWindowPort.disconnectWithError_ reason).
Proof.
  unfold ActivityWindowPort.disconnectWithError_.
  apply keeps_bind; [apply keeps_this|intros p].
  apply keeps_bind; [|intros _; apply keeps_port_disconnect, has_openTarget_frame].
  destruct (ActivityWindowPort.resultResolver_ p); [|apply keeps_ret].
  by apply keeps_has_openTarget.
Qed.

Lemma keeps_openTarget_setupPopup_ t :
  keeps (has_openTarget t) ActivityWindowPort.setupPopup_.
Proof.
  unfold ActivityWindowPort.setupPopup_.
  apply keeps_bind; [by apply keeps_has_openTarget|intros h].
  apply keeps_bind; [by apply keeps_has_openTarget|intros _].
  apply keeps_bind; [apply keeps_this|intros p].
  apply keeps_bind; [by apply keeps_has_openTarget|intros _].
  apply keeps_onMessenger; [apply has_openTarget_frame|].
  intros b0. apply keeps_connect, outside_messenger_frame.
Qed.

Lemma keeps_openTarget_openInternal_ U buildFeatures t :
  keeps (has_openTarget t) (ActivityWindowPort.openInternal_ U buildFeatures).
Proof.
  unfold ActivityWindowPort.openInternal_.
  apply keeps_bind; [apply keeps_this|intros p]. cbv zeta.
  apply keeps_bind; [by apply keeps_has_openTarget; intros; rewrite tryOpen_eq|intros w1].
  apply keeps_bind.
  { destruct w1; [apply keeps_ret|]. destruct (_ && _); [|apply keeps_ret].
    apply keeps_bind; [by apply keeps_has_openTarget; intros; rewrite tryOpen_eq|intros].
    apply keeps_ret. }
  intros [w2 target]. apply keeps_bind.
  { destruct w2.
    - apply keeps_bind; [by apply keeps_has_openTarget|intros _].
      destruct (negb _); [apply keeps_openTarget_setupPopup_|apply keeps_ret].
    - apply keeps_openTarget_disconnectWithError_. }
  intros _. apply keeps_bind; [by apply keeps_has_openTarget|intros d].
  apply keeps_bind; [by apply keeps_has_openTarget|intros _]. apply keeps_ret.
Qed.

Lemma bind_tryOpen {B} url target features (k : option WindowRef -> M ActivityWindowPort.t B) p b :
  bind (ActivityWindowPort.tryOpen url target features) k p b =
  k (match window_open (ActivityWindowPort.win_ p) url target features with
     | Opened w => Some w
     | _ => None
     end) p (add_log [WindowOpen url target features] b).
Proof. unfold bind at 1. by rewrite tryOpen_eq. Qed.

(** The redirect fallback, spelled out: the popup is blocked, the retry
    with [_top] answers a window. *)
Lemma open_fallback U buildFeatures p b w :
  ActivityWindowPort.openTarget_ p <> "_top" ->
  (forall url target features, target <> "_top" ->
     forall w', window_open (ActivityWindowPort.win_ p) url target features <> Opened w') ->
  (forall url features,
     window_open (ActivityWindowPort.win_ p) url "_top" features = Opened w) ->
  disableRedirectFallback (ActivityWindowPort.options_ p) = false ->
  exists d b',
    ActivityWindowPort.open U buildFeatures p b
    = (Ret d, ActivityWindowPort.set_targetWin_ (Some w) p, b')
    /\ timers b' = timers b.
Proof.
  intros Ht Hblocked Htop Hfb.
  unfold ActivityWindowPort.open, ActivityWindowPort.openInternal_.
  rewrite bind_this. cbv zeta.
  set (url := if skipRequestInUrl _ then _ else _).
  rewrite bind_tryOpen.
  assert (Hend : forall b1,
    exists d b',
      ((update (ActivityWindowPort.set_targetWin_ (Some w));;
        if negb ("_top" =? "_top") then ActivityWindowPort.setupPopup_ else ret tt);;
       let* derived := new_resultPromise in
       emit (PromiseCatch (ActivityWindowPort.resultPromise_ p) derived);;
       ret derived) p b1
      = (Ret d, ActivityWindowPort.set_targetWin_ (Some w) p, b')
      /\ timers b' = timers b1).
  { intros b1. rewrite bind_bind, bind_update. simpl negb. cbv iota.
    rewrite bind_ret. unfold new_resultPromise, fresh.
    rewrite !bind_bind. unfold bind. simpl. eauto. }
  destruct (negb (ActivityWindowPort.openTarget_ p =? "_top") && isIeBrowser U _) eqn:Eie.
  - rewrite Htop. cbv iota beta. rewrite bind_ret. cbv iota beta.
    destruct (Hend (add_log [WindowOpen url "_top" (Some (buildFeatures p))] b))
      as (d & b' & -> & Hb). eauto.
  - pose proof (Hblocked url (ActivityWindowPort.openTarget_ p)
                  (Some (buildFeatures p)) Ht) as Hb.
    apply String.eqb_neq in Ht.
    destruct (window_open _ url (ActivityWindowPort.openTarget_ p) _) as [w'| |];
      [by destruct (Hb w')| |].
    all: cbv iota beta; rewrite Ht, Hfb; simpl andb; cbv iota.
    all: rewrite bind_bind, bind_tryOpen, Htop; cbv iota beta.
    all: rewrite bind_ret; cbv iota beta.
    all: match goal with
         | |- context [add_log ?es' (add_log ?es ?b0)] =>
             destruct (Hend (add_log es' (add_log es b0))) as (d & b' & -> & Hb')
         end; eauto.
Qed.

(** C10. A port whose open-target is not [_top] reports POPUP before and
    after [open], whatever [open] did: [open] never writes [openTarget_].
    In particular, when the popup is blocked and [open] falls back to a
    top-level redirect, the port holds the redirected window, has set up
    neither messenger nor poll, and still reports POPUP. *)
Theorem getMode_popup_after_redirect_fallback
    (U : Utils) (buildFeatures : ActivityWindowPort.t -> string)
    (p : ActivityWindowPort.t) (b : Browser) :
  ActivityWindowPort.openTarget_ p <> "_top" ->
  let p' := (ActivityWindowPort.open U buildFeatures p b).1.2 in
  let b' := (ActivityWindowPort.open U buildFeatures p b).2 in
  ActivityWindowPort.getMode p = POPUP
  /\ ActivityWindowPort.openTarget_ p' = ActivityWindowPort.openTarget_ p
  /\ ActivityWindowPort.getMode p' = POPUP
  /\ forall w,
       (forall url target features, target <> "_top" ->
          forall w', window_open (ActivityWindowPort.win_ p) url target features
                     <> Opened w') ->
       (forall url features,
          window_open (ActivityWindowPort.win_ p) url "_top" features = Opened w) ->
       disableRedirectFallback (ActivityWindowPort.options_ p) = false ->
       ActivityWindowPort.targetWin_ p' = Some w
       /\ ActivityWindowPort.messenger_ p' = ActivityWindowPort.messenger_ p
       /\ ActivityWindowPort.heartbeatInterval_ p' = ActivityWindowPort.heartbeatInterval_ p
       /\ timers b' = timers b
       /\ ActivityWindowPort.getMode p' = POPUP.
Proof.
  intros Ht. cbv zeta.
  assert (Hkeep : ActivityWindowPort.openTarget_
                    (ActivityWindowPort.open U buildFeatures p b).1.2
                  = ActivityWindowPort.openTarget_ p).
  { exact (keeps_openTarget_openInternal_ U buildFeatures _ p b eq_refl). }
  assert (Hmode : forall q, ActivityWindowPort.openTarget_ q = ActivityWindowPort.openTarget_ p ->
                            ActivityWindowPort.getMode q = POPUP).
  { intros q Hq. unfold ActivityWindowPort.getMode. rewrite Hq.
    apply String.eqb_neq in Ht. by rewrite Ht. }
  repeat apply conj; auto.
  intros w Hblocked Htop Hfb.
  destruct (open_fallback U buildFeatures p b w Ht Hblocked Htop Hfb) as (d & b' & Hopen & Hb).
  rewrite Hopen in *. simpl in *. repeat apply conj; auto; by destruct p.
Qed.

Lemma getMode_popup_witness :
  ActivityWindowPort.getMode
    (ActivityWindowPort.open sampleUtils sampleFeatures
       (ActivityWindowPort.mk popupBlockingWindow "r1" "https://host.example/activity"
          "_blank" JNull no_options (Some 1) 1 (Some 2) 2 None None None)
       emptyBrowser).1.2 = POPUP.
Proof.
  apply (getMode_popup_after_redirect_fallback sampleUtils sampleFeatures
           (ActivityWindowPort.mk popupBlockingWindow "r1" "https://host.example/activity"
              "_blank" JNull no_options (Some 1) 1 (Some 2) 2 None None None)
           emptyBrowser).
  simpl. discriminate.
Defined.

(** ** Delivering a result *)

Lemma results_are_frame ps : TeardownFrame (results_are ps).
Proof. unfold results_are. port_frame. Qed.

Lemma resolver_cleared_frame : TeardownFrame resolver_cleared.
Proof. unfold resolver_cleared. port_frame. Qed.

Lemma isConnected_eq m b :
  Messenger.isConnected m b = (Ret (is_some (Messenger.targetOrigin_ m)), m, b).
Proof. reflexivity. Qed.

Lemma getTargetOrigin_eq m b o :
  Messenger.targetOrigin_ m = Some o -> Messenger.getTargetOrigin m b = (Ret o, m, b).
Proof. intros H. unfold Messenger.getTargetOrigin. by rewrite bind_this, H. Qed.

(** What follows the settlement in [result_]: the 'close' courtesy and the
    teardown keep a framed invariant. *)
Lemma keeps_result_teardown I :
  TeardownFrame I ->
  keeps I
    (let* p := this in
     match ActivityWindowPort.messenger_ p with
     | Some _ =>
         ActivityWindowPort.onMessenger (Messenger.sendCommand "close" JUndefined None)
     | None => ret tt
     end;;
     ActivityWindowPort.disconnect).
Proof.
  intros F. apply keeps_bind; [apply keeps_this|intros p].
  apply keeps_bind; [|intros _; by apply keeps_port_disconnect].
  destruct (ActivityWindowPort.messenger_ p); [|apply keeps_ret].
  apply keeps_onMessenger; [apply F|].
  intros b0. apply keeps_sendCommand, outside_messenger_frame.
Qed.

(** With the resolver still in place, [result_] settles the result promise
    with the result built from its arguments, and nothing after that
    touches the result promises. *)
Lemma result__settles U code data p b r m :
  ActivityWindowPort.resultResolver_ p = Some r ->
  ActivityWindowPort.messenger_ p = Some m ->
  let connected := is_some (Messenger.targetOrigin_ m) in
  let result :=
    ActivityResult.constructor code data POPUP (JStr (result_origin U p m))
      connected connected in
  let out := ActivityWindowPort.result_ U code data p b in
  resultPromises out.2 = settle r (Fulfilled result) (resultPromises b)
  /\ ActivityWindowPort.resultResolver_ out.1.2 = None.
Proof.
  intros Hr Hm. cbv zeta.
  unfold ActivityWindowPort.result_. rewrite bind_this, Hr.
  rewrite !bind_bind. erewrite bind_onMessenger by exact Hm.
  rewrite isConnected_eq.
  assert (Hm' : ActivityWindowPort.messenger_
                  (ActivityWindowPort.set_messenger_ (Some m) p) = Some m) by by destruct p.
  assert (Hrest : forall res p1 b1,
    let out :=
      (resolveResult (ActivityWindowPort.win_ p) res r;;
       update (ActivityWindowPort.set_resultResolver_ None);;
       let* p := this in
       match ActivityWindowPort.messenger_ p with
       | Some _ =>
           ActivityWindowPort.onMessenger (Messenger.sendCommand "close" JUndefined None)
       | None => ret tt
       end;;
       ActivityWindowPort.disconnect) p1 b1 in
    resultPromises out.2 = settle r (Fulfilled res) (resultPromises b1)
    /\ ActivityWindowPort.resultResolver_ out.1.2 = None).
  { intros res p1 b1. cbv zeta. unfold resolveResult, resolve_result.
    rewrite bind_bind, bind_emit, bind_update_browser, bind_update. split.
    - apply (keeps_result_teardown _ (results_are_frame _)). reflexivity.
    - apply (keeps_result_teardown _ resolver_cleared_frame). by destruct p1. }
  unfold result_origin.
  destruct (Messenger.targetOrigin_ m) as [o|] eqn:Ho; simpl is_some; cbv iota.
  - rewrite bind_bind. erewrite bind_onMessenger by exact Hm'.
    rewrite (getTargetOrigin_eq _ _ o Ho). rewrite bind_bind. apply Hrest.
  - rewrite ?bind_ret, ?bind_bind. apply Hrest.
Qed.

(** ** A failure reported by the host (C1) *)

Lemma settle_pending {A} p st (ps : gmap PromiseId (PromiseState A)) :
  ps !! p = Some Pending -> settle p st ps !! p = Some st.
Proof. intros H. unfold settle. rewrite H. apply lookup_insert_eq. Qed.

Lemma handleCommand__result U payload p b :
  is_nullish payload = false ->
  ActivityWindowPort.handleCommand_ U (JStr "result") payload p b =
  ActivityWindowPort.result_ U (get_prop payload "code")
    (if loose_eq_str (get_prop payload "code") ActivityResultCode.FAILED
     then new_Error (ToString (js_or (get_prop payload "data") (JStr "")))
     else get_prop payload "data") p b.
Proof. intros H. unfold ActivityWindowPort.handleCommand_. simpl. by rewrite H. Qed.

(** C1. A port that receives 'result' with [{code: "failed", data: "boom"}]
    settles its result promise with a result of code FAILED and [ok] false.
    The error of that result, however, has the message "Error: boom", not
    "boom": [handleCommand_] wraps the reason in an [Error] and the
    [ActivityResult] constructor wraps the string of that [Error] again.
    With the reason absent the message is "Error", not the empty string. *)
Theorem failed_result_error_message
    (U : Utils) (p : ActivityWindowPort.t) (b : Browser) (r : PromiseId) (m : Messenger.t) :
  ActivityWindowPort.resultResolver_ p = Some r ->
  ActivityWindowPort.messenger_ p = Some m ->
  resultPromises b !! r = Some Pending ->
  (exists result,
     resultPromises (ActivityWindowPort.handleCommand_ U (JStr "result") failedPayload p b).2
       !! r = Some (Fulfilled result)
     /\ ActivityResult.code result = JStr ActivityResultCode.FAILED
     /\ ActivityResult.ok result = false
     /\ ActivityResult.error result = Some (new_Error "Error: boom")
     /\ ActivityResult.error result <> Some (new_Error "boom"))
  /\ (exists result,
        resultPromises
          (ActivityWindowPort.handleCommand_ U (JStr "result") failedPayloadNoReason p b).2
          !! r = Some (Fulfilled result)
        /\ ActivityResult.error result = Some (new_Error "Error")
        /\ ActivityResult.error result <> Some (new_Error "")).
Proof.
  intros Hr Hm Hp. split.
  - rewrite handleCommand__result by reflexivity.
    destruct (result__settles U (get_prop failedPayload "code")
                (new_Error "boom") p b r m Hr Hm) as [Hs _].
    eexists. split; [simpl in *; rewrite Hs; by apply settle_pending|].
    repeat split. discriminate.
  - rewrite handleCommand__result by reflexivity.
    destruct (result__settles U (get_prop failedPayloadNoReason "code")
                (new_Error "") p b r m Hr Hm) as [Hs _].
    eexists. split; [simpl in *; rewrite Hs; by apply settle_pending|].
    repeat split. discriminate.
Qed.

Lemma failed_result_witness :
  exists result,
    resultPromises
      (ActivityWindowPort.handleCommand_ sampleUtils (JStr "result") failedPayload
         openedPort.1 openedPort.2).2 !! 2 = Some (Fulfilled result)
    /\ ActivityResult.error result = Some (new_Error "Error: boom").
Proof.
  destruct (failed_result_error_message sampleUtils openedPort.1 openedPort.2 2
              (Messenger.mk sampleWindow (TargetWindow (Some 7)) None true None
                 (JBool false) None (Some PortHandleCommand) None None)
              eq_refl eq_refl eq_refl) as [(result & H1 & _ & _ & H2 & _) _].
  exists result. split; [exact H1|exact H2].
Defined.

(** ** Recovering a redirect result (C3) *)

Lemma acceptResult_fulfilled port b :
  let out := ActivityWindowRedirectPort.acceptResult port tt b in
  let result :=
    ActivityResult.constructor (ActivityWindowRedirectPort.code_ port)
      (ActivityWindowRedirectPort.data_ port) REDIRECT
      (ActivityWindowRedirectPort.targetOrigin_ port)
      (ActivityWindowRedirectPort.targetOriginVerified_ port) false in
  out.1.1 = Ret (S (nextId b))
  /\ resultPromises out.2 !! S (nextId b) = Some (Fulfilled result).
Proof.
  cbv zeta. unfold ActivityWindowRedirectPort.acceptResult, new_resultPromise, fresh,
    resolveResult, resolve_result.
  unfold bind, update_browser, emit, ret. simpl. split; [reflexivity|].
  apply settle_pending. apply lookup_insert_eq.
Qed.

Lemma discoverRedirectPort_found U win fragment requestId text response b :
  getQueryParam U fragment "__WA_RES__" = Some text ->
  text <> "" ->
  JSON_parse U text = Some response ->
  truthy response = true ->
  let port :=
    ActivityWindowRedirectPort.mk win (get_prop response "code") (get_prop response "data")
      (get_prop response "origin")
      (loose_eq_str (get_prop response "origin")
         (if String.eqb (document_referrer win) "" then ""
          else getOriginFromUrl U (document_referrer win))) in
  if loose_eq_str (get_prop response "requestId") requestId
  then exists b1, discoverRedirectPort U win fragment requestId tt b = (Ret (Some port), tt, b1)
  else discoverRedirectPort U win fragment requestId tt b = (Ret None, tt, b).
Proof.
  intros Hq Ht Hj Hr. cbv zeta. unfold discoverRedirectPort. cbv zeta. rewrite Hq.
  destruct text as [|c text]; [congruence|]. rewrite Hj, Hr. simpl negb. simpl orb.
  destruct (loose_eq_str (get_prop response "requestId") requestId); simpl negb; cbv iota;
    [|reflexivity].
  destruct (negb _ && _); msimp; eexists; reflexivity.
Qed.

(** C3. When the fragment holds [__WA_RES__] with the example response,
    [discoverRedirectPort] with the expected request id "r1" answers a port
    in REDIRECT mode whose [acceptResult()] returns a promise that is
    already fulfilled, with code OK, data [{a: 1}], mode REDIRECT,
    [secureChannel] false and [originVerified] true exactly when the
    document has a referrer whose origin is the declared "https://x". With
    another request id, or without the parameter, it answers [null]. *)
Theorem discoverRedirectPort_example (U : Utils) (win : Window) (b : Browser) :
  (forall fragment,
     getQueryParam U fragment "__WA_RES__" = Some example_response_text ->
     JSON_parse U example_response_text = Some example_response ->
     (exists port b1,
        discoverRedirectPort U win fragment "r1" tt b = (Ret (Some port), tt, b1)
        /\ ActivityWindowRedirectPort.getMode port = REDIRECT
        /\ forall b2,
             exists promise result,
               (ActivityWindowRedirectPort.acceptResult port tt b2).1.1 = Ret promise
               /\ resultPromises (ActivityWindowRedirectPort.acceptResult port tt b2).2
                    !! promise = Some (Fulfilled result)
               /\ ActivityResult.code result = JStr ActivityResultCode.OK
               /\ ActivityResult.ok result = true
               /\ ActivityResult.data result = JObj [("a", JNum 1)]
               /\ ActivityResult.mode result = REDIRECT
               /\ ActivityResult.secureChannel result = false
               /\ ActivityResult.error result = None
               /\ (ActivityResult.originVerified result = true <->
                   document_referrer win <> ""
                   /\ getOriginFromUrl U (document_referrer win) = "https://x"))
     /\ (forall requestId, requestId <> "r1" ->
           discoverRedirectPort U win fragment requestId tt b = (Ret None, tt, b)))
  /\ (forall fragment requestId,
        getQueryParam U fragment "__WA_RES__" = None ->
        discoverRedirectPort U win fragment requestId tt b = (Ret None, tt, b)).
Proof.
  split.
  - intros fragment Hq Hj.
    assert (Hne : example_response_text <> "") by discriminate.
    split.
    + pose proof (discoverRedirectPort_found U win fragment "r1" _ _ b Hq Hne Hj eq_refl) as H.
      cbv zeta in H. change (loose_eq_str (get_prop example_response "requestId") "r1")
        with true in H. cbv iota in H.
      destruct H as [b1 H]. eexists _, b1. split; [exact H|]. split; [reflexivity|].
      intros b2. destruct (acceptResult_fulfilled
        (ActivityWindowRedirectPort.mk win (get_prop example_response "code")
           (get_prop example_response "data") (get_prop example_response "origin")
           (loose_eq_str (get_prop example_response "origin")
              (if String.eqb (document_referrer win) "" then ""
               else getOriginFromUrl U (document_referrer win)))) b2) as [H1 H2].
      eexists _, _. split; [exact H1|]. split; [exact H2|].
      repeat apply conj; try reflexivity.
      all: unfold ActivityResult.constructor; cbn [ActivityResult.originVerified];
        change (get_prop example_response "origin") with (JStr "https://x");
        cbn [loose_eq_str].
      * destruct (String.eqb_spec (document_referrer win) "") as [->|Hn].
        -- discriminate.
        -- intros H'. apply String.eqb_eq in H'. auto.
      * intros [Hn He]. apply String.eqb_neq in Hn. rewrite Hn.
        apply String.eqb_eq. auto.
    + intros requestId Hreq.
      pose proof (discoverRedirectPort_found U win fragment requestId _ _ b Hq Hne Hj eq_refl)
        as H.
      cbv zeta in H.
      replace (loose_eq_str (get_prop example_response "requestId") requestId)
        with false in H; [exact H|].
      symmetry. change (get_prop example_response "requestId") with (JStr "r1").
      cbn [loose_eq_str]. apply String.eqb_neq. congruence.
  - intros fragment requestId Hq. unfold discoverRedirectPort. cbv zeta. by rewrite Hq.
Qed.

Lemma discoverRedirectPort_witness :
  exists port b1,
    discoverRedirectPort redirectUtils returnedWindow
      ("#__WA_RES__=" +:+ example_response_text) "r1" tt emptyBrowser
    = (Ret (Some port), tt, b1)
    /\ ActivityWindowRedirectPort.getMode port = REDIRECT.
Proof.
  destruct (discoverRedirectPort_example redirectUtils returnedWindow emptyBrowser)
    as [H _].
  destruct (H ("#__WA_RES__=" +:+ example_response_text) eq_refl eq_refl)
    as [(port & b1 & H1 & H2 & _) _].
  exists port, b1. split; [exact H1|exact H2].
Defined.

(** ** Sub-channel promises (C6) *)

Lemma holder_of_withTarget key m : holder_of key (withTarget m) = holder_of key m.
Proof. by destruct m. Qed.

Lemma holder_keys_withTarget m : holder_keys (withTarget m) = holder_keys m.
Proof. by destruct m. Qed.

Lemma setChannelObj_eq key h m b :
  Messenger.setChannelObj key h m b =
  (Ret tt,
   Messenger.set_channels_ (Some (<[key := h]> (default ∅ (Messenger.channels_ m)))) m, b).
Proof. reflexivity. Qed.

Lemma bind_setChannelObj {B} key h (k : unit -> M Messenger.t B) m b :
  bind (Messenger.setChannelObj key h) k m b =
  k tt (Messenger.set_channels_ (Some (<[key := h]> (default ∅ (Messenger.channels_ m)))) m) b.
Proof. reflexivity. Qed.

Lemma holder_of_set key h chans m :
  holder_of key (Messenger.set_channels_ (Some (<[key := h]> chans)) m) = Some h.
Proof. destruct m. unfold holder_of. simpl. apply lookup_insert_eq. Qed.

Lemma holder_keys_set key h m h0 :
  holder_of key m = Some h0 ->
  holder_keys (Messenger.set_channels_
                 (Some (<[key := h]> (default ∅ (Messenger.channels_ m)))) m)
  = holder_keys m.
Proof.
  destruct m as [w toc o rt tg ac p oc ocm [chans|]]; unfold holder_of, holder_keys; simpl;
    [|discriminate].
  intros H. rewrite dom_insert_L. apply elem_of_dom_2 in H.
  apply leibniz_equiv. apply subseteq_union_1. by apply singleton_subseteq_l.
Qed.

(** [getChannelObj_] answers the registered holder and changes nothing; it
    registers one, with a fresh promise, only when there is none. *)
Lemma getChannelObj__found name m b h :
  holder_of (ToString name) m = Some h ->
  Messenger.getChannelObj_ name m b = (Ret (ToString name, h), m, b).
Proof.
  unfold holder_of, Messenger.getChannelObj_. cbv zeta. rewrite bind_this.
  destruct (Messenger.channels_ m) as [chans|] eqn:E; [|discriminate].
  intros H. rewrite bind_ret, bind_this, E.
  change (default ∅ (Some chans)) with chans. by rewrite H.
Qed.

Lemma getChannelObj__new name m b :
  holder_of (ToString name) m = None ->
  exists h m' b',
    Messenger.getChannelObj_ name m b = (Ret (ToString name, h), m', b')
    /\ holder_of (ToString name) m' = Some h
    /\ port1 h = None /\ port2 h = None
    /\ log b' = log b
    /\ Messenger.port_ m' = Messenger.port_ m
    /\ Messenger.win_ m' = Messenger.win_ m.
Proof.
  unfold holder_of, Messenger.getChannelObj_. cbv zeta. rewrite bind_this.
  destruct m as [w toc o rt tg ac p oc ocm [chans|]]; simpl.
  - intros H. rewrite bind_ret, bind_this. simpl. rewrite H.
    unfold new_channelPromise, fresh. rewrite !bind_bind. unfold bind. simpl.
    eexists _, _, _. split; [reflexivity|]. simpl.
    rewrite lookup_insert_eq. by repeat split.
  - intros _. rewrite bind_update, bind_this. simpl. rewrite lookup_empty.
    unfold new_channelPromise, fresh. rewrite !bind_bind. unfold bind. simpl.
    eexists _, _, _. split; [reflexivity|]. simpl.
    rewrite lookup_insert_eq. by repeat split.
Qed.

(** What [sendCommand] does to the log: one post of the command when it
    returns, nothing when it throws; the holders are not touched. *)
Lemma sendCommand_outcome cmd payload transfer m b :
  exists m',
    (m' = m \/ m' = withTarget m)
    /\ ((exists e, Messenger.sendCommand cmd payload transfer m b = (Ret tt, m', add_log [e] b)
                   /\ forall c, posts c e = String.eqb cmd c)
        \/ (exists err, Messenger.sendCommand cmd payload transfer m b = (Throw err, m', b))).
Proof.
  destruct (Messenger.port_ m) as [p|] eqn:Hp.
  - exists m. split; [auto|]. left. eexists. split; [by apply sendCommand_port|].
    intros c. reflexivity.
  - exists (withTarget m). split; [auto|]. rewrite sendCommand_window by exact Hp.
    destruct (resolvedTarget m); [|right; eauto].
    destruct (Messenger.targetOrigin_ m).
    + left. eexists. split; [reflexivity|]. intros c. reflexivity.
    + destruct (String.eqb cmd "connect"); [|right; eauto].
      left. eexists. split; [reflexivity|]. intros c. reflexivity.
Qed.

Lemma bind_getChannelObj_ {B} name (k : string * ChannelHolderDef -> M Messenger.t B) m b h :
  holder_of (ToString name) m = Some h ->
  bind (Messenger.getChannelObj_ name) k m b = k (ToString name, h) m b.
Proof. intros H. unfold bind at 1. by rewrite (getChannelObj__found _ _ _ _ H). Qed.

Lemma count_posts_app cmd es es' :
  count_posts cmd (es ++ es')%list = count_posts cmd es + count_posts cmd es'.
Proof. unfold count_posts. by rewrite List.filter_app, length_app. Qed.

Lemma log_add_log es b : log (add_log es b) = (log b ++ es)%list.
Proof. reflexivity. Qed.

(** A call with the holder already registered. *)
Lemma askChannel_with_holder opt_name m b h :
  holder_of (channel_key opt_name) m = Some h ->
  let out := Messenger.askChannel opt_name m b in
  holder_of (channel_key opt_name) out.1.2 = Some h
  /\ holder_keys out.1.2 = holder_keys m
  /\ (forall p, out.1.1 = Ret p -> p = promise h)
  /\ (port1 h <> None -> out = (Ret (promise h), m, b))
  /\ (port1 h = None -> forall p, out.1.1 = Ret p ->
      count_posts "cnget" (log out.2) = S (count_posts "cnget" (log b))).
Proof.
  intros Hh. cbv zeta. unfold Messenger.askChannel, channel_key in *. cbv zeta.
  rewrite (bind_getChannelObj_ _ _ _ _ h Hh). cbv beta iota.
  destruct (port1 h) as [p1|] eqn:E1.
  - rewrite bind_ret. simpl. repeat split; auto; congruence.
  - destruct (sendCommand_outcome "cnget"
                (JObj [("name", js_or opt_name (JStr ""))]) None m b)
      as (m' & Hm' & [(e & Hs & He)|(err & Hs)]);
      unfold bind; rewrite Hs; simpl.
    + assert (Hk : holder_of (ToString (js_or opt_name (JStr ""))) m' = Some h
                   /\ holder_keys m' = holder_keys m)
        by (destruct Hm' as [->| ->]; by rewrite ?holder_of_withTarget, ?holder_keys_withTarget).
      destruct Hk as [Hk1 Hk2]. repeat split; auto; try congruence.
      intros _ p _. rewrite count_posts_app. unfold count_posts at 2. simpl.
      rewrite (He "cnget"). simpl. lia.
    + assert (Hk : holder_of (ToString (js_or opt_name (JStr ""))) m' = Some h
                   /\ holder_keys m' = holder_keys m)
        by (destruct Hm' as [->| ->]; by rewrite ?holder_of_withTarget, ?holder_keys_withTarget).
      destruct Hk as [Hk1 Hk2]. repeat split; auto; try congruence; try discriminate.
Qed.

Lemma bind_new_MessageChannel {St B} (k : PortId * PortId -> M St B) s b :
  bind new_MessageChannel k s b =
  k (S (nextId b), S (S (nextId b))) s
    (add_log [NewMessageChannel (S (nextId b)) (S (S (nextId b)))]
       (set_nextId (S (S (nextId b))) b)).
Proof. reflexivity. Qed.

Lemma bind_resolve_channel {St B} p port (k : unit -> M St B) s b :
  bind (resolve_channel p port) k s b =
  k tt s (set_channelPromises (settle p (Fulfilled port) (channelPromises (add_log [ResolveChannel p port] b)))
            (add_log [ResolveChannel p port] b)).
Proof. reflexivity. Qed.

Lemma startChannel_with_holder opt_name m b h :
  holder_of (channel_key opt_name) m = Some h ->
  let out := Messenger.startChannel opt_name m b in
  (exists h', holder_of (channel_key opt_name) out.1.2 = Some h'
              /\ promise h' = promise h
              /\ (forall p, out.1.1 = Ret p -> port1 h' <> None /\ port2 h' = None))
  /\ holder_keys out.1.2 = holder_keys m
  /\ (forall p, out.1.1 = Ret p -> p = promise h)
  /\ (port1 h <> None -> port2 h = None -> out = (Ret (promise h), m, b))
  /\ (port1 h = None -> forall p, out.1.1 = Ret p ->
      count_posts "cnset" (log out.2) = S (count_posts "cnset" (log b))).
Proof.
  intros Hh. cbv zeta. unfold Messenger.startChannel, channel_key in *. cbv zeta.
  set (name := js_or opt_name (JStr "")) in *.
  rewrite (bind_getChannelObj_ _ _ _ _ h Hh). cbv beta iota.
  (* the tail of [startChannel], from a holder with its local endpoint *)
  assert (Htail : forall h1 m1 b1,
    holder_of (ToString name) m1 = Some h1 -> port1 h1 <> None ->
    let out :=
      (match port2 h1 with
       | Some p2 =>
           Messenger.sendCommand "cnset" (JObj [("name", name)]) (Some [p2]);;
           Messenger.setChannelObj (ToString name)
             (mkChannelHolder (promise h1) (resolver h1) (port1 h1) None)
       | None => ret tt
       end;; ret (promise h1)) m1 b1 in
    (exists h', holder_of (ToString name) out.1.2 = Some h' /\ promise h' = promise h1
                /\ (forall p, out.1.1 = Ret p -> port1 h' <> None /\ port2 h' = None))
    /\ holder_keys out.1.2 = holder_keys m1
    /\ (forall p, out.1.1 = Ret p -> p = promise h1)
    /\ (port2 h1 = None -> out = (Ret (promise h1), m1, b1))
    /\ (port2 h1 <> None -> forall p, out.1.1 = Ret p ->
        count_posts "cnset" (log out.2) = S (count_posts "cnset" (log b1)))).
  { intros h1 m1 b1 Hh1 Hp1. cbv zeta.
    destruct (port2 h1) as [p2|] eqn:E2.
    - destruct (sendCommand_outcome "cnset" (JObj [("name", name)]) (Some [p2]) m1 b1)
        as (m' & Hm' & [(e & Hs & He)|(err & Hs)]);
        unfold bind; rewrite Hs; simpl.
      + assert (Hk : holder_of (ToString name) m' = Some h1 /\ holder_keys m' = holder_keys m1)
          by (destruct Hm' as [->| ->];
              by rewrite ?holder_of_withTarget, ?holder_keys_withTarget).
        destruct Hk as [Hk1 Hk2]. repeat split.
        * eexists. split; [apply holder_of_set|]. simpl. split; [reflexivity|]. auto.
        * rewrite <- Hk2. by apply (holder_keys_set (ToString name) _ m' h1).
        * congruence.
        * discriminate.
        * intros _ p _. rewrite count_posts_app. unfold count_posts at 2. simpl.
          rewrite (He "cnset"). simpl. lia.
      + assert (Hk : holder_of (ToString name) m' = Some h1 /\ holder_keys m' = holder_keys m1)
          by (destruct Hm' as [->| ->];
              by rewrite ?holder_of_withTarget, ?holder_keys_withTarget).
        destruct Hk as [Hk1 Hk2]. repeat split; auto; try discriminate.
        exists h1. repeat split; auto; discriminate.
    - rewrite bind_ret. simpl. repeat split; auto; try congruence.
      exists h1. repeat split; auto. }
  destruct (port1 h) as [p1|] eqn:E1.
  - rewrite bind_ret.
    destruct (Htail h m b Hh ltac:(congruence)) as (H1 & H2 & H3 & H4 & H5).
    repeat split; auto. congruence.
  - rewrite bind_bind, bind_this.
    destruct (hasMessageChannel (Messenger.win_ m)) eqn:Emc.
    + rewrite bind_bind, bind_new_MessageChannel. cbv beta.
      rewrite bind_bind, bind_setChannelObj, bind_bind, bind_resolve_channel, bind_ret.
      cbn [fst snd promise resolver port1 port2].
      match goal with
      | |- context [_ ?m1 ?b1] =>
          match m1 with Messenger.set_channels_ _ _ =>
            pose proof (Htail (mkChannelHolder (promise h) (resolver h)
                                 (Some (S (nextId b))) (Some (S (S (nextId b))))) m1 b1) as Ht
          end
      end.
      cbv zeta in Ht. cbn [port1 port2 promise resolver] in Ht.
      specialize (Ht (holder_of_set _ _ _ _) ltac:(discriminate)).
      destruct Ht as (H1 & H2 & H3 & H4 & H5).
      repeat split; auto.
      * etransitivity; [exact H2|]. by apply (holder_keys_set (ToString name) _ m h).
      * congruence.
      * intros _ p Hp. etransitivity; [exact (H5 ltac:(discriminate) p Hp)|].
        f_equal. simpl log. rewrite !count_posts_app. unfold count_posts. simpl. lia.
    + rewrite bind_throw. simpl. repeat split; auto; try discriminate; try congruence.
      exists h. repeat split; auto; discriminate.
Qed.

(** A call without a holder registers one and goes on as a call with it. *)
Lemma channelCall_registers via opt_name m b :
  holder_of (channel_key opt_name) m = None ->
  exists h m' b',
    holder_of (channel_key opt_name) m' = Some h
    /\ port1 h = None /\ port2 h = None
    /\ log b' = log b
    /\ channelCall via opt_name m b = channelCall via opt_name m' b'.
Proof.
  intros Hn. unfold channel_key in *.
  destruct (getChannelObj__new _ m b Hn) as (h & m' & b' & Hg & Hh & H1 & H2 & Hl & _).
  exists h, m', b'. repeat split; auto.
  pose proof (getChannelObj__found _ m' b' h Hh) as Hg'.
  destruct via; unfold channelCall, Messenger.startChannel, Messenger.askChannel; cbv zeta;
    unfold bind at 1; rewrite Hg; symmetry; unfold bind at 1; rewrite Hg'; reflexivity.
Qed.

(** The holder a call works on: the registered one, or the one the call
    registers first. *)
Lemma channelCall_holder via opt_name m b :
  exists h m' b',
    holder_of (channel_key opt_name) m' = Some h
    /\ log b' = log b
    /\ channelCall via opt_name m b = channelCall via opt_name m' b'
    /\ (forall h0, holder_of (channel_key opt_name) m = Some h0 -> h = h0)
    /\ ((forall h0, holder_of (channel_key opt_name) m = Some h0 -> port1 h0 = None) ->
        port1 h = None).
Proof.
  destruct (holder_of (channel_key opt_name) m) as [h0|] eqn:E.
  - exists h0, m, b. repeat split; auto. congruence.
  - destruct (channelCall_registers via opt_name m b E) as (h & m' & b' & H1 & H2 & H3 & H4 & H5).
    exists h, m', b'. repeat split; auto. discriminate.
Qed.

Lemma channelCall_with_holder via opt_name m b h :
  holder_of (channel_key opt_name) m = Some h ->
  let out := channelCall via opt_name m b in
  (exists h', holder_of (channel_key opt_name) out.1.2 = Some h'
              /\ promise h' = promise h
              /\ (via = ViaStartChannel -> forall p, out.1.1 = Ret p ->
                  port1 h' <> None /\ port2 h' = None)
              /\ (via = ViaAskChannel -> h' = h))
  /\ holder_keys out.1.2 = holder_keys m
  /\ (forall p, out.1.1 = Ret p -> p = promise h).
Proof.
  intros Hh. destruct via; cbv zeta; unfold channelCall.
  - destruct (startChannel_with_holder opt_name m b h Hh)
      as ((h' & H1 & H2 & H3) & H4 & H5 & _).
    repeat split; auto. exists h'. split; [exact H1|]. split; [exact H2|].
    split; [intros _; exact H3|discriminate].
  - destruct (askChannel_with_holder opt_name m b h Hh) as (H1 & H2 & H3 & _).
    repeat split; auto. exists h. split; [exact H1|]. split; [reflexivity|].
    split; [discriminate|reflexivity].
Qed.



(** ** Messages without the sentinel (C2) *)

Lemma portOnMessage_dispatches event m b :
  let data := MessageEvent.data event in
  truthy (js_and data (get_prop data "cmd")) = true ->
  Messenger.portOnMessage event m b =
  Messenger.handleCommand_ (js_and data (get_prop data "cmd"))
    (js_or (js_and data (get_prop data "payload")) JNull) event m b.
Proof. cbv zeta. intros H. unfold Messenger.portOnMessage. cbv zeta. by rewrite H. Qed.




(** ** The grace window *)

Lemma returns_callOnCommand cmd payload :
  returns (dispatches cmd) (Messenger.callOnCommand cmd payload).
Proof.
  unfold Messenger.callOnCommand. apply returns_bind. intros m.
  destruct (Messenger.onCommand_ m); [|apply returns_throw].
  apply returns_bind. intros _. by apply returns_ret.
Qed.

Lemma returns_NoCall_after {A} cmd (c : M Messenger.t A) :
  returns (dispatches cmd) (c;; ret NoCall).
Proof. apply returns_bind. intros _. by apply returns_ret. Qed.

Lemma returns_handleCommand_ cmd payload event :
  returns (dispatches cmd) (Messenger.handleCommand_ cmd payload event).
Proof.
  unfold Messenger.handleCommand_.
  repeat match goal with |- returns _ (if ?c then _ else _) => destruct c end.
  - apply returns_bind. intros m. apply returns_bind. intros _.
    apply returns_bind. intros _. apply returns_callOnCommand.
  - apply returns_bind. intros _. apply returns_callOnCommand.
  - apply returns_bind. intros m. destruct (Messenger.onCustomMessage_ m).
    + destruct (is_nullish payload); [by apply returns_ret|].
      apply returns_bind. intros _. by apply returns_ret.
    + by apply returns_ret.
  - apply returns_bind. intros name. apply returns_NoCall_after.
  - apply returns_bind. intros name. destruct (MessageEvent.ports event).
    + apply returns_NoCall_after.
    + apply returns_throw.
  - apply returns_callOnCommand.
Qed.

Lemma returns_portOnMessage event :
  returns (dispatches (command_of (ChannelMessage event))) (Messenger.portOnMessage event).
Proof.
  unfold Messenger.portOnMessage. cbv zeta.
  destruct (truthy _); [apply returns_handleCommand_|by apply returns_ret].
Qed.

Lemma returns_handleEvent_ event :
  returns (dispatches (command_of (WindowMessage event))) (Messenger.handleEvent_ event).
Proof.
  unfold Messenger.handleEvent_.
  apply returns_bind. intros m. apply returns_bind. intros mismatch.
  destruct mismatch; [by apply returns_ret|]. cbv zeta.
  destruct (_ || _); [by apply returns_ret|].
  apply returns_bind. intros m1.
  destruct (_ && _); [by apply returns_ret|].
  apply returns_bind. intros _. apply returns_bind. intros m2.
  apply returns_bind. intros _. apply returns_bind. intros m3.
  destruct (match Messenger.targetOrigin_ m3 with Some _ => _ | None => _ end);
    [by apply returns_ret|apply returns_handleCommand_].
Qed.

Lemma returns_onMessenger {A} (V : A -> Prop) (c : M Messenger.t A) :
  returns V c -> returns V (ActivityWindowPort.onMessenger c).
Proof.
  intros H p b. unfold ActivityWindowPort.onMessenger.
  destruct (ActivityWindowPort.messenger_ p) as [m|]; [|exact I].
  specialize (H m b). by destruct (c m b) as [[[] ?] ?].
Qed.

(** *** Frames of the invariant *)

Lemma Forall_filter_keep {A} (P Q : A -> Prop) `{!forall x, Decision (Q x)} (l : list A) :
  Forall P l -> Forall P (filter Q l).
Proof.
  rewrite !Forall_forall. intros HP x Hx. apply HP.
  by apply list_elem_of_filter in Hx as [_ ?].
Qed.

Lemma TeardownFrame_and I J :
  TeardownFrame I -> TeardownFrame J -> TeardownFrame (fun p b => I p b /\ J p b).
Proof.
  intros [[] ? ? ? ? ?] [[] ? ? ? ? ?].
  split; [split|..]; intros; intuition eauto.
Qed.

Lemma grace_browser_frame late t0 r : TeardownFrame (grace_browser late t0 r).
Proof.
  unfold grace_browser, pending_or_canceled_late.
  split; [split|..]; try (intros; assumption).
  - intros p b b' H (Hc & Ht & _ & Hr & _). by rewrite Hc, Ht, Hr.
  - intros p b id (Ht & H). split; [|exact H]. simpl. by apply Forall_filter_keep.
Qed.

Lemma resolver_is_frame r : TeardownFrame (resolver_is r).
Proof. unfold resolver_is. port_frame. Qed.

Lemma grace_inv_frame late t0 r : PortFrame (grace_inv late t0 r).
Proof.
  split.
  - intros p b b' (Hg & Hr & Hm) Hs. split; [|split; [exact Hr|exact Hm]].
    by eapply (pf_browser _ (tf_frame _ (grace_browser_frame late t0 r))).
  - intros p b m (Hg & Hr & Hm). split; [exact Hg|]. split; by destruct p.
Qed.

(** *** The host's messages *)

Section Grace.
Context (U : Utils) (late : bool) (t0 : Z) (r : PromiseId).

Lemma keeps_grace_resolve_connected c :
  keeps (grace_inv late t0 r) (resolve_connected (St := ActivityWindowPort.t) c).
Proof. intros p b H. exact H. Qed.

Lemma keeps_grace_handleCommand_ cmd payload :
  loose_eq_str cmd "check" = false ->
  loose_eq_str cmd "result" = false ->
  keeps (grace_inv late t0 r) (ActivityWindowPort.handleCommand_ U cmd payload).
Proof.
  intros Hc Hr. unfold ActivityWindowPort.handleCommand_. rewrite Hc, Hr.
  destruct (loose_eq_str cmd "connect"); [|apply keeps_ret].
  apply keeps_bind; [apply keeps_this|intros p].
  apply keeps_bind.
  - apply keeps_onMessenger; [apply grace_inv_frame|]. intros b0.
    apply keeps_sendStartCommand, outside_messenger_frame.
  - intros _. destruct (ActivityWindowPort.connectedResolver_ p);
      [apply keeps_grace_resolve_connected|apply keeps_throw].
Qed.

Lemma keeps_grace_deliver cmd d :
  dispatches cmd d ->
  loose_eq_str cmd "check" = false ->
  loose_eq_str cmd "result" = false ->
  keeps (grace_inv late t0 r) (deliver U d).
Proof.
  intros Hd Hc Hr. destruct d as [|[|] c payload|]; simpl in *; subst;
    try apply keeps_ret. by apply keeps_grace_handleCommand_.
Qed.

Lemma keeps_grace_dispatch cmd (c : M Messenger.t Dispatch) :
  (forall b0, keeps (outside_messenger b0) c) ->
  returns (dispatches cmd) c ->
  loose_eq_str cmd "check" = false ->
  loose_eq_str cmd "result" = false ->
  keeps (grace_inv late t0 r)
    (let* d := ActivityWindowPort.onMessenger c in deliver U d).
Proof.
  intros Hk Hd Hc Hr p b H. unfold bind.
  pose proof (keeps_onMessenger _ c (grace_inv_frame late t0 r) Hk p b H) as H1.
  pose proof (returns_onMessenger _ c Hd p b) as H2.
  destruct (ActivityWindowPort.onMessenger c p b) as [[[d|e] p1] b1]; simpl in *;
    [|exact H1].
  by apply (keeps_grace_deliver cmd).
Qed.

Lemma keeps_grace_onWindowMessage event :
  quiet (WindowMessage event) ->
  keeps (grace_inv late t0 r) (onWindowMessage U event).
Proof.
  intros [Hc Hr]. unfold onWindowMessage.
  apply keeps_bind; [apply keeps_this|intros p].
  destruct (ActivityWindowPort.messenger_ p) as [m|]; [|apply keeps_ret].
  destruct (Messenger.onCommand_ m); [|apply keeps_ret].
  apply (keeps_grace_dispatch (command_of (WindowMessage event))); try assumption.
  - intros b0. apply keeps_handleEvent_;
      [apply outside_messenger_frame|apply outside_messenger_pin].
  - apply returns_handleEvent_.
Qed.

Lemma keeps_grace_onChannelMessage event :
  quiet (ChannelMessage event) ->
  keeps (grace_inv late t0 r) (onChannelMessage U event).
Proof.
  intros [Hc Hr]. unfold onChannelMessage.
  apply keeps_bind; [apply keeps_this|intros p].
  destruct (ActivityWindowPort.messenger_ p) as [m|]; [|apply keeps_ret].
  destruct (Messenger.port_ m); [|apply keeps_ret].
  apply (keeps_grace_dispatch (command_of (ChannelMessage event))); try assumption.
  - intros b0. apply keeps_portOnMessage, outside_messenger_frame.
  - apply returns_portOnMessage.
Qed.
End Grace.

(** *** The cancellation *)

Section Cancel.
Context (U : Utils) (t0 : Z) (r : PromiseId).

Lemma cancel_due_frame : TeardownFrame (cancel_due t0).
Proof.
  unfold cancel_due. split; [split|..]; try (intros; assumption).
  - intros p b b' H (Hc & Ht & _). by rewrite Hc, Ht.
  - intros p b id (Ht & H). split; [|exact H]. simpl. by apply Forall_filter_keep.
Qed.

Lemma keeps_cancel_due_result_ code data :
  keeps (cancel_due t0) (ActivityWindowPort.result_ U code data).
Proof.
  unfold ActivityWindowPort.result_.
  apply keeps_bind; [apply keeps_this|intros p].
  apply keeps_bind; [|intros _; apply keeps_result_teardown, cancel_due_frame].
  destruct (ActivityWindowPort.resultResolver_ p) as [r'|]; [|apply keeps_ret].
  apply keeps_bind.
  { apply keeps_onMessenger; [apply cancel_due_frame|]. intros b0.
    apply keeps_isConnected. }
  intros connected. apply keeps_bind.
  { destruct connected; [|apply keeps_ret].
    apply keeps_onMessenger; [apply cancel_due_frame|]. intros b0.
    apply keeps_getTargetOrigin. }
  intros origin. apply keeps_bind.
  - intros p1 b1 H. exact H.
  - intros _. apply keeps_update. intros p1 b1 H. exact H.
Qed.

Lemma released_frame :
  TeardownFrame (fun p b => grace_browser true t0 r p b /\ resolver_cleared p b).
Proof. apply TeardownFrame_and; [apply grace_browser_frame|apply resolver_cleared_frame]. Qed.

Lemma released_grace_inv p b :
  grace_browser true t0 r p b -> resolver_cleared p b -> grace_inv true t0 r p b.
Proof.
  intros Hg Hc. split; [exact Hg|]. split; [by left|]. intros H. by destruct H.
Qed.

(** The cancellation leaves the result promise pending or canceled in
    time, and the resolver released, whether [result_] returns or
    throws. *)
Lemma cancel_result_released p b :
  grace_inv true t0 r p b ->
  let out :=
    ActivityWindowPort.result_ U (JStr ActivityResultCode.CANCELED) JNull p b in
  grace_browser true t0 r out.1.2 out.2 /\ resolver_cleared out.1.2 out.2.
Proof.
  set (code := JStr ActivityResultCode.CANCELED). set (data := JNull).
  intros (Hg & [Hn|Hs] & Hm); cbv zeta.
  - unfold ActivityWindowPort.result_. rewrite bind_this, Hn, bind_ret.
    by apply (keeps_result_teardown _ released_frame).
  - destruct (ActivityWindowPort.messenger_ p) as [m|] eqn:Em;
      [|exfalso; apply Hm; [by rewrite Hs|exact Em]].
    destruct (result__settles U code data p b r m Hs Em) as [Hps Hnone].
    destruct Hg as (Ht & Hp & Hl).
    destruct (keeps_cancel_due_result_ code data p b (conj Ht (Hl eq_refl)))
      as [Ht' Hc'].
    split; [|exact Hnone]. split; [exact Ht'|]. split; [|by intros _].
    cbv zeta in Hps. unfold pending_or_canceled_late. rewrite Hps. destruct Hp as [Hp|(res & Hp & Hle & Hcan)].
    + right. eexists. split; [by apply settle_pending|]. split; [exact Hc'|].
      by split.
    + right. exists res. unfold settle. rewrite Hp.
      split; [exact Hp|]. split; [exact Hc'|exact Hcan].
Qed.
End Cancel.

Section GraceSteps.
Context (U : Utils) (t0 : Z) (r : PromiseId).

Lemma cancel_callback_released p b :
  grace_inv true t0 r p b ->
  let out := ActivityWindowPort.runTimerCallback U CancelResult p b in
  grace_browser true t0 r out.1.2 out.2 /\ resolver_cleared out.1.2 out.2.
Proof.
  intros H. pose proof (cancel_result_released U t0 r p b H) as HJ.
  cbv zeta in *. unfold ActivityWindowPort.runTimerCallback, catch.
  destruct (ActivityWindowPort.result_ U _ _ p b) as [[[[]|e] p1] b1]; simpl in *;
    [exact HJ|].
  unfold ActivityWindowPort.disconnectWithError_.
  rewrite bind_this. destruct HJ as [Hg Hc]. rewrite Hc, bind_ret.
  by apply (keeps_port_disconnect _ (released_frame t0 r)).
Qed.

Lemma grace_inv_weaken late p b : grace_inv true t0 r p b -> grace_inv late t0 r p b.
Proof.
  intros ((Ht & Hp & Hl) & Hr & Hm). split; [|by split].
  split; [exact Ht|]. split; [exact Hp|]. intros _. by apply Hl.
Qed.

Lemma keeps_grace_fireTimer id : keeps (grace_inv false t0 r) (fireTimer U id).
Proof.
  intros p b H. unfold fireTimer. rewrite bind_browser.
  destruct (find _ (timers b)) as [t|] eqn:Ef; [|exact H].
  destruct (Z.leb (timer_due t) (clock b)) eqn:Ed; [|exact H].
  rewrite bind_update_browser.
  destruct H as ((Ht & Hp & _) & Hr & Hm).
  apply find_some in Ef as [Hin _].
  assert (Hc : cancel_timer t0 t).
  { rewrite Forall_forall in Ht. apply Ht. by apply list_elem_of_In. }
  destruct Hc as (Hcb & Hper & Hdue). apply Z.leb_le in Ed.
  unfold reschedule. rewrite Hper, Hcb.
  apply grace_inv_weaken, released_grace_inv;
    apply cancel_callback_released.
  all: split; [|by split]; split; [by apply Forall_filter_keep|].
  all: split; [|intros _; simpl; lia].
  all: destruct Hp as [Hp|(res & Hp & Hle & Hcan)]; [by left|right; by exists res].
Qed.

Lemma keeps_grace_disconnect late :
  keeps (grace_inv late t0 r) ActivityWindowPort.disconnect.
Proof.
  intros p b (Hg & Hr & Hm).
  pose proof (keeps_port_disconnect _ (grace_browser_frame late t0 r) p b Hg) as H.
  destruct (port_disconnect_eq p b) as [b' E]. rewrite E in *. simpl in *.
  split; [exact H|]. split; [by left|]. intros Hn. by destruct Hn.
Qed.

Lemma keeps_grace_react i :
  quiet i -> keeps (grace_inv false t0 r) (react U i).
Proof.
  intros Hq. destruct i as [ms|id|event|event|w|]; simpl.
  - intros p b ((Ht & Hp & Hl) & Hr & Hm). split; [|by split].
    split; [exact Ht|]. split; [|intros; discriminate].
    destruct Hp as [Hp|(res & Hp & Hle & Hcan)]; [by left|right].
    exists res. split; [exact Hp|]. split; [simpl; lia|exact Hcan].
  - apply keeps_grace_fireTimer.
  - by apply keeps_grace_onWindowMessage.
  - by apply keeps_grace_onChannelMessage.
  - intros p b H. exact H.
  - apply keeps_grace_disconnect.
Qed.

Lemma grace_inv_run inputs w :
  Forall quiet inputs ->
  grace_inv false t0 r w.1 w.2 ->
  grace_inv false t0 r (run U inputs w).1 (run U inputs w).2.
Proof.
  intros Hq. revert w. induction Hq as [|i inputs Hi _ IH]; intros w H; [exact H|].
  simpl. apply IH. unfold step.
  pose proof (keeps_grace_react i Hi w.1 w.2 H) as H'.
  by destruct (react U i w.1 w.2) as [[o p] b].
Qed.
End GraceSteps.

(** *** What never touches a settled result *)

Section ResultKeeps.
Context (U : Utils) (I : ActivityWindowPort.t -> Browser -> Prop) (F : ResultFrame I).

Lemma keeps_result_browser {A} (c : M ActivityWindowPort.t A) :
  (forall p b, (c p b).1.2 = p /\ resultPromises (c p b).2 = resultPromises b) ->
  keeps I c.
Proof.
  intros Hc p b H. destruct (Hc p b) as [Hp Hb]. rewrite Hp.
  by apply (rf_browser I F p b).
Qed.

Lemma keeps_result_setTimeout cb ms : keeps I (setTimeout cb ms).
Proof. by apply keeps_result_browser. Qed.

Lemma keeps_result_resolve_connected c : keeps I (resolve_connected c).
Proof. by apply keeps_result_browser. Qed.

Lemma keeps_result_onMessenger {A} (c : M Messenger.t A) :
  (forall b0, keeps (outside_messenger b0) c) ->
  keeps I (ActivityWindowPort.onMessenger c).
Proof. apply keeps_onMessenger, F. Qed.

Lemma keeps_result_disconnect : keeps I ActivityWindowPort.disconnect.
Proof. apply keeps_port_disconnect, F. Qed.

Lemma keeps_result_result_ code data : keeps I (ActivityWindowPort.result_ U code data).
Proof.
  unfold ActivityWindowPort.result_.
  apply keeps_bind; [apply keeps_this|intros p].
  apply keeps_bind; [|intros _; apply keeps_result_teardown, F].
  destruct (ActivityWindowPort.resultResolver_ p) as [r'|]; [|apply keeps_ret].
  apply keeps_bind.
  { apply keeps_result_onMessenger. intros b0. apply keeps_isConnected. }
  intros connected. apply keeps_bind.
  { destruct connected; [|apply keeps_ret].
    apply keeps_result_onMessenger. intros b0. apply keeps_getTargetOrigin. }
  intros origin. apply keeps_bind.
  - apply (rf_resolve I F).
  - intros _. apply keeps_update. intros p1 b1 H.
    by apply (tf_resultResolver I (rf_teardown I F)).
Qed.

Lemma keeps_result_disconnectWithError_ e :
  keeps I (ActivityWindowPort.disconnectWithError_ e).
Proof.
  unfold ActivityWindowPort.disconnectWithError_.
  apply keeps_bind; [apply keeps_this|intros p].
  apply keeps_bind; [|intros _; apply keeps_result_disconnect].
  destruct (ActivityWindowPort.resultResolver_ p); [apply (rf_resolve I F)|apply keeps_ret].
Qed.

Lemma keeps_result_check_ delay : keeps I (ActivityWindowPort.check_ delay).
Proof.
  unfold ActivityWindowPort.check_.
  apply keeps_bind; [apply keeps_this|intros p].
  apply keeps_bind; [apply keeps_browser|intros b0].
  destruct (match ActivityWindowPort.targetWin_ p with Some _ => _ | None => _ end);
    [|apply keeps_ret].
  apply keeps_bind.
  { destruct (ActivityWindowPort.truthy_handle _); [|apply keeps_ret].
    apply keeps_bind; [apply keeps_port_clearInterval, F|intros _].
    apply keeps_update. intros p1 b1 H. by apply (tf_heartbeatInterval I (rf_teardown I F)). }
  intros _. apply keeps_bind; [apply keeps_result_setTimeout|intros _; apply keeps_ret].
Qed.

Lemma keeps_result_handleCommand_ cmd payload :
  keeps I (ActivityWindowPort.handleCommand_ U cmd payload).
Proof.
  unfold ActivityWindowPort.handleCommand_.
  destruct (loose_eq_str cmd "connect").
  { apply keeps_bind; [apply keeps_this|intros p].
    apply keeps_bind.
    - apply keeps_result_onMessenger. intros b0.
      apply keeps_sendStartCommand, outside_messenger_frame.
    - intros _. destruct (ActivityWindowPort.connectedResolver_ p);
        [apply keeps_result_resolve_connected|apply keeps_throw]. }
  destruct (loose_eq_str cmd "result").
  { destruct (is_nullish payload); [apply keeps_throw|apply keeps_result_result_]. }
  destruct (loose_eq_str cmd "check"); [|apply keeps_ret].
  apply keeps_bind; [apply keeps_result_setTimeout|intros _; apply keeps_ret].
Qed.

Lemma keeps_result_runTimerCallback cb :
  keeps I (ActivityWindowPort.runTimerCallback U cb).
Proof.
  destruct cb; simpl; try apply keeps_result_check_.
  apply keeps_catch; [apply keeps_result_result_|].
  intros e. apply keeps_result_disconnectWithError_.
Qed.

Lemma keeps_result_deliver d : keeps I (deliver U d).
Proof.
  destruct d as [|[|] c payload|]; simpl; try apply keeps_ret.
  apply keeps_result_handleCommand_.
Qed.

Lemma keeps_result_react i : keeps I (react U i).
Proof.
  destruct i as [ms|id|event|event|w|]; simpl.
  - by apply keeps_result_browser.
  - unfold fireTimer. apply keeps_bind; [apply keeps_browser|intros b0].
    destruct (find _ _) as [t|]; [|apply keeps_ret].
    destruct (Z.leb _ _); [|apply keeps_ret].
    apply keeps_bind; [by apply keeps_result_browser|intros _].
    apply keeps_result_runTimerCallback.
  - unfold onWindowMessage. apply keeps_bind; [apply keeps_this|intros p].
    destruct (ActivityWindowPort.messenger_ p) as [m|]; [|apply keeps_ret].
    destruct (Messenger.onCommand_ m); [|apply keeps_ret].
    apply keeps_bind; [|intros d; apply keeps_result_deliver].
    apply keeps_result_onMessenger. intros b0.
    apply keeps_handleEvent_; [apply outside_messenger_frame|apply outside_messenger_pin].
  - unfold onChannelMessage. apply keeps_bind; [apply keeps_this|intros p].
    destruct (ActivityWindowPort.messenger_ p) as [m|]; [|apply keeps_ret].
    destruct (Messenger.port_ m); [|apply keeps_ret].
    apply keeps_bind; [|intros d; apply keeps_result_deliver].
    apply keeps_result_onMessenger. intros b0.
    apply keeps_portOnMessage, outside_messenger_frame.
  - by apply keeps_result_browser.
  - apply keeps_result_disconnect.
Qed.

Lemma keeps_result_run inputs w :
  I w.1 w.2 -> I (run U inputs w).1 (run U inputs w).2.
Proof.
  revert w. induction inputs as [|i inputs IH]; intros w H; [exact H|].
  simpl. apply IH. unfold step.
  pose proof (keeps_result_react i w.1 w.2 H) as H'.
  by destruct (react U i w.1 w.2) as [[o p] b].
Qed.
End ResultKeeps.

Lemma settled_as_frame r result : ResultFrame (settled_as r result).
Proof.
  unfold settled_as. split.
  - port_frame.
  - intros r' st p b H. simpl. unfold settle.
    destruct (resultPromises b !! r') as [[]|] eqn:E; try exact H.
    rewrite lookup_insert_ne; [exact H|]. intros ->. rewrite E in H. discriminate.
  - intros p b b' H E. by rewrite E.
Qed.

(** *** The first closed observation *)

Lemma first_observation_eq U h due w r p b :
  polling h due w r p b ->
  w ∈ closedWindows b ->
  exists b',
    react U (TimerFires h) p b
    = (Ret tt, ActivityWindowPort.set_heartbeatInterval_ None p, b')
    /\ timers b' = [mkTimer (S (nextId b)) (clock b + 3000) None CancelResult]
    /\ clock b' = clock b
    /\ resultPromises b' = resultPromises b.
Proof.
  intros (Hh & Hnz & Ht & Hd & Hw & Hr & Hp & Hm) Hc.
  unfold react, fireTimer.
  rewrite bind_browser, Ht. cbn [find timer_id].
  destruct (Nat.eqb_spec h h) as [_|]; [|done].
  apply Z.leb_le in Hd. cbn [timer_due timer_callback]. rewrite Hd.
  rewrite bind_update_browser. cbn [ActivityWindowPort.runTimerCallback].
  unfold ActivityWindowPort.check_. rewrite bind_this, bind_browser, Hw, Hh.
  rewrite bool_decide_true by exact Hc.
  destruct h as [|h]; [done|]. cbn [ActivityWindowPort.truthy_handle].
  unfold clearInterval, setTimeout, fresh, emit, update, update_browser, bind, ret.
  simpl. rewrite Ht. eexists. split; [reflexivity|]. split; [|by split].
  unfold reschedule. cbn [timer_period map timer_id set_timers timers].
  destruct (Nat.eqb_spec (S h) (S h)) as [_|]; [|done].
  rewrite filter_cons_False; [reflexivity|]. simpl. intros H. by apply H.
Qed.

(** The cancellation settles a pending result with CANCELED. *)
Lemma cancel_callback_settles U r p b :
  ActivityWindowPort.resultResolver_ p = Some r ->
  ActivityWindowPort.messenger_ p <> None ->
  resultPromises b !! r = Some Pending ->
  exists result,
    resultPromises (ActivityWindowPort.runTimerCallback U CancelResult p b).2 !! r
    = Some (Fulfilled result)
    /\ canceled result.
Proof.
  intros Hr Hm Hp. destruct (ActivityWindowPort.messenger_ p) as [m|] eqn:Em; [|done].
  destruct (result__settles U (JStr ActivityResultCode.CANCELED) JNull p b r m Hr Em)
    as [Hs Hn]. cbv zeta in Hs.
  assert (Hk : settled_as r
                 (ActivityResult.constructor (JStr ActivityResultCode.CANCELED) JNull
                    POPUP (JStr (result_origin U p m))
                    (is_some (Messenger.targetOrigin_ m))
                    (is_some (Messenger.targetOrigin_ m)))
                 (ActivityWindowPort.result_ U (JStr ActivityResultCode.CANCELED) JNull p b).1.2
                 (ActivityWindowPort.result_ U (JStr ActivityResultCode.CANCELED) JNull p b).2).
  { unfold settled_as. rewrite Hs. by apply settle_pending. }
  match type of Hk with settled_as _ ?result _ _ => exists result end.
  split; [|split; reflexivity].
  unfold ActivityWindowPort.runTimerCallback, catch.
  destruct (ActivityWindowPort.result_ U _ _ p b) as [[[[]|e] p1] b1]; simpl in *;
    [exact Hk|].
  by apply (keeps_result_disconnectWithError_ _ (settled_as_frame r _)).
Qed.

(** A 'result' of the host settles a pending result promise with the
    host's code and releases the resolver. *)
Lemma host_result_settles U payload r p b :
  is_nullish payload = false ->
  ActivityWindowPort.resultResolver_ p = Some r ->
  ActivityWindowPort.messenger_ p <> None ->
  resultPromises b !! r = Some Pending ->
  let arrived := ActivityWindowPort.handleCommand_ U (JStr "result") payload p b in
  exists result,
    resultPromises arrived.2 !! r = Some (Fulfilled result)
    /\ ActivityResult.code result = get_prop payload "code"
    /\ ActivityWindowPort.resultResolver_ arrived.1.2 = None.
Proof.
  intros Hn Hr Hm Hp. cbv zeta. rewrite handleCommand__result by exact Hn.
  destruct (ActivityWindowPort.messenger_ p) as [m|] eqn:Em; [|done].
  destruct (result__settles U (get_prop payload "code")
              (if loose_eq_str (get_prop payload "code") ActivityResultCode.FAILED
               then new_Error (ToString (js_or (get_prop payload "data") (JStr "")))
               else get_prop payload "data") p b r m Hr Em) as [Hs Hnone].
  cbv zeta in Hs. eexists. split; [rewrite Hs; by apply settle_pending|].
  split; [reflexivity|exact Hnone].
Qed.




(** * Further properties of the messenger *)

(** X1. [connect] registers the command handler and one 'message'
    listener on a messenger that has no handler. On a messenger that has
    one it throws 'already connected' and changes nothing, so a second
    [connect] never replaces the first handler nor adds a listener. After
    [disconnect], [connect] succeeds again. *)
Theorem connect_registers_once :
  (forall h m b,
     Messenger.onCommand_ m = None ->
     Messenger.connect h m b
     = (Ret tt, Messenger.set_onCommand_ (Some h) m, add_log [AddEventListener] b))
  /\ (forall h h0 m b,
        Messenger.onCommand_ m = Some h0 ->
        Messenger.connect h m b = (Throw (new_Error "already connected"), m, b))
  /\ (forall h1 h2 m b,
        let first := Messenger.connect h1 m b in
        Messenger.connect h2 first.1.2 first.2
        = (Throw (new_Error "already connected"), first.1.2, first.2))
  /\ (forall h m b,
        let closed := Messenger.disconnect m b in
        Messenger.connect h closed.1.2 closed.2
        = (Ret tt, Messenger.set_onCommand_ (Some h) closed.1.2,
           add_log [AddEventListener] closed.2)).
Proof.
  assert (Hnew : forall h m b,
    Messenger.onCommand_ m = None ->
    Messenger.connect h m b
    = (Ret tt, Messenger.set_onCommand_ (Some h) m, add_log [AddEventListener] b)).
  { intros h m b H. unfold Messenger.connect. by rewrite bind_this, H. }
  assert (Hold : forall h h0 m b,
    Messenger.onCommand_ m = Some h0 ->
    Messenger.connect h m b = (Throw (new_Error "already connected"), m, b)).
  { intros h h0 m b H. unfold Messenger.connect. by rewrite bind_this, H. }
  split; [exact Hnew|]. split; [exact Hold|]. split.
  - intros h1 h2 m b. cbv zeta.
    destruct (Messenger.onCommand_ m) as [h0|] eqn:E.
    + rewrite (Hold h1 h0 m b E). simpl. by apply (Hold h2 h0).
    + rewrite (Hnew h1 m b E). simpl. apply (Hold h2 h1). by destruct m.
  - intros h m b. cbv zeta. apply Hnew. rewrite disconnect_eq.
    destruct (Messenger.onCommand_ m) eqn:E; [reflexivity|exact E].
Qed.

Lemma connect_registers_witness :
  Messenger.connect PortHandleCommand
    (Messenger.constructor sampleWindow (TargetWindow (Some 7)) None true) emptyBrowser
  = (Ret tt, popupMessenger, add_log [AddEventListener] emptyBrowser).
Proof.
  exact (proj1 connect_registers_once PortHandleCommand
           (Messenger.constructor sampleWindow (TargetWindow (Some 7)) None true)
           emptyBrowser eq_refl).
Defined.

Lemma getTarget_eq m b :
  Messenger.getTarget m b =
  match resolvedTarget m with
  | Some w => (Ret w, withTarget m, b)
  | None => (Throw (new_Error "not connected"), withTarget m, b)
  end.
Proof.
  unfold Messenger.getTarget. rewrite bind_getOptionalTarget_.
  by destruct (resolvedTarget m).
Qed.

(** X2. [getTarget] answers the peer window only once a command handler
    is set: before [connect] it throws 'not connected' without looking at
    [targetOrCallback], also when that is a window. After [connect] it
    answers the window [targetOrCallback] stands for and caches it; while
    the callback answers [null] it throws and caches nothing. A cached
    window is answered from then on, also after [disconnect]. *)
Theorem getTarget_needs_handler :
  (forall m b,
     Messenger.onCommand_ m = None -> Messenger.target_ m = None ->
     Messenger.getTarget m b = (Throw (new_Error "not connected"), m, b))
  /\ (forall h m b w,
        Messenger.onCommand_ m = None -> Messenger.target_ m = None ->
        peer_of (Messenger.targetOrCallback_ m) = Some w ->
        let connected := Messenger.connect h m b in
        Messenger.getTarget connected.1.2 connected.2
        = (Ret w, Messenger.set_target_ (Some w) connected.1.2, connected.2))
  /\ (forall h m b,
        Messenger.onCommand_ m = Some h -> Messenger.target_ m = None ->
        peer_of (Messenger.targetOrCallback_ m) = None ->
        Messenger.getTarget m b = (Throw (new_Error "not connected"), m, b))
  /\ (forall m b w,
        Messenger.target_ m = Some w ->
        Messenger.getTarget m b = (Ret w, m, b)
        /\ let closed := Messenger.disconnect m b in
           Messenger.getTarget closed.1.2 closed.2 = (Ret w, closed.1.2, closed.2)).
Proof.
  assert (Hcached : forall m b w,
    Messenger.target_ m = Some w -> Messenger.getTarget m b = (Ret w, m, b)).
  { intros m b w H. rewrite getTarget_eq. unfold withTarget, resolvedTarget.
    rewrite H. destruct (Messenger.onCommand_ m); by destruct m; simpl in *; subst. }
  split; [|split; [|split]].
  - intros m b Hc Ht. rewrite getTarget_eq. unfold withTarget, resolvedTarget.
    rewrite Hc, Ht. by destruct m; simpl in *; subst.
  - intros h m b w Hc Ht Hp. cbv zeta. unfold Messenger.connect.
    rewrite bind_this, Hc. simpl. rewrite getTarget_eq.
    unfold withTarget, resolvedTarget. destruct m; simpl in *; subst.
    unfold peer_of in Hp. destruct targetOrCallback_; by rewrite Hp.
  - intros h m b Hc Ht Hp. rewrite getTarget_eq. unfold withTarget, resolvedTarget.
    rewrite Hc, Ht. unfold peer_of in Hp.
    destruct m; simpl in *; subst. destruct targetOrCallback_; by rewrite Hp.
  - intros m b w H. split; [by apply Hcached|]. cbv zeta. apply Hcached.
    rewrite disconnect_eq. destruct (Messenger.onCommand_ m); [|exact H].
    by destruct m.
Qed.

Lemma getTarget_after_connect_witness :
  Messenger.getTarget popupMessenger (add_log [AddEventListener] emptyBrowser)
  = (Ret 7, Messenger.set_target_ (Some 7) popupMessenger,
     add_log [AddEventListener] emptyBrowser).
Proof.
  exact (proj1 (proj2 getTarget_needs_handler) PortHandleCommand
           (Messenger.constructor sampleWindow (TargetWindow (Some 7)) None true)
           emptyBrowser 7 eq_refl eq_refl eq_refl).
Defined.

(** X3. [sendConnectCommand] posts one 'connect' envelope whose payload is
    [{acceptsChannel}], true exactly on IE and Edge: on the dedicated port
    when one is installed, else to the peer window, addressed to the pinned
    origin or, while none is pinned, to '*'. An unknown origin never makes
    it throw; it throws 'not connected' only when there is neither a port
    nor a peer window, and then posts nothing. *)
Theorem sendConnectCommand_posts (U : Utils) (m : Messenger.t) (b : Browser) :
  let acceptsChannel := isIeBrowser U (Messenger.win_ m) || isEdgeBrowser U (Messenger.win_ m) in
  let data := Messenger.envelope "connect" (JObj [("acceptsChannel", JBool acceptsChannel)]) in
  let out := Messenger.sendConnectCommand U m b in
  (forall p, Messenger.port_ m = Some p ->
     out = (Ret tt, m, add_log [PortPostMessage p data None] b))
  /\ (forall w, Messenger.port_ m = None -> resolvedTarget m = Some w ->
        out = (Ret tt, withTarget m,
               add_log [WindowPostMessage w data (default "*" (Messenger.targetOrigin_ m)) None]
                 b))
  /\ (Messenger.port_ m = None -> resolvedTarget m = None ->
        out = (Throw (new_Error "not connected"), withTarget m, b))
  /\ get_prop (get_prop data "payload") "acceptsChannel" = JBool acceptsChannel.
Proof.
  cbv zeta. unfold Messenger.sendConnectCommand. rewrite bind_this.
  split; [|split; [|split]].
  - intros p Hp. by apply sendCommand_port.
  - intros w Hp Hw. rewrite sendCommand_window by exact Hp. rewrite Hw.
    by destruct (Messenger.targetOrigin_ m).
  - intros Hp Hw. rewrite sendCommand_window by exact Hp. by rewrite Hw.
  - reflexivity.
Qed.

Lemma sendConnectCommand_witness :
  Messenger.sendConnectCommand sampleUtils hostMessenger emptyBrowser
  = (Ret tt, withTarget hostMessenger,
     add_log [WindowPostMessage 5
                (Messenger.envelope "connect" (JObj [("acceptsChannel", JBool false)]))
                "*" None] emptyBrowser).
Proof.
  exact (proj1 (proj2 (sendConnectCommand_posts sampleUtils hostMessenger emptyBrowser))
           5 eq_refl eq_refl).
Defined.

Lemma sendStartCommand_plain args m b :
  truthy (Messenger.acceptsChannel_ m) && hasMessageChannel (Messenger.win_ m) = false ->
  Messenger.sendStartCommand args m b = Messenger.sendCommand "start" args None m b.
Proof. intros H. unfold Messenger.sendStartCommand. by rewrite bind_this, H. Qed.

Lemma sendStartCommand_on_port args m b p0 :
  truthy (Messenger.acceptsChannel_ m) && hasMessageChannel (Messenger.win_ m) = true ->
  Messenger.port_ m = Some p0 ->
  Messenger.sendStartCommand args m b
  = (Ret tt, Messenger.set_port_ (Some (S (nextId b))) m,
     add_log [NewMessageChannel (S (nextId b)) (S (S (nextId b)));
              PortPostMessage p0 (Messenger.envelope "start" args)
                (Some [S (S (nextId b))]);
              PortClose p0; PortSetOnMessage (S (nextId b))]
       (set_nextId (S (S (nextId b))) b)).
Proof.
  intros Hu Hp. unfold Messenger.sendStartCommand. rewrite bind_this, Hu.
  rewrite bind_new_MessageChannel. cbn [fst snd].
  unfold bind at 1. rewrite (sendCommand_port _ _ _ _ _ p0 Hp).
  unfold Messenger.switchToChannel_, closePort. rewrite bind_this, Hp.
  rewrite bind_emit, bind_update, emit_eq, !add_log_app. reflexivity.
Qed.

Lemma sendStartCommand_on_window args m b w o :
  truthy (Messenger.acceptsChannel_ m) && hasMessageChannel (Messenger.win_ m) = true ->
  Messenger.port_ m = None -> resolvedTarget m = Some w ->
  Messenger.targetOrigin_ m = Some o ->
  Messenger.sendStartCommand args m b
  = (Ret tt, Messenger.set_port_ (Some (S (nextId b))) (withTarget m),
     add_log [NewMessageChannel (S (nextId b)) (S (S (nextId b)));
              WindowPostMessage w (Messenger.envelope "start" args) o
                (Some [S (S (nextId b))]);
              PortSetOnMessage (S (nextId b))]
       (set_nextId (S (S (nextId b))) b)).
Proof.
  intros Hu Hp Hw Ho. unfold Messenger.sendStartCommand. rewrite bind_this, Hu.
  rewrite bind_new_MessageChannel. cbn [fst snd].
  unfold bind at 1. rewrite sendCommand_window by exact Hp. rewrite Hw, Ho.
  unfold Messenger.switchToChannel_, closePort. rewrite bind_this.
  destruct (withTarget_fields m) as (_ & -> & _). rewrite Hp.
  rewrite bind_ret, bind_update, emit_eq, !add_log_app. reflexivity.
Qed.

Lemma sendStartCommand_unsent args m b :
  truthy (Messenger.acceptsChannel_ m) && hasMessageChannel (Messenger.win_ m) = true ->
  Messenger.port_ m = None ->
  resolvedTarget m = None \/ Messenger.targetOrigin_ m = None ->
  Messenger.sendStartCommand args m b
  = (Throw (new_Error "not connected"), withTarget m,
     add_log [NewMessageChannel (S (nextId b)) (S (S (nextId b)))]
       (set_nextId (S (S (nextId b))) b)).
Proof.
  intros Hu Hp Hno. unfold Messenger.sendStartCommand. rewrite bind_this, Hu.
  rewrite bind_new_MessageChannel. cbn [fst snd].
  unfold bind at 1. rewrite sendCommand_window by exact Hp.
  destruct (resolvedTarget m) as [w|]; [|reflexivity].
  destruct Hno as [Hno|Hno]; [discriminate|]. by rewrite Hno.
Qed.

(** X4. [sendStartCommand] sends 'start' on the transport that is in place
    when it is called and switches to a new dedicated port only after that
    send: with [acceptsChannel_] set and [MessageChannel] available it
    creates a channel, posts 'start' with [port2] as the transferable (on
    the old port, or to the peer window at the pinned origin), closes the
    old port if there was one, and installs [port1]. When the send throws
    'not connected', the channel has been created but is not installed.
    Without the upgrade it is [sendCommand('start', args)]. *)
Theorem sendStartCommand_switches_after_send
    (args : JsValue) (m : Messenger.t) (b : Browser) :
  let upgrade := truthy (Messenger.acceptsChannel_ m) && hasMessageChannel (Messenger.win_ m) in
  let p1 := S (nextId b) in
  let p2 := S (S (nextId b)) in
  let data := Messenger.envelope "start" args in
  let out := Messenger.sendStartCommand args m b in
  (upgrade = false -> out = Messenger.sendCommand "start" args None m b)
  /\ (upgrade = true -> forall p0, Messenger.port_ m = Some p0 ->
        out = (Ret tt, Messenger.set_port_ (Some p1) m,
               add_log [NewMessageChannel p1 p2; PortPostMessage p0 data (Some [p2]);
                        PortClose p0; PortSetOnMessage p1] (set_nextId p2 b)))
  /\ (upgrade = true -> forall w o,
        Messenger.port_ m = None -> resolvedTarget m = Some w ->
        Messenger.targetOrigin_ m = Some o ->
        out = (Ret tt, Messenger.set_port_ (Some p1) (withTarget m),
               add_log [NewMessageChannel p1 p2; WindowPostMessage w data o (Some [p2]);
                        PortSetOnMessage p1] (set_nextId p2 b)))
  /\ (upgrade = true -> Messenger.port_ m = None ->
        resolvedTarget m = None \/ Messenger.targetOrigin_ m = None ->
        out = (Throw (new_Error "not connected"), withTarget m,
               add_log [NewMessageChannel p1 p2] (set_nextId p2 b)))
  /\ (forall cmd payload transfer,
        out.1.1 = Ret tt -> upgrade = true ->
        Messenger.sendCommand cmd payload transfer out.1.2 out.2
        = (Ret tt, out.1.2,
           add_log [PortPostMessage p1 (Messenger.envelope cmd payload) transfer] out.2)).
Proof.
  cbv zeta. split; [|split; [|split; [|split]]].
  - apply sendStartCommand_plain.
  - intros Hu p0 Hp. by apply sendStartCommand_on_port.
  - intros Hu w o Hp Hw Ho. by apply sendStartCommand_on_window.
  - intros Hu Hp Hno. by apply sendStartCommand_unsent.
  - intros cmd payload transfer Hret Hu. apply sendCommand_port.
    destruct (Messenger.port_ m) as [p0|] eqn:Hp.
    + rewrite (sendStartCommand_on_port args m b p0 Hu Hp). by destruct m.
    + destruct (resolvedTarget m) as [w|] eqn:Hw, (Messenger.targetOrigin_ m) as [o|] eqn:Ho.
      * rewrite (sendStartCommand_on_window args m b w o Hu Hp Hw Ho). by destruct m.
      * exfalso. revert Hret. rewrite sendStartCommand_unsent; auto. discriminate.
      * exfalso. revert Hret. rewrite sendStartCommand_unsent; auto. discriminate.
      * exfalso. revert Hret. rewrite sendStartCommand_unsent; auto. discriminate.
Qed.

Lemma sendStartCommand_witness :
  Messenger.sendStartCommand JNull (Messenger.set_port_ None channelMessenger) emptyBrowser
  = (Ret tt,
     Messenger.set_port_ (Some 1) (withTarget (Messenger.set_port_ None channelMessenger)),
     add_log [NewMessageChannel 1 2;
              WindowPostMessage 5 (Messenger.envelope "start" JNull)
                "https://client.example" (Some [2]);
              PortSetOnMessage 1] (set_nextId 2 emptyBrowser)).
Proof.
  exact (proj1 (proj2 (proj2 (sendStartCommand_switches_after_send JNull
                                (Messenger.set_port_ None channelMessenger) emptyBrowser)))
           eq_refl 5 "https://client.example" eq_refl eq_refl eq_refl).
Defined.

(** ** The listener, step by step *)

Lemma after_source_check_fields m :
  Messenger.port_ (after_source_check m) = Messenger.port_ m
  /\ Messenger.targetOrigin_ (after_source_check m) = Messenger.targetOrigin_ m
  /\ Messenger.onCommand_ (after_source_check m) = Messenger.onCommand_ m
  /\ Messenger.requireTarget_ (after_source_check m) = Messenger.requireTarget_ m.
Proof. unfold after_source_check. destruct m as [? ? ? []]; by simpl. Qed.

(** The two pinning steps of [handleEvent_]. *)
Lemma bind_pinning {B} event (k : M Messenger.t B) m b :
  ((if match Messenger.targetOrigin_ m with None => true | Some _ => false end
       && loose_eq_str (get_prop (MessageEvent.data event) "cmd") "start"
    then update (Messenger.set_targetOrigin_ (Some (MessageEvent.origin event)))
    else ret tt);;
   let* m1 := this in
   match Messenger.targetOrigin_ m1, MessageEvent.source event with
   | None, Some src =>
       let* target := Messenger.getOptionalTarget_ in
       if Messenger.option_eqb target (Some src)
       then update (Messenger.set_targetOrigin_ (Some (MessageEvent.origin event)))
       else ret tt
   | _, _ => ret tt
   end;;
   k) m b
  = k (after_pinning event m) b.
Proof.
  unfold after_pinning. cbv zeta.
  destruct (Messenger.targetOrigin_ m) as [o|] eqn:Eo; simpl is_some; simpl negb;
    simpl andb; cbv iota.
  - rewrite bind_ret, bind_this, Eo, bind_ret. reflexivity.
  - destruct (loose_eq_str _ "start").
    + rewrite bind_update, bind_this. simpl. by rewrite bind_ret.
    + rewrite bind_ret, bind_this, Eo.
      destruct (MessageEvent.source event) as [src|]; [|by rewrite bind_ret].
      rewrite bind_bind, bind_getOptionalTarget_.
      destruct (Messenger.option_eqb _ _); [by rewrite bind_update|by rewrite bind_ret].
Qed.

(** [handleEvent_] as a decision list: the source check, the sentinel, the
    channel take-over, the pinning, the origin check, and then
    [handleCommand_]. *)
Lemma handleEvent__eq event m b :
  let data := MessageEvent.data event in
  let cmd := get_prop data "cmd" in
  let payload := js_or (get_prop data "payload") JNull in
  let m1 := after_source_check m in
  let m2 := after_pinning event m1 in
  Messenger.handleEvent_ event m b =
  if negb (source_accepted event m) then (Ret NoCall, m1, b)
  else if negb (marked data) then (Ret NoCall, m1, b)
  else if negb (passes_channel_check cmd m1) then (Ret NoCall, m1, b)
  else if match Messenger.targetOrigin_ m2 with
          | Some o => negb (String.eqb (MessageEvent.origin event) o)
          | None => true
          end
       then (Ret NoCall, m2, b)
       else Messenger.handleCommand_ cmd payload event m2 b.
Proof.
  cbv zeta. unfold Messenger.handleEvent_. rewrite bind_this, bind_source_check.
  fold (after_source_check m). unfold source_accepted.
  rewrite negb_orb, negb_involutive.
  destruct (_ && negb (Messenger.option_eqb _ _)); [reflexivity|].
  unfold marked. rewrite negb_andb.
  destruct (negb (truthy _) || _); [reflexivity|].
  rewrite bind_this. unfold passes_channel_check, is_some.
  rewrite !negb_orb, negb_involutive.
  destruct (_ && negb (loose_eq_str _ "connect") && _); [reflexivity|].
  rewrite bind_pinning, bind_this.
  by destruct (match Messenger.targetOrigin_ _ with Some _ => _ | None => _ end).
Qed.

Lemma after_pinning_pinned event m o :
  Messenger.targetOrigin_ m = Some o -> after_pinning event m = m.
Proof. intros H. unfold after_pinning. cbv zeta. rewrite H. simpl. by rewrite H. Qed.

Lemma js_or_null_idem v : js_or (js_or v JNull) JNull = js_or v JNull.
Proof. unfold js_or. by destruct (truthy v) eqn:E; [rewrite E|]. Qed.

Lemma option_eqb_eq a c : Messenger.option_eqb a c = true <-> a = c.
Proof.
  destruct a as [x|], c as [y|]; simpl; try (split; [discriminate|congruence]);
    [|by split].
  rewrite Nat.eqb_eq. split; congruence.
Qed.

Lemma resolvedTarget_after_source_check m :
  resolvedTarget (after_source_check m) = resolvedTarget m.
Proof.
  unfold after_source_check. destruct (Messenger.requireTarget_ m); [|reflexivity].
  apply resolvedTarget_withTarget.
Qed.

(** X5. The envelope [sendCommand] builds is what the receiving side
    decodes. Delivered as a window message from the pinned origin (and
    from the peer window, where the source is checked), it reaches
    [handleCommand_] with the command and the payload that were sent, a
    falsy payload as [null]. Delivered on the dedicated port it does too,
    except that an envelope with the empty command is dropped there, where
    the window listener passes it on. *)
Theorem envelope_round_trip :
  (forall cmd payload event m b o,
     MessageEvent.data event = Messenger.envelope cmd payload ->
     source_accepted event m = true ->
     Messenger.targetOrigin_ m = Some o -> MessageEvent.origin event = o ->
     passes_channel_check (JStr cmd) m = true ->
     Messenger.handleEvent_ event m b
     = Messenger.handleCommand_ (JStr cmd) (js_or payload JNull) event
         (after_source_check m) b)
  /\ (forall cmd payload event m b,
        MessageEvent.data event = Messenger.envelope cmd payload ->
        Messenger.portOnMessage event m b
        = if String.eqb cmd ""
          then (Ret NoCall, m, b)
          else Messenger.handleCommand_ (JStr cmd) (js_or payload JNull) event m b).
Proof.
  split.
  - intros cmd payload event m b o Hd Hs Ho Heo Hc.
    rewrite handleEvent__eq. cbv zeta. rewrite Hs, Hd. simpl negb. cbv iota.
    change (marked (Messenger.envelope cmd payload)) with true. simpl negb. cbv iota.
    change (get_prop (Messenger.envelope cmd payload) "cmd") with (JStr cmd).
    change (get_prop (Messenger.envelope cmd payload) "payload") with (js_or payload JNull).
    destruct (after_source_check_fields m) as (Hp & Hto & _).
    assert (Hc' : passes_channel_check (JStr cmd) (after_source_check m) = true).
    { revert Hc. unfold passes_channel_check. by rewrite Hp. }
    rewrite Hc'. simpl negb. cbv iota.
    rewrite (after_pinning_pinned event _ o) by (by rewrite Hto).
    rewrite Hto, Ho, Heo, String.eqb_refl, js_or_null_idem. reflexivity.
  - intros cmd payload event m b Hd. unfold Messenger.portOnMessage. cbv zeta.
    rewrite Hd.
    change (js_and (Messenger.envelope cmd payload)
              (get_prop (Messenger.envelope cmd payload) "cmd")) with (JStr cmd).
    change (js_and (Messenger.envelope cmd payload)
              (get_prop (Messenger.envelope cmd payload) "payload"))
      with (js_or payload JNull).
    rewrite js_or_null_idem. unfold truthy. by destruct (String.eqb cmd "").
Qed.

Lemma envelope_round_trip_witness :
  Messenger.handleEvent_ clientStart channelMessenger emptyBrowser
  = Messenger.handleCommand_ (JStr "start") JNull clientStart
      (after_source_check channelMessenger) emptyBrowser.
Proof.
  exact (proj1 envelope_round_trip "start" JNull clientStart channelMessenger emptyBrowser
           "https://client.example" eq_refl eq_refl eq_refl eq_refl eq_refl).
Defined.

(** X6. A command that is none of 'connect', 'start', 'msg', 'cnget' and
    'cnset' goes to the command handler as it came, and the messenger is
    left as it was; without a handler the call throws. A 'msg' goes to the
    custom-message callback only, when one is registered and the payload
    is not [null]; otherwise it is dropped without an error and without a
    trace. *)
Theorem application_commands_pass_through :
  (forall cmd payload event m b h,
     is_protocol_command cmd = false -> Messenger.onCommand_ m = Some h ->
     Messenger.handleCommand_ cmd payload event m b
     = (Ret (ToOnCommand h cmd payload), m, add_log [CallOnCommand h cmd payload] b))
  /\ (forall cmd payload event m b,
        is_protocol_command cmd = false -> Messenger.onCommand_ m = None ->
        exists e, Messenger.handleCommand_ cmd payload event m b = (Throw e, m, b))
  /\ (forall payload event m b,
        Messenger.handleCommand_ (JStr "msg") payload event m b
        = match Messenger.onCustomMessage_ m with
          | Some h =>
              if is_nullish payload then (Ret NoCall, m, b)
              else (Ret (ToOnCustomMessage h payload), m,
                    add_log [CallOnCustomMessage h payload] b)
          | None => (Ret NoCall, m, b)
          end).
Proof.
  assert (Happ : forall cmd payload event m b,
    is_protocol_command cmd = false ->
    Messenger.handleCommand_ cmd payload event m b = Messenger.callOnCommand cmd payload m b).
  { intros cmd payload event m b H. unfold is_protocol_command in H.
    repeat (apply orb_false_elim in H as [H ?]).
    unfold Messenger.handleCommand_.
    repeat match goal with E : loose_eq_str _ _ = false |- _ => rewrite E; clear E end.
    reflexivity. }
  split; [|split].
  - intros cmd payload event m b h Hc Hh. rewrite Happ by exact Hc.
    unfold Messenger.callOnCommand. by rewrite bind_this, Hh.
  - intros cmd payload event m b Hc Hh. rewrite Happ by exact Hc.
    unfold Messenger.callOnCommand. rewrite bind_this, Hh. by eexists.
  - intros payload event m b. unfold Messenger.handleCommand_. simpl.
    rewrite bind_this. destruct (Messenger.onCustomMessage_ m); [|reflexivity].
    by destruct (is_nullish payload).
Qed.

Lemma application_command_witness :
  Messenger.handleCommand_ (JStr "close") JNull clientStart hostMessenger emptyBrowser
  = (Ret (ToOnCommand (ClientCallback 0) (JStr "close") JNull), hostMessenger,
     add_log [CallOnCommand (ClientCallback 0) (JStr "close") JNull] emptyBrowser).
Proof.
  exact (proj1 application_commands_pass_through (JStr "close") JNull clientStart
           hostMessenger emptyBrowser (ClientCallback 0) eq_refl eq_refl).
Defined.

(** X7. With [requireTarget_] set, a window message whose source is not
    the peer window is dropped before its data is looked at: no callback
    is called, nothing is sent, the origin is neither pinned nor compared,
    and the messenger changes only by caching the peer window. *)
Theorem foreign_source_is_dropped (event : MessageEvent.t) (m : Messenger.t) (b : Browser) :
  Messenger.requireTarget_ m = true ->
  resolvedTarget m <> MessageEvent.source event ->
  Messenger.handleEvent_ event m b = (Ret NoCall, withTarget m, b)
  /\ Messenger.targetOrigin_ (Messenger.handleEvent_ event m b).1.2
     = Messenger.targetOrigin_ m.
Proof.
  intros Hr Hs.
  assert (E : Messenger.handleEvent_ event m b = (Ret NoCall, withTarget m, b)).
  { rewrite handleEvent__eq. cbv zeta. unfold source_accepted, after_source_check.
    rewrite Hr. simpl negb. simpl orb.
    destruct (Messenger.option_eqb _ _) eqn:E; [|reflexivity].
    by apply option_eqb_eq in E. }
  split; [exact E|]. rewrite E. by destruct m.
Qed.

Lemma foreign_source_witness :
  Messenger.handleEvent_ strangerStart popupMessenger emptyBrowser
  = (Ret NoCall, withTarget popupMessenger, emptyBrowser).
Proof.
  apply (foreign_source_is_dropped strangerStart popupMessenger emptyBrowser);
    [reflexivity|discriminate].
Defined.

(** X8. Once a dedicated port is installed, the window listener ignores
    every message but 'connect' and 'start'. A 'connect' from the pinned
    origin is let through for a new negotiation: it closes and drops the
    dedicated port, takes [acceptsChannel_] from its payload and calls the
    command handler, so that what is sent next goes to the peer window
    again. *)
Theorem window_listener_after_channel_upgrade :
  (forall event m b p,
     Messenger.port_ m = Some p ->
     loose_eq_str (get_prop (MessageEvent.data event) "cmd") "connect" = false ->
     loose_eq_str (get_prop (MessageEvent.data event) "cmd") "start" = false ->
     Messenger.handleEvent_ event m b = (Ret NoCall, after_source_check m, b))
  /\ (forall event m b p o h,
        let data := MessageEvent.data event in
        let cmd := get_prop data "cmd" in
        let payload := js_or (get_prop data "payload") JNull in
        Messenger.port_ m = Some p -> Messenger.onCommand_ m = Some h ->
        Messenger.targetOrigin_ m = Some o -> MessageEvent.origin event = o ->
        source_accepted event m = true -> marked data = true ->
        loose_eq_str cmd "connect" = true ->
        let out := Messenger.handleEvent_ event m b in
        out = (Ret (ToOnCommand h cmd payload),
               Messenger.set_acceptsChannel_
                 (js_or (js_and payload (get_prop payload "acceptsChannel")) (JBool false))
                 (Messenger.set_port_ None (after_source_check m)),
               add_log [PortClose p; CallOnCommand h cmd payload] b)
        /\ forall c pl t w,
             resolvedTarget m = Some w ->
             exists m',
               Messenger.sendCommand c pl t out.1.2 out.2
               = (Ret tt, m', add_log [WindowPostMessage w (Messenger.envelope c pl) o t] out.2)).
Proof.
  split.
  - intros event m b p Hp Hc Hs. rewrite handleEvent__eq. cbv zeta.
    destruct (negb (source_accepted event m)); [reflexivity|].
    destruct (negb (marked _)); [reflexivity|].
    unfold passes_channel_check.
    destruct (after_source_check_fields m) as (-> & _). by rewrite Hp, Hc, Hs.
  - intros event m b p o h data cmd payload Hp Hh Ho Heo Hs Hm Hc out.
    destruct (after_source_check_fields m) as (Hp1 & Ho1 & Hh1 & _).
    pose proof (resolvedTarget_after_source_check m) as Hw1.
    rewrite Hp in Hp1. rewrite Ho in Ho1. rewrite Hh in Hh1.
    assert (E : out = (Ret (ToOnCommand h cmd payload),
               Messenger.set_acceptsChannel_
                 (js_or (js_and payload (get_prop payload "acceptsChannel")) (JBool false))
                 (Messenger.set_port_ None (after_source_check m)),
               add_log [PortClose p; CallOnCommand h cmd payload] b)).
    { unfold out. rewrite handleEvent__eq. cbv zeta. fold data cmd payload.
      rewrite Hs, Hm. simpl negb. cbv iota.
      unfold passes_channel_check. rewrite Hc, orb_true_r. simpl negb. cbv iota.
      rewrite (after_pinning_pinned event _ o) by exact Ho1.
      rewrite Ho1, Heo, String.eqb_refl. simpl negb. cbv iota.
      unfold Messenger.handleCommand_. rewrite Hc, bind_this, Hp1.
      unfold closePort. rewrite !bind_bind, bind_emit, bind_update, bind_update.
      unfold Messenger.callOnCommand. rewrite bind_this.
      replace (Messenger.onCommand_ _) with (Some h)
        by (rewrite <- Hh1; by destruct (after_source_check m)).
      rewrite bind_emit, add_log_app. reflexivity. }
    split; [exact E|]. intros c pl t w Hw. rewrite E. cbn [fst snd].
    set (m2 := Messenger.set_acceptsChannel_ _ _).
    assert (Hw2 : resolvedTarget m2 = Some w).
    { rewrite <- Hw, <- Hw1. unfold m2. by destruct (after_source_check m). }
    assert (Ho2 : Messenger.targetOrigin_ m2 = Some o).
    { rewrite <- Ho1. unfold m2. by destruct (after_source_check m). }
    exists (withTarget m2).
    rewrite sendCommand_window by (unfold m2; by destruct (after_source_check m)).
    by rewrite Hw2, Ho2.
Qed.

Lemma reconnect_over_window_witness :
  (Messenger.handleEvent_ clientReconnect channelMessenger emptyBrowser).2
  = add_log [PortClose 9;
             CallOnCommand (ClientCallback 0) (JStr "connect")
               (JObj [("acceptsChannel", JBool false)])] emptyBrowser.
Proof.
  pose proof (proj2 window_listener_after_channel_upgrade clientReconnect channelMessenger
                emptyBrowser 9 "https://client.example" (ClientCallback 0)
                eq_refl eq_refl eq_refl eq_refl eq_refl eq_refl eq_refl) as H.
  cbv zeta in H. destruct H as [H _]. exact (f_equal snd H).
Defined.

Lemma after_pinning_same_but_peer event m : same_but_peer m (after_pinning event m).
Proof.
  unfold after_pinning, same_but_peer, withTarget. cbv zeta.
  destruct m as [w toc o rt tg ac p oc ocm ch]; simpl.
  destruct o; simpl; [by repeat split|].
  destruct (loose_eq_str _ "start"); simpl; [by repeat split|].
  destruct (MessageEvent.source event); [|by repeat split].
  destruct (Messenger.option_eqb _ _); by repeat split.
Qed.

Lemma after_source_check_same_but_peer m : same_but_peer m (after_source_check m).
Proof.
  unfold after_source_check, same_but_peer, withTarget.
  destruct m as [w toc o rt tg ac p oc ocm ch]; simpl. destruct rt; by repeat split.
Qed.

Lemma same_but_peer_trans m1 m2 m3 :
  same_but_peer m1 m2 -> same_but_peer m2 m3 -> same_but_peer m1 m3.
Proof. unfold same_but_peer. intros H1 H2. intuition congruence. Qed.

Lemma after_pinning_origin event m :
  Messenger.targetOrigin_ m = None ->
  Messenger.targetOrigin_ (after_pinning event m)
  = if trusted_first event m then Some (MessageEvent.origin event) else None.
Proof.
  intros Ho. unfold after_pinning, trusted_first. cbv zeta. rewrite Ho. simpl.
  destruct (loose_eq_str _ "start"); simpl; [reflexivity|]. rewrite Ho.
  destruct (MessageEvent.source event) as [src|]; [|exact Ho].
  destruct (Messenger.option_eqb _ _); [reflexivity|].
  destruct (withTarget_fields m) as (_ & _ & -> & _). exact Ho.
Qed.



(** ** Sub-channels *)

Lemma getChannelObj__fresh name m b :
  holder_of (ToString name) m = None ->
  let p := S (nextId b) in
  let h := mkChannelHolder p p None None in
  Messenger.getChannelObj_ name m b
  = (Ret (ToString name, h), with_holder (ToString name) h m, with_channelPromise p b).
Proof.
  intros Hh. cbv zeta. unfold Messenger.getChannelObj_, with_holder, with_channelPromise.
  cbv zeta. rewrite bind_this. unfold holder_of in Hh.
  destruct m as [w toc o rt tg ac p oc ocm [chans|]]; simpl in *.
  - rewrite bind_ret, bind_this. simpl. rewrite Hh.
    unfold new_channelPromise, fresh, bind, update_browser, update, ret. reflexivity.
  - rewrite bind_update, bind_this. simpl. rewrite lookup_empty.
    unfold new_channelPromise, fresh, bind, update_browser, update, ret. reflexivity.
Qed.

Lemma holder_of_with_holder key h m : holder_of key (with_holder key h m) = Some h.
Proof. unfold with_holder. apply holder_of_set. Qed.

Lemma with_holder_fields key h m :
  Messenger.port_ (with_holder key h m) = Messenger.port_ m
  /\ Messenger.targetOrigin_ (with_holder key h m) = Messenger.targetOrigin_ m
  /\ resolvedTarget (with_holder key h m) = resolvedTarget m
  /\ Messenger.win_ (with_holder key h m) = Messenger.win_ m.
Proof. by destruct m. Qed.

Lemma channel_key_string n : channel_key (JStr n) = n.
Proof.
  unfold channel_key, js_or, truthy. destruct (String.eqb_spec n ""); by subst.
Qed.

Lemma js_or_string_name n : ToString (js_or (JStr n) (JStr "")) = n.
Proof. exact (channel_key_string n). Qed.

(** What [sendCommand] leaves of the channel holders and of the channel
    promises. *)
Lemma sendCommand_keeps_channels cmd payload transfer m b :
  let out := Messenger.sendCommand cmd payload transfer m b in
  (forall key, holder_of key out.1.2 = holder_of key m)
  /\ channelPromises out.2 = channelPromises b
  /\ nextId out.2 = nextId b
  /\ Messenger.port_ out.1.2 = Messenger.port_ m.
Proof.
  cbv zeta. destruct (Messenger.port_ m) as [p|] eqn:Hp.
  - rewrite (sendCommand_port _ _ _ _ _ p Hp). by repeat split.
  - rewrite sendCommand_window by exact Hp.
    destruct (resolvedTarget m), (Messenger.targetOrigin_ m), (String.eqb cmd "connect");
      simpl; repeat split; try (intros; apply holder_of_withTarget);
      by destruct m.
Qed.

Lemma receiveChannel__with_holder name port m b h :
  holder_of (ToString name) m = Some h ->
  Messenger.receiveChannel_ name port m b
  = (Ret tt,
     with_holder (ToString name)
       (mkChannelHolder (promise h) (resolver h) port (port2 h)) m,
     set_channelPromises
       (settle (resolver h) (Fulfilled port) (channelPromises b))
       (add_log [ResolveChannel (resolver h) port] b)).
Proof.
  intros Hh. unfold Messenger.receiveChannel_.
  rewrite (bind_getChannelObj_ _ _ _ _ h Hh). rewrite bind_setChannelObj.
  unfold resolve_channel. rewrite bind_emit. reflexivity.
Qed.



Lemma can_send_sendCommand cmd payload transfer m b :
  can_send m = true ->
  exists e m',
    Messenger.sendCommand cmd payload transfer m b = (Ret tt, m', add_log [e] b)
    /\ post_of (Messenger.envelope cmd payload) transfer e
    /\ (forall key, holder_of key m' = holder_of key m)
    /\ Messenger.win_ m' = Messenger.win_ m.
Proof.
  unfold can_send. intros H. destruct (Messenger.port_ m) as [p|] eqn:Hp.
  - rewrite (sendCommand_port _ _ _ _ _ p Hp). eexists _, m. by repeat split.
  - rewrite sendCommand_window by exact Hp. simpl in H.
    destruct (resolvedTarget m) as [w|]; [|discriminate].
    destruct (Messenger.targetOrigin_ m) as [o|]; [|discriminate].
    eexists _, (withTarget m). repeat split; try reflexivity.
    all: intros; first [apply holder_of_withTarget|by destruct m].
Qed.

Lemma cannot_send_sendCommand cmd payload transfer m b :
  can_send m = false -> cmd <> "connect" ->
  Messenger.sendCommand cmd payload transfer m b
  = (Throw (new_Error "not connected"), withTarget m, b).
Proof.
  unfold can_send. intros H Hc. apply String.eqb_neq in Hc.
  destruct (Messenger.port_ m) as [p|] eqn:Hp; [discriminate|].
  rewrite sendCommand_window by exact Hp. simpl in H.
  destruct (resolvedTarget m) as [w|]; [|reflexivity].
  destruct (Messenger.targetOrigin_ m) as [o|]; [discriminate|]. by rewrite Hc.
Qed.

Lemma with_holder_twice key h h' m :
  with_holder key h' (with_holder key h m) = with_holder key h' m.
Proof.
  unfold with_holder. destruct m as [w toc o rt tg ac p oc ocm ch]; simpl.
  by rewrite insert_insert_eq.
Qed.



(** ** Invariants of sessions that read the log *)

Create HintDb logkeeps discriminated.

Ltac logkeeps_auto := repeat (first [ keeps_step | solve [eauto with logkeeps] ]).

Section MessengerLogKeeps.
Context (I : Messenger.t -> Browser -> Prop) (F : LogFrame I).

Lemma lkeeps_emit e : internal_effect e = true -> keeps I (emit e).
Proof. intros He m b H. by apply (lf_internal I F). Qed.

Lemma lkeeps_fresh : keeps I fresh.
Proof. intros m b H. by apply (lf_browser I F m b). Qed.

Lemma lkeeps_browser_channel f :
  keeps I (update_browser (fun b => set_channelPromises (f b) b)).
Proof. intros m b H. by apply (lf_browser I F m b). Qed.

Lemma lkeeps_closePort p : keeps I (closePort p).
Proof. by apply lkeeps_emit. Qed.

Lemma lkeeps_resolve_channel p port : keeps I (resolve_channel p port).
Proof.
  unfold resolve_channel. apply keeps_bind; [by apply lkeeps_emit|intros _].
  apply lkeeps_browser_channel.
Qed.

Lemma lkeeps_new_MessageChannel : keeps I new_MessageChannel.
Proof.
  unfold new_MessageChannel.
  apply keeps_bind; [apply lkeeps_fresh|intros p1].
  apply keeps_bind; [apply lkeeps_fresh|intros p2].
  apply keeps_bind; [by apply lkeeps_emit|intros _]. apply keeps_ret.
Qed.

Lemma lkeeps_new_channelPromise : keeps I new_channelPromise.
Proof.
  unfold new_channelPromise.
  apply keeps_bind; [apply lkeeps_fresh|intros p].
  apply keeps_bind; [apply lkeeps_browser_channel|intros _]. apply keeps_ret.
Qed.

Lemma lkeeps_set_port_ x : keeps I (update (Messenger.set_port_ x)).
Proof. apply keeps_update. intros. by apply (lf_port I F). Qed.

Lemma lkeeps_set_acceptsChannel_ x : keeps I (update (Messenger.set_acceptsChannel_ x)).
Proof. apply keeps_update. intros. by apply (lf_acceptsChannel I F). Qed.

Lemma lkeeps_set_onCustomMessage_ x : keeps I (update (Messenger.set_onCustomMessage_ x)).
Proof. apply keeps_update. intros. by apply (lf_onCustomMessage I F). Qed.

Lemma lkeeps_set_channels_ x : keeps I (update (Messenger.set_channels_ x)).
Proof. apply keeps_update. intros. by apply (lf_channels I F). Qed.

Lemma lkeeps_getOptionalTarget_ : keeps I Messenger.getOptionalTarget_.
Proof. intros m b H. rewrite getOptionalTarget__eq. simpl. by apply (lf_target I F). Qed.

Hint Resolve lkeeps_fresh lkeeps_browser_channel lkeeps_closePort lkeeps_resolve_channel
  lkeeps_new_MessageChannel lkeeps_new_channelPromise lkeeps_set_port_
  lkeeps_set_acceptsChannel_ lkeeps_set_onCustomMessage_ lkeeps_set_channels_
  lkeeps_getOptionalTarget_ : logkeeps.

Lemma lkeeps_sendCommand cmd payload transfer :
  keeps I (Messenger.sendCommand cmd payload transfer).
Proof. apply (lf_sendCommand I F). Qed.

Lemma lkeeps_callOnCommand cmd payload : keeps I (Messenger.callOnCommand cmd payload).
Proof. apply (lf_callOnCommand I F). Qed.

Lemma lkeeps_callOnCustomMessage h payload : keeps I (emit (CallOnCustomMessage h payload)).
Proof. apply (lf_callOnCustomMessage I F). Qed.

Lemma lkeeps_connect h : keeps I (Messenger.connect h).
Proof. apply (lf_connect I F). Qed.

Lemma lkeeps_disconnect : keeps I Messenger.disconnect.
Proof. apply (lf_disconnect I F). Qed.

Hint Resolve lkeeps_sendCommand lkeeps_callOnCommand lkeeps_callOnCustomMessage
  lkeeps_connect lkeeps_disconnect : logkeeps.

Lemma lkeeps_isConnected : keeps I Messenger.isConnected.
Proof. unfold Messenger.isConnected. logkeeps_auto. Qed.

Lemma lkeeps_getTarget : keeps I Messenger.getTarget.
Proof. unfold Messenger.getTarget. logkeeps_auto. Qed.

Lemma lkeeps_getTargetOrigin : keeps I Messenger.getTargetOrigin.
Proof. unfold Messenger.getTargetOrigin. logkeeps_auto. Qed.

Lemma lkeeps_sendConnectCommand U : keeps I (Messenger.sendConnectCommand U).
Proof. unfold Messenger.sendConnectCommand. logkeeps_auto. Qed.

Lemma lkeeps_switchToChannel_ p : keeps I (Messenger.switchToChannel_ p).
Proof.
  unfold Messenger.switchToChannel_.
  apply keeps_bind; [apply keeps_this|intros m].
  apply keeps_bind; [destruct (Messenger.port_ m); logkeeps_auto|intros _].
  apply keeps_bind; [logkeeps_auto|intros _]. by apply lkeeps_emit.
Qed.

Hint Resolve lkeeps_switchToChannel_ : logkeeps.

Lemma lkeeps_sendStartCommand args : keeps I (Messenger.sendStartCommand args).
Proof. unfold Messenger.sendStartCommand. logkeeps_auto. Qed.

Lemma lkeeps_customMessage payload : keeps I (Messenger.customMessage payload).
Proof. unfold Messenger.customMessage. logkeeps_auto. Qed.

Lemma lkeeps_onCustomMessage h : keeps I (Messenger.onCustomMessage h).
Proof. unfold Messenger.onCustomMessage. logkeeps_auto. Qed.

Lemma lkeeps_getChannelObj_ name : keeps I (Messenger.getChannelObj_ name).
Proof. unfold Messenger.getChannelObj_. logkeeps_auto. Qed.

Lemma lkeeps_setChannelObj key h : keeps I (Messenger.setChannelObj key h).
Proof.
  unfold Messenger.setChannelObj. apply keeps_update. intros. by apply (lf_channels I F).
Qed.

Hint Resolve lkeeps_getChannelObj_ lkeeps_setChannelObj : logkeeps.

Lemma lkeeps_startChannel name : keeps I (Messenger.startChannel name).
Proof. unfold Messenger.startChannel. logkeeps_auto. Qed.

Lemma lkeeps_askChannel name : keeps I (Messenger.askChannel name).
Proof. unfold Messenger.askChannel. logkeeps_auto. Qed.

Lemma lkeeps_receiveChannel_ name port : keeps I (Messenger.receiveChannel_ name port).
Proof. unfold Messenger.receiveChannel_. logkeeps_auto. Qed.

Lemma lkeeps_payload_name payload : keeps I (Messenger.payload_name payload).
Proof. unfold Messenger.payload_name. logkeeps_auto. Qed.

Hint Resolve lkeeps_startChannel lkeeps_receiveChannel_ lkeeps_payload_name : logkeeps.

Lemma lkeeps_handleCommand_ cmd payload event :
  keeps I (Messenger.handleCommand_ cmd payload event).
Proof. unfold Messenger.handleCommand_. logkeeps_auto. Qed.

Lemma lkeeps_portOnMessage event : keeps I (Messenger.portOnMessage event).
Proof.
  unfold Messenger.portOnMessage. cbv zeta.
  destruct (truthy _); [apply lkeeps_handleCommand_|apply keeps_ret].
Qed.

Lemma lkeeps_after_source_check m b : I m b -> I (after_source_check m) b.
Proof.
  unfold after_source_check. destruct (Messenger.requireTarget_ m); [|done].
  by apply (lf_target I F).
Qed.

Lemma lkeeps_after_pinning event m b : I m b -> I (after_pinning event m) b.
Proof.
  intros H. unfold after_pinning. cbv zeta.
  destruct (Messenger.targetOrigin_ m) as [o|] eqn:Eo; simpl; [by rewrite Eo|].
  destruct (loose_eq_str _ "start"); simpl; [by apply (lf_pin I F)|]. rewrite Eo.
  destruct (MessageEvent.source event); [|done].
  destruct (Messenger.option_eqb _ _); [|by apply (lf_target I F)].
  apply (lf_pin I F); [by apply (lf_target I F)|].
  destruct (withTarget_fields m) as (_ & _ & -> & _). exact Eo.
Qed.

Lemma lkeeps_handleEvent_ event : keeps I (Messenger.handleEvent_ event).
Proof.
  intros m b H. rewrite handleEvent__eq. cbv zeta.
  pose proof (lkeeps_after_source_check m b H) as H1.
  pose proof (lkeeps_after_pinning event _ b H1) as H2.
  destruct (negb (source_accepted event m)); [exact H1|].
  destruct (negb (marked _)); [exact H1|].
  destruct (negb (passes_channel_check _ _)); [exact H1|].
  destruct (match Messenger.targetOrigin_ _ with Some _ => _ | None => _ end); [exact H2|].
  by apply lkeeps_handleCommand_.
Qed.

Lemma lkeeps_seq_ret {A} (c : M Messenger.t A) : keeps I c -> keeps I (c;; ret tt).
Proof. intros Hc. apply keeps_bind; [exact Hc|intros _; apply keeps_ret]. Qed.

Lemma lkeeps_perform U c : keeps I (perform U c).
Proof.
  destruct c; simpl;
    try (apply lkeeps_seq_ret);
    eauto using lkeeps_isConnected, lkeeps_getTarget, lkeeps_getTargetOrigin,
      lkeeps_sendConnectCommand, lkeeps_sendStartCommand, lkeeps_customMessage,
      lkeeps_onCustomMessage, lkeeps_askChannel with logkeeps.
  - apply keeps_bind; [apply keeps_this|intros m].
    destruct (Messenger.onCommand_ m); [|apply keeps_ret].
    apply lkeeps_seq_ret, lkeeps_handleEvent_.
  - apply keeps_bind; [apply keeps_this|intros m].
    destruct (Messenger.port_ m); [|apply keeps_ret].
    apply lkeeps_seq_ret, lkeeps_portOnMessage.
Qed.

Lemma lkeeps_session U calls mb :
  I mb.1 mb.2 -> I (session U calls mb).1 (session U calls mb).2.
Proof.
  revert mb. induction calls as [|c calls IH]; intros mb H; [exact H|].
  simpl. apply IH. unfold session_step. simpl. by apply lkeeps_perform.
Qed.
End MessengerLogKeeps.

(** *** Window posts are addressed to the pinned origin *)

Lemma posts_addressed_add l0 m b es :
  posts_addressed l0 m b ->
  Forall (addressed_ok (Messenger.targetOrigin_ m)) es ->
  posts_addressed l0 m (add_log es b).
Proof.
  intros (es0 & Hl & Hok) Hes. exists (es0 ++ es)%list. split.
  - rewrite log_add_log, Hl. by rewrite app_assoc.
  - by apply Forall_app.
Qed.

Lemma posts_addressed_state l0 m m' b :
  Messenger.targetOrigin_ m' = Messenger.targetOrigin_ m ->
  posts_addressed l0 m b -> posts_addressed l0 m' b.
Proof. intros E (es & Hl & Hok). exists es. by rewrite E. Qed.

Lemma internal_effect_addressed o e : internal_effect e = true -> addressed_ok o e.
Proof. by destruct e. Qed.

Lemma channel_closes_addressed o l : Forall (addressed_ok o) (channel_closes l).
Proof.
  induction l as [|[k h] l IH]; simpl; [constructor|].
  destruct (port1 h), (port2 h); simpl; repeat constructor; exact IH.
Qed.

Lemma posts_addressed_frame l0 : LogFrame (posts_addressed l0).
Proof.
  split.
  - intros m b b' (es & Hl & Hok) E. exists es. by rewrite E.
  - intros m b e He H. apply posts_addressed_add; [exact H|].
    constructor; [by apply internal_effect_addressed|constructor].
  - intros m b. apply posts_addressed_state. by destruct m.
  - intros m b x. apply posts_addressed_state. by destruct m.
  - intros m b x. apply posts_addressed_state. by destruct m.
  - intros m b x. apply posts_addressed_state. by destruct m.
  - intros m b x. apply posts_addressed_state. by destruct m.
  - intros m b o (es & Hl & Hok) Ho. exists es. split; [exact Hl|].
    eapply Forall_impl; [exact Hok|]. intros e. rewrite Ho.
    destruct e; simpl; try done. intros [H|H]; [by left|discriminate].
  - intros h m b H. unfold Messenger.connect. rewrite bind_this.
    destruct (Messenger.onCommand_ m); [exact H|]. simpl.
    apply (posts_addressed_add l0 _ b [AddEventListener]).
    + revert H. apply posts_addressed_state. by destruct m.
    + by repeat constructor.
  - intros m b H. rewrite disconnect_eq.
    destruct (Messenger.onCommand_ m); [|exact H]. simpl.
    apply posts_addressed_add.
    + revert H. apply posts_addressed_state. by destruct m.
    + unfold disconnect_effects. apply Forall_app. split.
      { destruct (Messenger.port_ m); by repeat constructor. }
      apply Forall_app. split; [by repeat constructor|].
      destruct (Messenger.channels_ m); [apply channel_closes_addressed|constructor].
  - intros cmd payload transfer m b H.
    destruct (Messenger.port_ m) as [p|] eqn:Hp.
    + rewrite (sendCommand_port _ _ _ _ _ p Hp). simpl.
      apply posts_addressed_add; [exact H|]. by repeat constructor.
    + rewrite sendCommand_window by exact Hp.
      assert (Hw : posts_addressed l0 (withTarget m) b).
      { revert H. apply posts_addressed_state. by destruct m. }
      assert (Ho : Messenger.targetOrigin_ (withTarget m) = Messenger.targetOrigin_ m)
        by by destruct m.
      destruct (resolvedTarget m) as [w|]; [|exact Hw].
      destruct (Messenger.targetOrigin_ m) as [o|] eqn:Eo.
      * simpl. apply posts_addressed_add; [exact Hw|].
        constructor; [|constructor]. right. by rewrite Ho.
      * destruct (String.eqb_spec cmd "connect") as [->|]; [|exact Hw].
        simpl. apply posts_addressed_add; [exact Hw|].
        constructor; [|constructor]. by left.
  - intros cmd payload m b H. unfold Messenger.callOnCommand. rewrite bind_this.
    destruct (Messenger.onCommand_ m); [|exact H]. simpl.
    apply (posts_addressed_add l0 m b [CallOnCommand _ _ _]); [exact H|].
    by repeat constructor.
  - intros h payload m b H. simpl.
    apply (posts_addressed_add l0 m b [CallOnCustomMessage _ _]); [exact H|].
    by repeat constructor.
Qed.

(** X12. Whatever a messenger is asked to do and whatever reaches it, it
    posts to the peer window only at the pinned origin; the one exception
    is 'connect', which goes to '*' while no origin is pinned. This holds
    for every window post of a session, the replies the messenger sends on
    its own ('cnset' on a 'cnget') included, and whatever state the
    session starts in. *)
Theorem window_posts_go_to_pinned_origin
    (U : Utils) (m0 : Messenger.t) (b0 : Browser) (calls : list MessengerCall) :
  let final := session U calls (m0, b0) in
  exists es,
    log final.2 = (log b0 ++ es)%list
    /\ forall w data targetOrigin transfer,
         In (WindowPostMessage w data targetOrigin transfer) es ->
         (get_prop data "cmd" = JStr "connect" /\ targetOrigin = "*")
         \/ Messenger.targetOrigin_ final.1 = Some targetOrigin.
Proof.
  cbv zeta.
  destruct (lkeeps_session _ (posts_addressed_frame (log b0)) U calls (m0, b0))
    as (es & Hl & Hok).
  { exists []. split; [by rewrite app_nil_r|constructor]. }
  exists es. split; [exact Hl|]. intros w data o t Hin.
  rewrite Forall_forall in Hok. apply (Hok (WindowPostMessage w data o t)).
  by apply list_elem_of_In.
Qed.

(** *** The listener is registered while a handler is set *)

Lemma registrations_app es es' :
  registrations (es ++ es') = (registrations es + registrations es')%Z.
Proof. induction es as [|[] es IH]; simpl; lia. Qed.

Lemma registrations_internal es :
  Forall (fun e => e <> AddEventListener /\ e <> RemoveEventListener) es ->
  registrations es = 0%Z.
Proof. induction 1 as [|e es [H1 H2] _ IH]; [reflexivity|]. by destruct e. Qed.

Lemma registrations_channel_closes l : registrations (channel_closes l) = 0%Z.
Proof.
  induction l as [|[k h] l IH]; [reflexivity|]. simpl.
  destruct (port1 h), (port2 h); simpl; exact IH.
Qed.

Lemma listener_balanced_add n0 m b es :
  registrations es = 0%Z -> listener_balanced n0 m b -> listener_balanced n0 m (add_log es b).
Proof.
  unfold listener_balanced. intros He H. rewrite log_add_log, registrations_app. lia.
Qed.

Lemma listener_balanced_state n0 m m' b :
  Messenger.onCommand_ m' = Messenger.onCommand_ m ->
  listener_balanced n0 m b -> listener_balanced n0 m' b.
Proof. unfold listener_balanced, handler_count. by intros ->. Qed.

Lemma listener_balanced_frame n0 : LogFrame (listener_balanced n0).
Proof.
  split.
  - intros m b b' H E. unfold listener_balanced in *. by rewrite E.
  - intros m b e He. apply listener_balanced_add. by destruct e.
  - intros m b. apply listener_balanced_state. by destruct m.
  - intros m b x. apply listener_balanced_state. by destruct m.
  - intros m b x. apply listener_balanced_state. by destruct m.
  - intros m b x. apply listener_balanced_state. by destruct m.
  - intros m b x. apply listener_balanced_state. by destruct m.
  - intros m b o H _. revert H. apply listener_balanced_state. by destruct m.
  - intros h m b H. unfold Messenger.connect. rewrite bind_this.
    destruct (Messenger.onCommand_ m) eqn:E; [exact H|]. simpl.
    unfold listener_balanced, handler_count in *. rewrite E in H.
    cbn [log set_log]. rewrite registrations_app. destruct m; simpl in *. lia.
  - intros m b H. rewrite disconnect_eq.
    destruct (Messenger.onCommand_ m) eqn:E; [|exact H]. simpl.
    unfold listener_balanced, handler_count in *. rewrite E in H.
    rewrite ?log_add_log, registrations_app. unfold disconnect_effects.
    rewrite !registrations_app.
    replace (registrations match Messenger.port_ m with
                           | Some p => [PortClose p]
                           | None => []
                           end) with 0%Z by by destruct (Messenger.port_ m).
    replace (registrations match Messenger.channels_ m with
                           | Some chans => channel_closes (map_to_list chans)
                           | None => []
                           end) with 0%Z
      by (destruct (Messenger.channels_ m); [by rewrite registrations_channel_closes|done]).
    destruct m; simpl in *. lia.
  - intros cmd payload transfer m b H.
    destruct (Messenger.port_ m) as [p|] eqn:Hp.
    + rewrite (sendCommand_port _ _ _ _ _ p Hp). simpl.
      by apply listener_balanced_add.
    + rewrite sendCommand_window by exact Hp.
      assert (Hw : listener_balanced n0 (withTarget m) b).
      { revert H. apply listener_balanced_state. by destruct m. }
      destruct (resolvedTarget m) as [w|]; [|exact Hw].
      destruct (Messenger.targetOrigin_ m) as [o|]; simpl;
        [by apply listener_balanced_add|].
      destruct (String.eqb cmd "connect"); [|exact Hw].
      by apply listener_balanced_add.
  - intros cmd payload m b H. unfold Messenger.callOnCommand. rewrite bind_this.
    destruct (Messenger.onCommand_ m); [|exact H]. simpl.
    by apply (listener_balanced_add n0 m b [CallOnCommand _ _ _]).
  - intros h payload m b H. simpl.
    by apply (listener_balanced_add n0 m b [CallOnCustomMessage _ _]).
Qed.

(** X13. A messenger holds its 'message' listener exactly while a command
    handler is set: over any session of calls and events, the
    registrations [connect] makes and the removals [disconnect] makes
    differ by one when the session ends with a handler set and it began
    without one, and cancel out when it ends as it began. In particular
    no listener is left behind by a session that ends disconnected, and
    none is registered twice. *)
Theorem listener_follows_handler
    (U : Utils) (m0 : Messenger.t) (b0 : Browser) (calls : list MessengerCall) :
  let final := session U calls (m0, b0) in
  (registrations (log final.2) - registrations (log b0)
   = handler_count final.1 - handler_count m0)%Z.
Proof.
  cbv zeta.
  pose proof (lkeeps_session _
                (listener_balanced_frame (registrations (log b0) - handler_count m0))
                U calls (m0, b0)) as H.
  unfold listener_balanced in H. simpl in H. lia.
Qed.

(** * Further properties of the window port *)

(** X14. The constructor accepts exactly the targets [_blank], [_top] and
    the non-empty names that do not start with an underscore. For any
    other target it throws before anything is created. For an accepted
    target it answers a port with two new pending promises, the one of
    [whenConnected()] and the one of [acceptResult()], that has no window,
    no poll and no messenger yet, and makes no call into the browser. *)
Theorem constructor_validates_target
    (win : Window) (requestId url target : string) (opt_args : JsValue)
    (opt_options : option ActivityOpenOptionsDef) (b : Browser) :
  let made := ActivityWindowPort.constructor win requestId url target opt_args opt_options tt b in
  (ActivityWindowPort.isValidTarget target = true <->
   target = "_blank" \/ target = "_top"
   \/ exists c rest, target = String c rest /\ c <> "_"%char)
  /\ (ActivityWindowPort.isValidTarget target = false ->
      made = (Throw (new_Error ActivityWindowPort.invalidTargetMessage), tt, b))
  /\ (ActivityWindowPort.isValidTarget target = true ->
      exists p,
        made.1.1 = Ret p
        /\ ActivityWindowPort.whenConnected p = S (nextId b)
        /\ ActivityWindowPort.acceptResult p = S (S (nextId b))
        /\ ActivityWindowPort.connectedResolver_ p = Some (ActivityWindowPort.whenConnected p)
        /\ ActivityWindowPort.resultResolver_ p = Some (ActivityWindowPort.acceptResult p)
        /\ connectedPromises made.2 !! ActivityWindowPort.whenConnected p = Some Pending
        /\ resultPromises made.2 !! ActivityWindowPort.acceptResult p = Some Pending
        /\ ActivityWindowPort.targetWin_ p = None
        /\ ActivityWindowPort.heartbeatInterval_ p = None
        /\ ActivityWindowPort.messenger_ p = None
        /\ ActivityWindowPort.getMode p
           = (if String.eqb target "_top" then REDIRECT else POPUP)
        /\ log made.2 = log b /\ timers made.2 = timers b).
Proof.
  cbv zeta. split; [|split].
  - unfold ActivityWindowPort.isValidTarget. destruct target as [|c rest].
    + split; [discriminate|]. intros [H|[H|(c & r & H & _)]]; discriminate.
    + rewrite !orb_true_iff, !String.eqb_eq, negb_true_iff. split.
      * intros [[H|H]|H]; [by left|by right; left|].
        right; right. exists c, rest. split; [reflexivity|].
        intros ->. by rewrite Ascii.eqb_refl in H.
      * intros [H|[H|(c' & r' & H & Hc)]]; [by left; left|by left; right|].
        right. injection H as -> ->. by apply Ascii.eqb_neq.
  - intros H. unfold ActivityWindowPort.constructor. by rewrite H.
  - intros H. unfold ActivityWindowPort.constructor. rewrite H. simpl negb. cbv iota.
    unfold new_connectedPromise, new_resultPromise, fresh, bind, update_browser, ret.
    simpl. eexists. split; [reflexivity|]. simpl.
    repeat split; try reflexivity; apply lookup_insert_eq.
Qed.

Lemma constructor_witness :
  exists p,
    (ActivityWindowPort.constructor sampleWindow "r1" "https://host.example/activity"
       "_blank" JNull None tt emptyBrowser).1.1 = Ret p
    /\ ActivityWindowPort.getMode p = POPUP.
Proof.
  destruct (proj2 (proj2 (constructor_validates_target sampleWindow "r1"
                            "https://host.example/activity" "_blank" JNull None
                            emptyBrowser)) eq_refl)
    as (p & H & _ & _ & _ & _ & _ & _ & _ & _ & _ & Hmode & _).
  exists p. split; [exact H|exact Hmode].
Defined.

Lemma same_but_log_and_timers_refl b : same_but_log_and_timers b b.
Proof. by repeat split. Qed.

Lemma messenger_disconnect_browser m b :
  log (Messenger.disconnect m b).2
  = (log b ++ if is_some (Messenger.onCommand_ m) then disconnect_effects m else [])%list
  /\ timers (Messenger.disconnect m b).2 = timers b
  /\ same_but_log_and_timers b (Messenger.disconnect m b).2
  /\ (Messenger.disconnect m b).1.1 = Ret tt.
Proof.
  rewrite disconnect_eq. destruct (Messenger.onCommand_ m); simpl.
  - by repeat split.
  - rewrite app_nil_r. by repeat split.
Qed.

(** What [ActivityWindowPort.disconnect] leaves and what it calls. *)
Lemma port_disconnect_outcome (p : ActivityWindowPort.t) (b : Browser) :
  let out := ActivityWindowPort.disconnect p b in
  out.1.1 = Ret tt
  /\ out.1.2 = disconnected_port p
  /\ log out.2 = (log b ++ port_release_effects p)%list
  /\ timers out.2 = timers_after_release p (timers b)
  /\ same_but_log_and_timers b out.2.
Proof.
  cbv zeta. unfold ActivityWindowPort.disconnect, port_release_effects,
    timers_after_release, disconnected_port.
  rewrite bind_this.
  destruct p as [win rid url ot args opts cr cp rr rp tw hb ms]. cbn [
    ActivityWindowPort.heartbeatInterval_ ActivityWindowPort.messenger_
    ActivityWindowPort.targetWin_ ActivityWindowPort.win_ ActivityWindowPort.requestId_
    ActivityWindowPort.url_ ActivityWindowPort.openTarget_ ActivityWindowPort.args_
    ActivityWindowPort.options_ ActivityWindowPort.connectedResolver_
    ActivityWindowPort.connectedPromise_ ActivityWindowPort.resultPromise_].
  destruct (ActivityWindowPort.truthy_handle hb) as [h|] eqn:Eh;
    destruct ms as [m|]; destruct tw as [w|];
    unfold clearInterval, ActivityWindowPort.onMessenger, bind, emit, update,
      update_browser, ret;
    cbn [ActivityWindowPort.messenger_ ActivityWindowPort.set_heartbeatInterval_
         ActivityWindowPort.set_messenger_ ActivityWindowPort.set_targetWin_
         ActivityWindowPort.set_resultResolver_];
    try match goal with
        | |- context [Messenger.disconnect m ?b0] =>
            destruct (messenger_disconnect_browser m b0) as (Hl & Ht & Hs & Hr);
            destruct (Messenger.disconnect m b0) as [[o m'] b']; simpl in *; subst o
        end;
    simpl; rewrite ?Hl, ?Ht, ?app_nil_r, <- ?app_assoc; simpl;
    repeat split; try reflexivity;
    try (destruct Hs as (? & ? & ? & ? & ? & ?); simpl in *; congruence).
Qed.


Lemma setupPopup__eq p b w :
  ActivityWindowPort.targetWin_ p = Some w ->
  let h := S (nextId b) in
  exists b',
    ActivityWindowPort.setupPopup_ p b
    = (Ret tt,
       ActivityWindowPort.set_messenger_
         (Some (popup_messenger (ActivityWindowPort.win_ p) w))
         (ActivityWindowPort.set_heartbeatInterval_ (Some h) p), b')
    /\ log b' = (log b ++ [SetInterval h HeartbeatCheck 500; AddEventListener])%list
    /\ timers b' = (timers b ++ [mkTimer h (clock b + 500) (Some 500%Z) HeartbeatCheck])%list
    /\ nextId b' = h
    /\ clock b' = clock b /\ closedWindows b' = closedWindows b
    /\ resultPromises b' = resultPromises b /\ channelPromises b' = channelPromises b
    /\ connectedPromises b' = connectedPromises b.
Proof.
  intros Hw. cbv zeta. unfold ActivityWindowPort.setupPopup_, setInterval, fresh.
  destruct p as [win rid url ot args opts cr cp rr rp tw hb ms]. simpl in Hw. subst tw.
  unfold ActivityWindowPort.onMessenger, Messenger.connect, bind, emit, update,
    update_browser, ret, this. simpl.
  eexists. split; [reflexivity|]. simpl. rewrite <- app_assoc. by repeat split.
Qed.

Lemma open_first_attempt U buildFeatures p b :
  ActivityWindowPort.open U buildFeatures p b
  = (let* (targetWin, openTarget) :=
       match opened (window_open (ActivityWindowPort.win_ p) (opened_url U p)
                       (first_target U p) (Some (buildFeatures p))) with
       | None =>
           if negb (String.eqb (first_target U p) "_top")
              && negb (disableRedirectFallback (ActivityWindowPort.options_ p))
           then (let* w := ActivityWindowPort.tryOpen (opened_url U p) "_top" None in
                 ret (w, "_top"))
           else ret (None, first_target U p)
       | Some w => ret (Some w, first_target U p)
       end in
     match targetWin with
     | Some w =>
         update (ActivityWindowPort.set_targetWin_ (Some w));;
         if negb (String.eqb openTarget "_top")
         then ActivityWindowPort.setupPopup_ else ret tt
     | None => ActivityWindowPort.disconnectWithError_ (new_Error "failed to open window")
     end;;
     let* derived := new_resultPromise in
     emit (PromiseCatch (ActivityWindowPort.resultPromise_ p) derived);;
     ret derived) p
      (add_log [WindowOpen (opened_url U p) (first_target U p) (Some (buildFeatures p))] b).
Proof.
  unfold ActivityWindowPort.open, ActivityWindowPort.openInternal_.
  rewrite bind_this. cbv zeta. fold (opened_url U p). fold (first_target U p).
  rewrite bind_tryOpen. unfold opened.
  by destruct (window_open _ _ _ _).
Qed.

Lemma window_opens_app es es' : window_opens (es ++ es') = (window_opens es ++ window_opens es')%list.
Proof. unfold window_opens. apply List.filter_app. Qed.

Lemma window_opens_channel_closes l : window_opens (channel_closes l) = [].
Proof.
  induction l as [|[k h] l IH]; [reflexivity|]. simpl.
  destruct (port1 h), (port2 h); simpl; exact IH.
Qed.

Lemma window_opens_release p : window_opens (port_release_effects p) = [].
Proof.
  unfold port_release_effects. rewrite !window_opens_app.
  destruct (ActivityWindowPort.truthy_handle _); simpl;
    destruct (ActivityWindowPort.messenger_ p) as [m|]; simpl;
    destruct (ActivityWindowPort.targetWin_ p); simpl; rewrite ?app_nil_r; try reflexivity.
  all: destruct (is_some (Messenger.onCommand_ m)); [|reflexivity].
  all: unfold disconnect_effects; rewrite !window_opens_app.
  all: destruct (Messenger.port_ m); simpl;
       destruct (Messenger.channels_ m); simpl;
       rewrite ?window_opens_channel_closes; reflexivity.
Qed.

(** What [disconnectWithError_] does: the awaited result is rejected with
    the reason, then the port is disconnected. *)
Lemma disconnectWithError__eq reason p b :
  let out := ActivityWindowPort.disconnectWithError_ reason p b in
  let rejection :=
    match ActivityWindowPort.resultResolver_ p with
    | Some r => [ResolveResult r (Rejected reason)]
    | None => []
    end in
  out.1.1 = Ret tt
  /\ out.1.2 = disconnected_port p
  /\ log out.2 = (log b ++ rejection ++ port_release_effects p)%list
  /\ timers out.2 = timers_after_release p (timers b)
  /\ resultPromises out.2
     = match ActivityWindowPort.resultResolver_ p with
       | Some r => settle r (Rejected reason) (resultPromises b)
       | None => resultPromises b
       end
  /\ nextId out.2 = nextId b /\ clock out.2 = clock b.
Proof.
  cbv zeta. unfold ActivityWindowPort.disconnectWithError_. rewrite bind_this.
  destruct (ActivityWindowPort.resultResolver_ p) as [r|].
  - unfold resolve_result. rewrite !bind_bind, bind_emit, bind_update_browser.
    match goal with
    | |- context [ActivityWindowPort.disconnect p ?b0] =>
        destruct (port_disconnect_outcome p b0) as (H1 & H2 & H3 & H4 & H5)
    end.
    cbv zeta in *. destruct H5 as (Hc & _ & Hr & _ & _ & Hn).
    rewrite H1, H2, H3, H4, Hr, Hn, Hc. simpl. rewrite <- app_assoc. by repeat split.
  - rewrite bind_ret.
    destruct (port_disconnect_outcome p b) as (H1 & H2 & H3 & H4 & H5).
    cbv zeta in *. destruct H5 as (Hc & _ & Hr & _ & _ & Hn).
    rewrite H1, H2, H3, H4, Hr, Hn, Hc. by repeat split.
Qed.

Lemma open_finish {A} (c : M ActivityWindowPort.t A) p0 p b a p1 b1 :
  c p b = (Ret a, p1, b1) ->
  exists b2,
    (c;;
     let* derived := new_resultPromise in
     emit (PromiseCatch (ActivityWindowPort.resultPromise_ p0) derived);;
     ret derived) p b
    = (Ret (S (nextId b1)), p1, b2)
    /\ log b2 = (log b1 ++ [PromiseCatch (ActivityWindowPort.resultPromise_ p0)
                               (S (nextId b1))])%list
    /\ timers b2 = timers b1
    /\ resultPromises b2 = <[S (nextId b1) := Pending]> (resultPromises b1)
    /\ clock b2 = clock b1.
Proof.
  intros Hc. unfold bind at 1. rewrite Hc.
  unfold new_resultPromise, fresh, bind, update_browser, emit, ret. simpl.
  eexists. split; [reflexivity|]. by repeat split.
Qed.

(** X16. [open()] calls [win.open] once or twice and never more. The
    first call has the port's target, or [_top] on IE, and the feature
    string; the second call is the redirect fallback, with [_top] and no
    features, and it is made exactly when the first call yielded no
    window, its target was not [_top] and [disableRedirectFallback] is not
    set. Both calls carry the same URL. *)
Theorem open_attempts
    (U : Utils) (buildFeatures : ActivityWindowPort.t -> string)
    (p : ActivityWindowPort.t) (b : Browser) :
  let url := opened_url U p in
  let first := first_target U p in
  let fallback :=
    negb (is_some (opened (window_open (ActivityWindowPort.win_ p) url first
                             (Some (buildFeatures p)))))
    && negb (String.eqb first "_top")
    && negb (disableRedirectFallback (ActivityWindowPort.options_ p)) in
  exists es,
    log (ActivityWindowPort.open U buildFeatures p b).2 = (log b ++ es)%list
    /\ window_opens es
       = WindowOpen url first (Some (buildFeatures p))
         :: (if fallback then [WindowOpen url "_top" None] else []).
Proof.
  cbv zeta. rewrite open_first_attempt.
  set (url := opened_url U p). set (first := first_target U p).
  set (b0 := add_log [WindowOpen url first (Some (buildFeatures p))] b).
  assert (Hrest : forall (tw : option WindowRef) (target : string) b1 es1,
    log b1 = (log b ++ es1)%list ->
    exists es,
      log ((match tw with
            | Some w =>
                update (ActivityWindowPort.set_targetWin_ (Some w));;
                if negb (String.eqb target "_top")
                then ActivityWindowPort.setupPopup_ else ret tt
            | None => ActivityWindowPort.disconnectWithError_ (new_Error "failed to open window")
            end;;
            let* derived := new_resultPromise in
            emit (PromiseCatch (ActivityWindowPort.resultPromise_ p) derived);;
            ret derived) p b1).2 = (log b ++ es)%list
      /\ window_opens es = window_opens es1).
  { intros tw target b1 es1 Hl. destruct tw as [w|].
    - destruct (negb (String.eqb target "_top")).
      + destruct (setupPopup__eq (ActivityWindowPort.set_targetWin_ (Some w) p) b1 w)
          as (b' & Hs & Hl' & _); [by destruct p|].
        edestruct (open_finish
                     (update (ActivityWindowPort.set_targetWin_ (Some w));;
                      ActivityWindowPort.setupPopup_) p p b1) as (b2 & -> & Hl2 & _).
        { rewrite bind_update. exact Hs. }
        simpl. rewrite Hl2, Hl', Hl. eexists. rewrite <- !app_assoc. split; [reflexivity|].
        rewrite window_opens_app. simpl. by rewrite app_nil_r.
      + edestruct (open_finish
                     (update (ActivityWindowPort.set_targetWin_ (Some w));; ret tt)
                     p p b1) as (b2 & -> & Hl2 & _); [reflexivity|].
        simpl. rewrite Hl2, Hl. eexists. rewrite <- !app_assoc. split; [reflexivity|].
        rewrite window_opens_app. simpl. by rewrite app_nil_r.
    - destruct (disconnectWithError__eq (new_Error "failed to open window") p b1)
        as (H1 & H2 & H3 & _). cbv zeta in *.
      destruct (ActivityWindowPort.disconnectWithError_ _ p b1) as [[o p1] b1'] eqn:E.
      simpl in *. subst o.
      edestruct (open_finish (ActivityWindowPort.disconnectWithError_
                                (new_Error "failed to open window")) p p b1)
        as (b2 & -> & Hl2 & _); [exact E|].
      simpl. rewrite Hl2, H3, Hl. eexists. rewrite <- !app_assoc. split; [reflexivity|].
      rewrite !window_opens_app, window_opens_release.
      destruct (ActivityWindowPort.resultResolver_ p); simpl; by rewrite app_nil_r. }
  destruct (opened (window_open _ url first _)) as [w|]; simpl is_some; simpl negb;
    simpl andb.
  - rewrite bind_ret. cbv iota beta.
    destruct (Hrest (Some w) first b0 [WindowOpen url first (Some (buildFeatures p))])
      as (es & Hl & Ho); [reflexivity|].
    exists es. split; [exact Hl|]. rewrite Ho. reflexivity.
  - destruct (negb (String.eqb first "_top") && _).
    + rewrite bind_bind, bind_tryOpen, bind_ret. cbv iota beta.
      match goal with
      | |- context [add_log ?e2 b0] =>
          destruct (Hrest (opened (window_open (ActivityWindowPort.win_ p) url "_top" None))
                      "_top" (add_log e2 b0)
                      [WindowOpen url first (Some (buildFeatures p));
                       WindowOpen url "_top" None])
            as (es & Hl & Ho);
            [unfold b0; by rewrite !log_add_log, <- app_assoc|]
      end.
      exists es. split; [|rewrite Ho; reflexivity].
      etransitivity; [|exact Hl]. unfold opened.
      by destruct (window_open _ url "_top" None).
    + rewrite bind_ret. cbv iota beta.
      destruct (Hrest None first b0 [WindowOpen url first (Some (buildFeatures p))])
        as (es & Hl & Ho); [reflexivity|].
      exists es. split; [exact Hl|]. rewrite Ho. reflexivity.
Qed.

(** X17. When [win.open] answers a window for a popup target, [open()]
    keeps that window, starts the poll (an interval of 500 ms) and
    connects a messenger that accepts messages only from that window and
    has no origin pinned yet. The result stays pending, and the promise
    [open()] returns is a new one, derived from it. *)
Theorem open_popup_sets_up_poll_and_messenger
    (U : Utils) (buildFeatures : ActivityWindowPort.t -> string)
    (p : ActivityWindowPort.t) (b : Browser) (w : WindowRef) :
  first_target U p <> "_top" ->
  window_open (ActivityWindowPort.win_ p) (opened_url U p) (first_target U p)
    (Some (buildFeatures p)) = Opened w ->
  let h := S (nextId b) in
  let derived := S (S (nextId b)) in
  let out := ActivityWindowPort.open U buildFeatures p b in
  out.1 = (Ret derived,
           ActivityWindowPort.set_messenger_
             (Some (popup_messenger (ActivityWindowPort.win_ p) w))
             (ActivityWindowPort.set_heartbeatInterval_ (Some h)
                (ActivityWindowPort.set_targetWin_ (Some w) p)))
  /\ log out.2
     = (log b ++ [WindowOpen (opened_url U p) (first_target U p) (Some (buildFeatures p));
                  SetInterval h HeartbeatCheck 500; AddEventListener;
                  PromiseCatch (ActivityWindowPort.resultPromise_ p) derived])%list
  /\ timers out.2 = (timers b ++ [mkTimer h (clock b + 500) (Some 500%Z) HeartbeatCheck])%list
  /\ resultPromises out.2 = <[derived := Pending]> (resultPromises b)
  /\ Messenger.requireTarget_ (popup_messenger (ActivityWindowPort.win_ p) w) = true
  /\ Messenger.targetOrigin_ (popup_messenger (ActivityWindowPort.win_ p) w) = None
  /\ resolvedTarget (popup_messenger (ActivityWindowPort.win_ p) w) = Some w.
Proof.
  intros Ht Hopen. cbv zeta. rewrite open_first_attempt, Hopen. simpl opened. cbv iota.
  rewrite bind_ret. cbv iota beta. apply String.eqb_neq in Ht. rewrite Ht. simpl negb.
  cbv iota.
  set (b0 := add_log _ b).
  destruct (setupPopup__eq (ActivityWindowPort.set_targetWin_ (Some w) p) b0 w)
    as (b' & Hs & Hl & Htm & Hn & Hc & _ & Hr & _); [by destruct p|].
  edestruct (open_finish
               (update (ActivityWindowPort.set_targetWin_ (Some w));;
                ActivityWindowPort.setupPopup_) p p b0) as (b2 & -> & Hl2 & Ht2 & Hr2 & _).
  { rewrite bind_update. exact Hs. }
  cbn [fst snd]. rewrite Hl2, Ht2, Hr2, Hl, Htm, Hn, Hr. unfold b0.
  rewrite log_add_log, <- !app_assoc.
  repeat split; try reflexivity; by destruct p.
Qed.

Lemma open_popup_witness :
  ActivityWindowPort.messenger_
    (ActivityWindowPort.open sampleUtils sampleFeatures (newPort sampleWindow)
       newPortBrowser).1.2
  = Some (popup_messenger sampleWindow 7).
Proof.
  destruct (open_popup_sets_up_poll_and_messenger sampleUtils sampleFeatures
              (newPort sampleWindow) newPortBrowser 7) as (H & _).
  - discriminate.
  - reflexivity.
  - cbv zeta in H. by rewrite H.
Defined.

(** X18. When [win.open] yields no window, for the target and for the
    redirect fallback where one is tried, [open()] rejects the awaited
    result with the error 'failed to open window' and disconnects the
    port: it is left without resolver, window, poll and messenger, and no
    timer is set. [open()] itself does not throw: it still answers a
    promise, a new one that is pending. *)
Theorem open_failure_rejects_result
    (U : Utils) (buildFeatures : ActivityWindowPort.t -> string)
    (p : ActivityWindowPort.t) (b : Browser) (r : PromiseId) :
  (forall target features,
     opened (window_open (ActivityWindowPort.win_ p) (opened_url U p) target features)
     = None) ->
  ActivityWindowPort.resultResolver_ p = Some r ->
  resultPromises b !! r = Some Pending ->
  r <= nextId b ->
  let out := ActivityWindowPort.open U buildFeatures p b in
  out.1 = (Ret (S (nextId b)), disconnected_port p)
  /\ resultPromises out.2 !! r = Some (Rejected (new_Error "failed to open window"))
  /\ resultPromises out.2 !! S (nextId b) = Some Pending
  /\ timers out.2 = timers_after_release p (timers b)
  /\ In (ResolveResult r (Rejected (new_Error "failed to open window"))) (log out.2).
Proof.
  intros Hblocked Hr Hp Hold. cbv zeta. rewrite open_first_attempt, Hblocked.
  set (b0 := add_log _ b).
  assert (Hfail : forall b1,
    resultPromises b1 = resultPromises b -> timers b1 = timers b ->
    nextId b1 = nextId b ->
    let out :=
      (ActivityWindowPort.disconnectWithError_ (new_Error "failed to open window");;
       let* derived := new_resultPromise in
       emit (PromiseCatch (ActivityWindowPort.resultPromise_ p) derived);;
       ret derived) p b1 in
    out.1 = (Ret (S (nextId b)), disconnected_port p)
    /\ resultPromises out.2 !! r = Some (Rejected (new_Error "failed to open window"))
    /\ resultPromises out.2 !! S (nextId b) = Some Pending
    /\ timers out.2 = timers_after_release p (timers b)
    /\ In (ResolveResult r (Rejected (new_Error "failed to open window"))) (log out.2)).
  { intros b1 Hr1 Ht1 Hn1. cbv zeta.
    destruct (disconnectWithError__eq (new_Error "failed to open window") p b1)
      as (H1 & H2 & H3 & H4 & H5 & H6 & _). cbv zeta in *. rewrite Hr in *.
    destruct (ActivityWindowPort.disconnectWithError_ _ p b1) as [[o p1] b1'] eqn:E.
    simpl in *. subst o p1.
    edestruct (open_finish (ActivityWindowPort.disconnectWithError_
                              (new_Error "failed to open window")) p p b1)
      as (b2 & -> & Hl2 & Ht2 & Hr2 & _); [exact E|].
    cbn [fst snd]. rewrite Hr2, Ht2, Hl2, H6, H5, H4, H3, Hr1, Ht1, Hn1.
    split; [reflexivity|]. split.
    { rewrite lookup_insert_ne by lia. by apply settle_pending. }
    split; [apply lookup_insert_eq|]. split; [reflexivity|].
    apply in_or_app. left. apply in_or_app. right. by left. }
  destruct (negb (String.eqb (first_target U p) "_top") && _).
  - rewrite bind_bind, bind_tryOpen, bind_ret. cbv iota beta.
    specialize (Hblocked "_top" None). unfold opened in Hblocked.
    destruct (window_open _ _ "_top" None); [discriminate| |]; by apply Hfail.
  - rewrite bind_ret. cbv iota beta. by apply Hfail.
Qed.

Lemma open_failure_witness :
  resultPromises
    (ActivityWindowPort.open sampleUtils sampleFeatures (newPort blockingWindow)
       newPortBrowser).2 !! 2
  = Some (Rejected (new_Error "failed to open window")).
Proof.
  destruct (open_failure_rejects_result sampleUtils sampleFeatures
              (newPort blockingWindow) newPortBrowser 2) as (_ & H & _);
    [reflexivity|reflexivity|reflexivity|apply le_n|exact H].
Defined.

(** ** The handshake of the port *)

Lemma accepts_of_payload payload :
  truthy (accepts_of (js_or payload JNull)) = truthy (get_prop payload "acceptsChannel").
Proof.
  unfold accepts_of, js_or, js_and. destruct (truthy payload) eqn:Hp.
  - rewrite Hp. by destruct (truthy (get_prop payload "acceptsChannel")) eqn:Ha.
  - simpl. destruct payload; try reflexivity; simpl in Hp; try discriminate.
Qed.

(** The popup's 'connect' on the window, at the messenger [setupPopup_]
    made: it pins the origin and hands the command to the port. *)
Lemma popup_connect_handled win w o payload ports b :
  Messenger.handleEvent_
    (MessageEvent.mk (Messenger.envelope "connect" payload) o (Some w) ports)
    (popup_messenger win w) b
  = (Ret (ToOnCommand PortHandleCommand (JStr "connect") (js_or payload JNull)),
     connected_messenger win w o (accepts_of (js_or payload JNull)) None,
     add_log [CallOnCommand PortHandleCommand (JStr "connect") (js_or payload JNull)] b).
Proof.
  rewrite handleEvent__eq. cbv zeta.
  assert (Hs : source_accepted
                 (MessageEvent.mk (Messenger.envelope "connect" payload) o (Some w) ports)
                 (popup_messenger win w) = true).
  { unfold source_accepted. simpl. apply Nat.eqb_refl. }
  rewrite Hs. cbv iota. simpl negb. cbv iota.
  change (after_source_check (popup_messenger win w))
    with (Messenger.mk win (TargetWindow (Some w)) None true (Some w) (JBool false) None
            (Some PortHandleCommand) None None).
  assert (Hp : after_pinning
                 (MessageEvent.mk (Messenger.envelope "connect" payload) o (Some w) ports)
                 (Messenger.mk win (TargetWindow (Some w)) None true (Some w) (JBool false)
                    None (Some PortHandleCommand) None None)
               = connected_messenger win w o (JBool false) None).
  { unfold after_pinning. simpl. by rewrite Nat.eqb_refl. }
  rewrite Hp. unfold connected_messenger at 1. cbn [Messenger.targetOrigin_ MessageEvent.origin].
  rewrite String.eqb_refl. simpl negb. cbv iota.
  change (get_prop (MessageEvent.data _) "cmd") with (JStr "connect").
  change (get_prop (MessageEvent.data
                      (MessageEvent.mk (Messenger.envelope "connect" payload) o (Some w) ports))
            "payload") with (js_or payload JNull).
  rewrite js_or_null_idem.
  unfold Messenger.handleCommand_.
  change (loose_eq_str (JStr "connect") "connect") with true. cbv iota.
  rewrite bind_this. cbn [Messenger.port_ connected_messenger].
  rewrite bind_ret, bind_update. unfold Messenger.callOnCommand.
  rewrite bind_this. simpl Messenger.onCommand_. cbv iota.
  reflexivity.
Qed.

(** X19. The handshake. When the popup the port opened sends 'connect'
    from the origin [o], the port pins [o], answers with one 'start' that
    carries the activity's arguments, addressed to the popup at [o], and
    fulfils [whenConnected]. The 'start' carries the far end of a new
    MessageChannel, which becomes the messenger's port, exactly when the
    popup's payload accepts channels and the window has MessageChannel. The
    result promise and the timers are not touched. *)
Theorem connect_is_answered_with_start (U : Utils) (p : ActivityWindowPort.t) (b : Browser)
    (w : WindowRef) (c : PromiseId) (o : string) (payload : JsValue)
    (ports : option (list PortId)) :
  ActivityWindowPort.messenger_ p = Some (popup_messenger (ActivityWindowPort.win_ p) w) ->
  ActivityWindowPort.connectedResolver_ p = Some c ->
  let event := MessageEvent.mk (Messenger.envelope "connect" payload) o (Some w) ports in
  let upgrade :=
    truthy (get_prop payload "acceptsChannel")
    && hasMessageChannel (ActivityWindowPort.win_ p) in
  let start := Messenger.envelope "start" (ActivityWindowPort.args_ p) in
  let p1 := S (nextId b) in
  let p2 := S (S (nextId b)) in
  let after := onWindowMessage U event p b in
  after.1.1 = Ret tt
  /\ after.1.2
     = ActivityWindowPort.set_messenger_
         (Some (connected_messenger (ActivityWindowPort.win_ p) w o
                  (accepts_of (js_or payload JNull)) (if upgrade then Some p1 else None))) p
  /\ log after.2
     = (log b
        ++ [CallOnCommand PortHandleCommand (JStr "connect") (js_or payload JNull)]
        ++ (if upgrade
            then [NewMessageChannel p1 p2; WindowPostMessage w start o (Some [p2]);
                  PortSetOnMessage p1]
            else [WindowPostMessage w start o None])
        ++ [ResolveConnected c])%list
  /\ connectedPromises after.2 = settle c (Fulfilled tt) (connectedPromises b)
  /\ resultPromises after.2 = resultPromises b
  /\ timers after.2 = timers b.
Proof.
  intros Hm Hc. cbv zeta.
  unfold onWindowMessage. rewrite bind_this, Hm.
  change (Messenger.onCommand_ (popup_messenger (ActivityWindowPort.win_ p) w))
    with (Some PortHandleCommand). cbv iota.
  rewrite (bind_onMessenger _ _ _ _ _ Hm).
  rewrite popup_connect_handled.
  unfold deliver, ActivityWindowPort.handleCommand_.
  change (loose_eq_str (JStr "connect") "connect") with true. cbv iota.
  rewrite bind_this.
  set (acc := accepts_of (js_or payload JNull)).
  set (win := ActivityWindowPort.win_ p).
  set (m1 := connected_messenger win w o acc None).
  set (b1 := add_log _ b).
  assert (Hm1 : ActivityWindowPort.messenger_
                  (ActivityWindowPort.set_messenger_ (Some m1) p) = Some m1) by reflexivity.
  rewrite (bind_onMessenger _ _ _ _ _ Hm1).
  change (ActivityWindowPort.connectedResolver_
            (ActivityWindowPort.set_messenger_ (Some m1) p))
    with (ActivityWindowPort.connectedResolver_ p).
  change (ActivityWindowPort.args_ (ActivityWindowPort.set_messenger_ (Some m1) p))
    with (ActivityWindowPort.args_ p).
  rewrite Hc. rewrite <- accepts_of_payload. fold acc.
  destruct (truthy acc && hasMessageChannel win) eqn:Hu.
  - rewrite (sendStartCommand_on_window _ m1 b1 w o Hu eq_refl eq_refl eq_refl).
    unfold resolve_connected, bind, emit, update_browser. cbn [fst snd].
    repeat split; try (by destruct p). unfold b1; cbn. by rewrite <- !app_assoc.
  - rewrite (sendStartCommand_plain _ m1 b1 Hu).
    rewrite sendCommand_window by reflexivity.
    unfold resolve_connected, bind, emit, update_browser. cbn [fst snd].
    repeat split; try (by destruct p). unfold b1; cbn. by rewrite <- !app_assoc.
Qed.

Lemma connect_handshake_witness :
  log (onWindowMessage sampleUtils
         (MessageEvent.mk (Messenger.envelope "connect" (JObj [("acceptsChannel", JBool true)]))
            "https://host.example" (Some 7) None)
         (ActivityWindowPort.set_messenger_ (Some (popup_messenger sampleWindow 7))
            (newPort sampleWindow))
         newPortBrowser).2
  = [CallOnCommand PortHandleCommand (JStr "connect") (JObj [("acceptsChannel", JBool true)]);
     NewMessageChannel 3 4;
     WindowPostMessage 7 (Messenger.envelope "start" JNull) "https://host.example" (Some [4]);
     PortSetOnMessage 3;
     ResolveConnected 1].
Proof.
  destruct (connect_is_answered_with_start sampleUtils
              (ActivityWindowPort.set_messenger_ (Some (popup_messenger sampleWindow 7))
                 (newPort sampleWindow))
              newPortBrowser 7 1 "https://host.example"
              (JObj [("acceptsChannel", JBool true)]) None eq_refl eq_refl)
    as (_ & _ & H & _).
  exact H.
Defined.

(** ** A port after [disconnect] *)

Lemma disconnected_port_released p : released (disconnected_port p).
Proof.
  unfold released, disconnected_port. simpl. repeat split.
  by destruct (ActivityWindowPort.heartbeatInterval_ p) as [[|h]|].
Qed.

Lemma only_cancel_timeouts_refl b : only_cancel_timeouts b b.
Proof. repeat split. exists []. by rewrite app_nil_r. Qed.

Lemma only_cancel_timeouts_trans b1 b2 b3 :
  only_cancel_timeouts b1 b2 -> only_cancel_timeouts b2 b3 -> only_cancel_timeouts b1 b3.
Proof.
  intros (R1 & C1 & N1 & es1 & L1 & F1) (R2 & C2 & N2 & es2 & L2 & F2).
  repeat split; try congruence.
  exists (es1 ++ es2)%list. split; [by rewrite L2, L1, app_assoc|by apply Forall_app].
Qed.

Lemma released_check_ delay p b :
  released p ->
  exists b', ActivityWindowPort.check_ delay p b = (Ret tt, p, b')
             /\ only_cancel_timeouts b b'.
Proof.
  intros (Hr & Hm & Hw & Hh). unfold ActivityWindowPort.check_.
  rewrite bind_this, bind_browser, Hw, Hh. cbv iota.
  unfold setTimeout, bind, ret, fresh, emit, update_browser. cbn [fst snd].
  eexists. split; [reflexivity|]. repeat split.
  eexists [_]. split; [reflexivity|]. by repeat constructor.
Qed.

Lemma released_disconnect p b :
  released p -> ActivityWindowPort.disconnect p b = (Ret tt, p, b).
Proof.
  intros (Hr & Hm & Hw & Hh). unfold ActivityWindowPort.disconnect.
  rewrite bind_this, Hm, Hw, Hh, !bind_ret. unfold update.
  destruct p; simpl in *; subst; reflexivity.
Qed.

Lemma released_cancel U p b :
  released p ->
  ActivityWindowPort.runTimerCallback U CancelResult p b = (Ret tt, p, b).
Proof.
  intros Hrel. pose proof Hrel as (Hr & Hm & Hw & Hh).
  unfold ActivityWindowPort.runTimerCallback, catch, ActivityWindowPort.result_.
  rewrite bind_this, Hr, bind_ret, bind_this, Hm, bind_ret.
  by rewrite released_disconnect.
Qed.

Lemma released_step U i p b :
  released p ->
  exists b', step U i (p, b) = (p, b') /\ only_cancel_timeouts b b'.
Proof.
  intros Hrel. pose proof Hrel as (Hr & Hm & Hw & Hh).
  unfold step, react. cbn [fst snd]. destruct i as [ms|id|event|event|w|].
  - eexists. split; [reflexivity|]. repeat split. exists []. by rewrite app_nil_r.
  - unfold fireTimer. rewrite bind_browser.
    destruct (find _ (timers b)) as [t|]; [|exists b; split; [reflexivity|apply only_cancel_timeouts_refl]].
    destruct (Z.leb _ _); [|exists b; split; [reflexivity|apply only_cancel_timeouts_refl]].
    rewrite bind_update_browser.
    set (b1 := set_timers _ b).
    assert (H1 : only_cancel_timeouts b b1).
    { repeat split. exists []. by rewrite app_nil_r. }
    destruct (timer_callback t).
    + destruct (released_check_ true p b1 Hrel) as (b' & E & H).
      exists b'. unfold ActivityWindowPort.runTimerCallback. rewrite E.
      split; [reflexivity|exact (only_cancel_timeouts_trans _ _ _ H1 H)].
    + rewrite released_cancel by exact Hrel. by exists b1.
    + destruct (released_check_ false p b1 Hrel) as (b' & E & H).
      exists b'. unfold ActivityWindowPort.runTimerCallback. rewrite E.
      split; [reflexivity|exact (only_cancel_timeouts_trans _ _ _ H1 H)].
  - unfold onWindowMessage. rewrite bind_this, Hm.
    exists b; split; [reflexivity|apply only_cancel_timeouts_refl].
  - unfold onChannelMessage. rewrite bind_this, Hm.
    exists b; split; [reflexivity|apply only_cancel_timeouts_refl].
  - eexists. split; [reflexivity|]. repeat split. exists []. by rewrite app_nil_r.
  - rewrite released_disconnect by exact Hrel.
    exists b; split; [reflexivity|apply only_cancel_timeouts_refl].
Qed.

Lemma released_run U inputs p b :
  released p ->
  exists b', run U inputs (p, b) = (p, b') /\ only_cancel_timeouts b b'.
Proof.
  intros Hrel. revert b. induction inputs as [|i inputs IH]; intros b.
  - exists b. split; [reflexivity|apply only_cancel_timeouts_refl].
  - destruct (released_step U i p b Hrel) as (b1 & E1 & H1).
    destruct (IH b1) as (b2 & E2 & H2).
    exists b2. split; [|exact (only_cancel_timeouts_trans _ _ _ H1 H2)].
    unfold run in *. simpl. by rewrite E1.
Qed.

(** X20. A port is inert after [disconnect]. Whatever happens then (time
    passing, stale timers firing, messages on the window or on a channel,
    the popup closing, further [disconnect] calls), the port stays as
    [disconnect] left it, no promise is settled, and the only host calls
    are schedulings of the cancel closure by stale checks, which does
    nothing when it runs. *)
Theorem disconnected_port_is_inert (U : Utils) (p : ActivityWindowPort.t) (b : Browser)
    (inputs : list Input) :
  let w0 := step U ClientDisconnect (p, b) in
  let w := run U inputs w0 in
  w0.1 = disconnected_port p
  /\ w.1 = w0.1
  /\ only_cancel_timeouts w0.2 w.2.
Proof.
  cbv zeta. destruct (port_disconnect_eq p b) as (b0 & E).
  assert (E0 : step U ClientDisconnect (p, b) = (disconnected_port p, b0)).
  { unfold step, react. cbn [fst snd]. by rewrite E. }
  rewrite E0. cbn [fst snd].
  destruct (released_run U inputs (disconnected_port p) b0 (disconnected_port_released p))
    as (b' & E' & H).
  rewrite E'. cbn [fst snd]. split; [reflexivity|split; [reflexivity|exact H]].
Qed.

(** * Further properties of the redirect discovery *)

